(** * Market analytics of nofx: indicators, support/resistance levels,
      confluence, the open-interest cache and snapshot assembly.

    Shallow embedding of [market/data.go] and of the support/resistance file
    of the same package.  Every numeric function of the package computes on
    Go [float64].  The embedding is written once, over the interface
    [Float64Ops] of the float64 operations the package uses, and is run at
    two instances:

    - [binary64]: Rocq's primitive IEEE-754 binary64 floats, the arithmetic
      the Go program executes;
    - [exactQ]: the rationals, i.e. the same program with every rounding
      removed (the reading under which the specification's algebraic
      sentences are meant).

    Structural facts are proved for every instance; facts which need the
    laws of arithmetic are proved at [exactQ].  [binary64] rounds after
    every operation (no fused multiply-add), as Go does on amd64.  A
    division by zero gives NaN or an infinity at [binary64] and 0 at
    [exactQ]; the theorems at [exactQ] assume a positive period, or
    positive prices, wherever a division by them matters.  Go [int]s are
    unbounded integers here. *)

From Stdlib Require Import ZArith QArith Qabs Qround Qminmax Lia Lqa Bool List.
From Stdlib Require Import Floats Uint63 Ascii String.
From Stdlib Require Import Permutation Sorted.
From stdpp Require Import base gmap strings.
Import ListNotations.

#[local] Open Scope Z_scope.

(* ===================================================================== *)
(** ** The float64 interface *)
(* ===================================================================== *)

Class Float64Ops (F : Type) := {
  ofZ   : Z -> F;            (* float64(n) for an int n *)
  fadd  : F -> F -> F;
  fsub  : F -> F -> F;
  fmul  : F -> F -> F;
  fdiv  : F -> F -> F;
  fneg  : F -> F;
  fabs  : F -> F;            (* math.Abs *)
  fmax  : F -> F -> F;       (* math.Max *)
  feqb  : F -> F -> bool;    (* == *)
  fltb  : F -> F -> bool;    (* <  *)
  fleb  : F -> F -> bool;    (* <= *)
  roundZ : F -> Z            (* int(math.Round(x)) *)
}.

Declare Scope f64_scope.
Delimit Scope f64_scope with f64.
Notation "x + y" := (fadd x y) : f64_scope.
Notation "x - y" := (fsub x y) : f64_scope.
Notation "x * y" := (fmul x y) : f64_scope.
Notation "x / y" := (fdiv x y) : f64_scope.
Notation "- x" := (fneg x) : f64_scope.
Notation "x =? y" := (feqb x y) : f64_scope.
Notation "x <? y" := (fltb x y) : f64_scope.
Notation "x <=? y" := (fleb x y) : f64_scope.
Notation "x >? y" := (fltb y x) : f64_scope.
Notation "x >=? y" := (fleb y x) : f64_scope.

(** A decimal literal [n/d] of the source.  Both [n] and [d] are small
    integers, exactly representable, so the correctly rounded quotient is
    the float64 the Go compiler stores for the literal. *)
Definition lit {F} `{Float64Ops F} (n d : Z) : F := (ofZ n / ofZ d)%f64.

(** *** IEEE-754 binary64 *)

Definition float_ofZ (z : Z) : float :=
  if (z <? 0)%Z then PrimFloat.opp (PrimFloat.of_uint63 (Uint63.of_Z (- z)))
  else PrimFloat.of_uint63 (Uint63.of_Z z).

(** [math.Max], with its special cases for infinities, NaN and signed
    zeros. *)
Definition float_max (x y : float) : float :=
  if (PrimFloat.eqb x infinity || PrimFloat.eqb y infinity)%bool then infinity
  else if (PrimFloat.is_nan x || PrimFloat.is_nan y)%bool then nan
  else if (PrimFloat.eqb x PrimFloat.zero && PrimFloat.eqb x y)%bool
       then (if PrimFloat.get_sign x then y else x)
  else if PrimFloat.ltb y x then x else y.

(** [int(math.Round(x))]: round half away from zero.  NaN and the
    infinities, for which Go leaves the conversion unspecified, give 0. *)
Definition float_roundZ (x : float) : Z :=
  match Prim2SF x with
  | S754_finite s m e =>
      let mag :=
        if (0 <=? e)%Z then Z.pos m * 2 ^ e
        else let d := 2 ^ (- e) in
             let q := Z.pos m / d in
             let r := Z.pos m mod d in
             if (d <=? 2 * r)%Z then q + 1 else q in
      if s then - mag else mag
  | _ => 0
  end.

#[export] Instance binary64 : Float64Ops float := {
  ofZ := float_ofZ;
  fadd := PrimFloat.add; fsub := PrimFloat.sub;
  fmul := PrimFloat.mul; fdiv := PrimFloat.div;
  fneg := PrimFloat.opp; fabs := PrimFloat.abs; fmax := float_max;
  feqb := PrimFloat.eqb; fltb := PrimFloat.ltb; fleb := PrimFloat.leb;
  roundZ := float_roundZ
}.

(** *** Exact rationals *)

Definition Qltb (x y : Q) : bool := negb (Qle_bool y x).

Definition Q_roundZ (x : Q) : Z :=
  if Qle_bool 0 x then Qfloor (x + (1 # 2)) else - Qfloor (- x + (1 # 2)).

#[export] Instance exactQ : Float64Ops Q := {
  ofZ := inject_Z;
  fadd := Qplus; fsub := Qminus; fmul := Qmult; fdiv := Qdiv;
  fneg := Qopp; fabs := Qabs;
  fmax := fun x y => if Qle_bool x y then y else x;
  feqb := Qeq_bool; fltb := Qltb; fleb := Qle_bool;
  roundZ := Q_roundZ
}.

(* ===================================================================== *)
(** ** Data model *)
(* ===================================================================== *)

Record Kline (F : Type) := mkKline {
  OpenTime : Z; Open : F; High : F; Low : F; Close : F; Volume : F;
  CloseTime : Z
}.
Arguments mkKline {F}.
Arguments OpenTime {F}.
Arguments Open {F}.
Arguments High {F}.
Arguments Low {F}.
Arguments Close {F}.
Arguments Volume {F}.
Arguments CloseTime {F}.

(** A candle of which only the close matters. *)
Definition closeOnly {F} `{Float64Ops F} (c : F) : Kline F :=
  mkKline 0 c c c c (ofZ 0) 0.

(* ===================================================================== *)
(** ** Indicator engine *)
(* ===================================================================== *)

Section Indicators.
Context {F : Type} `{Float64Ops F}.
#[local] Open Scope f64_scope.

(** The [period] parameters are Go [int]s.  A negative period makes the
    loops below index out of range; every call site passes a positive
    constant, and the parameter is a [nat] here. *)

Definition calculateEMA (klines : list (Kline F)) (period : nat) : F :=
  if (length klines <? period)%nat then ofZ 0
  else
    let sum := fold_left (fun sum k => sum + Close k)
                         (firstn period klines) (ofZ 0) in
    let ema := sum / ofZ (Z.of_nat period) in
    let multiplier := ofZ 2 / ofZ (Z.of_nat period + 1) in
    fold_left (fun ema k => (Close k - ema) * multiplier + ema)
              (skipn period klines) ema.

Definition calculateMACD (klines : list (Kline F)) : F :=
  if (length klines <? 26)%nat then ofZ 0
  else
    let ema12 := calculateEMA klines 12 in
    let ema26 := calculateEMA klines 26 in
    ema12 - ema26.

(** [klines[i].Close - klines[i-1].Close] for [i = 1 .. len-1]. *)
Fixpoint closeChanges (klines : list (Kline F)) : list F :=
  match klines with
  | prev :: (cur :: _) as rest => (Close cur - Close prev) :: closeChanges rest
  | _ => []
  end.

(** First loop of [calculateRSI]: the gains and losses of the first
    [period] changes. *)
Definition rsiSeed (changes : list F) : F * F :=
  fold_left (fun '(gains, losses) change =>
               if change >? ofZ 0 then (gains + change, losses)
               else (gains, losses + (- change)))
            changes (ofZ 0, ofZ 0).

(** Second loop: Wilder smoothing over the remaining changes. *)
Definition rsiSmooth (period : nat) (changes : list F) (avg : F * F) : F * F :=
  let p := ofZ (Z.of_nat period) in
  let p1 := ofZ (Z.of_nat period - 1) in
  fold_left (fun '(avgGain, avgLoss) change =>
               if change >? ofZ 0
               then ((avgGain * p1 + change) / p, (avgLoss * p1) / p)
               else ((avgGain * p1) / p, (avgLoss * p1 + (- change)) / p))
            changes avg.

(** The pair [(avgGain, avgLoss)] at the end of the second loop. *)
Definition rsiAverages (klines : list (Kline F)) (period : nat) : F * F :=
  let changes := closeChanges klines in
  let '(gains, losses) := rsiSeed (firstn period changes) in
  let p := ofZ (Z.of_nat period) in
  rsiSmooth period (skipn period changes) (gains / p, losses / p).

Definition calculateRSI (klines : list (Kline F)) (period : nat) : F :=
  if (length klines <=? period)%nat then ofZ 0
  else
    let '(avgGain, avgLoss) := rsiAverages klines period in
    if avgLoss =? ofZ 0 then ofZ 100
    else
      let rs := avgGain / avgLoss in
      ofZ 100 - (ofZ 100 / (ofZ 1 + rs)).

(** [trs[i]] for [i = 1 .. len-1]. *)
Fixpoint trueRanges (klines : list (Kline F)) : list F :=
  match klines with
  | prev :: (cur :: _) as rest =>
      let tr1 := High cur - Low cur in
      let tr2 := fabs (High cur - Close prev) in
      let tr3 := fabs (Low cur - Close prev) in
      fmax tr1 (fmax tr2 tr3) :: trueRanges rest
  | _ => []
  end.

Definition calculateATR (klines : list (Kline F)) (period : nat) : F :=
  if (length klines <=? period)%nat then ofZ 0
  else
    let trs := trueRanges klines in
    let sum := fold_left (fun sum tr => sum + tr) (firstn period trs) (ofZ 0) in
    let atr := sum / ofZ (Z.of_nat period) in
    let p := ofZ (Z.of_nat period) in
    let p1 := ofZ (Z.of_nat period - 1) in
    fold_left (fun atr tr => (atr * p1 + tr) / p) (skipn period trs) atr.

End Indicators.

(** The ten 4-hour closes of the specification's end-to-end example. *)
Definition exampleCloses : list Z := [100; 102; 101; 99; 98; 97; 99; 103; 105; 104].

Definition exampleKlines {F} `{Float64Ops F} : list (Kline F) :=
  map (fun c => closeOnly (ofZ c)) exampleCloses.

(* ===================================================================== *)
(** ** Support / resistance: data *)
(* ===================================================================== *)

Record SupportResistanceLevel (F : Type) := mkLevel {
  Price : F;
  Strength : Z;
  Distance : F;
  Score : F;
  IsSupport : bool
}.
Arguments mkLevel {F}.
Arguments Price {F}.
Arguments Strength {F}.
Arguments Distance {F}.
Arguments Score {F}.
Arguments IsSupport {F}.

Record levelPoint (F : Type) := mkPoint { PointPrice : F; PointIndex : nat }.
Arguments mkPoint {F}.
Arguments PointPrice {F}.
Arguments PointIndex {F}.

Record levelStats (F : Type) := mkStats { touches : Z; weight : F }.
Arguments mkStats {F}.
Arguments touches {F}.
Arguments weight {F}.

Record weightedLevelSet (F : Type) := mkSet {
  levels : list (SupportResistanceLevel F);
  setWeight : F
}.
Arguments mkSet {F}.
Arguments levels {F}.
Arguments setWeight {F}.

Record SupportResistanceTimeframe (F : Type) := mkTimeframe {
  Supports : list (SupportResistanceLevel F);
  Resistances : list (SupportResistanceLevel F)
}.
Arguments mkTimeframe {F}.
Arguments Supports {F}.
Arguments Resistances {F}.

Record SupportResistanceConfluence (F : Type) := mkConfluence {
  ConfluenceSupports : list (SupportResistanceLevel F);
  ConfluenceResistances : list (SupportResistanceLevel F)
}.
Arguments mkConfluence {F}.
Arguments ConfluenceSupports {F}.
Arguments ConfluenceResistances {F}.

Record SupportResistanceSummary (F : Type) := mkSummary {
  Timeframes : gmap string (SupportResistanceTimeframe F);
  Confluence : option (SupportResistanceConfluence F)
}.
Arguments mkSummary {F}.
Arguments Timeframes {F}.
Arguments Confluence {F}.

Definition supportResistanceLookback : nat := 120.

(* ===================================================================== *)
(** ** Sorting *)
(* ===================================================================== *)

Section Sorting.
Context {A : Type} (less : A -> A -> bool).

(** One pass of Go's insertion sort: the new element [x] moves left
    while [less x (its left neighbour)].  The sorted prefix is kept
    reversed, nearest neighbour first. *)
Fixpoint sinkLeft (x : A) (revPrefix : list A) : list A :=
  match revPrefix with
  | y :: rest => if less x y then y :: sinkLeft x rest else x :: y :: rest
  | [] => [x]
  end.

(** [insertionSort]: the algorithm [sort.Slice] runs on short slices (at
    most 12 elements since Go 1.19), and a stable sort, hence the result of
    [sort.SliceStable] whenever [less] is a strict weak order.  On longer
    slices [sort.Slice] may order elements which compare equal differently;
    [mergeNearbyLevels], its only user, then folds them into one level. *)
Definition insertionSort (l : list A) : list A :=
  rev (fold_left (fun revPrefix x => sinkLeft x revPrefix) l []).
End Sorting.

(* ===================================================================== *)
(** ** Extremum and level detector, merger and ranker *)
(* ===================================================================== *)

Section Levels.
Context {F : Type} `{Float64Ops F}.
#[local] Open Scope f64_scope.

Definition setDistance (l : SupportResistanceLevel F) (d : F) : SupportResistanceLevel F :=
  mkLevel (Price l) (Strength l) d (Score l) (IsSupport l).

(** Inner loop of [findLocalMinima]: no candle [j] of the window
    [i-3 .. i+3], [j <> i], has a strictly lower low. *)
Definition isLocalMin (klines : list (Kline F)) (i : nat) (currentLow : F) : bool :=
  forallb (fun j => if (j =? i)%nat then true
                    else match klines !! j with
                         | Some k => negb (Low k <? currentLow)
                         | None => true
                         end)
          (seq (i - 3) 7).

Definition findLocalMinima (klines : list (Kline F)) : list (levelPoint F) :=
  if (length klines <? 3)%nat then []
  else
    fold_left
      (fun minima i =>
         match klines !! i with
         | None => minima
         | Some k =>
             let currentLow := Low k in
             if isLocalMin klines i currentLow then
               if existsb (fun existing =>
                             fabs (PointPrice existing - currentLow) / currentLow
                             <? lit 1 1000) minima
               then minima
               else minima ++ [mkPoint currentLow i]
             else minima
         end)
      (seq 3 (length klines - 3 - 3)) [].

Definition isLocalMax (klines : list (Kline F)) (i : nat) (currentHigh : F) : bool :=
  forallb (fun j => if (j =? i)%nat then true
                    else match klines !! j with
                         | Some k => negb (High k >? currentHigh)
                         | None => true
                         end)
          (seq (i - 3) 7).

Definition findLocalMaxima (klines : list (Kline F)) : list (levelPoint F) :=
  if (length klines <? 3)%nat then []
  else
    fold_left
      (fun maxima i =>
         match klines !! i with
         | None => maxima
         | Some k =>
             let currentHigh := High k in
             if isLocalMax klines i currentHigh then
               if existsb (fun existing =>
                             fabs (PointPrice existing - currentHigh) / currentHigh
                             <? lit 1 1000) maxima
               then maxima
               else maxima ++ [mkPoint currentHigh i]
             else maxima
         end)
      (seq 3 (length klines - 3 - 3)) [].

Definition calcRecencyWeight (total index : Z) : F :=
  if (total <=? 1)%Z then ofZ 1
  else
    let index := if (index <? 0)%Z then 0%Z else index in
    let index := if (index >=? total)%Z then (total - 1)%Z else index in
    let normalized := ofZ index / ofZ (total - 1) in
    lit 1 2 + lit 1 2 * normalized.

(** [sort.SliceStable] comparators of [sortAndFilterLevels]. *)
Definition rankLess (isSupport : bool) (a b : SupportResistanceLevel F) : bool :=
  if Score a =? Score b then
    if (Strength a =? Strength b)%Z then
      if Distance a =? Distance b then
        if isSupport then Price a >? Price b else Price a <? Price b
      else Distance a <? Distance b
    else (Strength a >? Strength b)%Z
  else Score a >? Score b.

Definition displayLess (isSupport : bool) (a b : SupportResistanceLevel F) : bool :=
  if Distance a =? Distance b then
    if isSupport then Price a >? Price b else Price a <? Price b
  else Distance a <? Distance b.

Definition sortAndFilterLevels (levels : list (SupportResistanceLevel F))
           (isSupport : bool) : list (SupportResistanceLevel F) :=
  if (length levels =? 0)%nat then []
  else
    let levels := insertionSort (rankLess isSupport) levels in
    let levels := if (5 <? length levels)%nat then firstn 5 levels else levels in
    insertionSort (displayLess isSupport) levels.

(** The slice of [sortAndFilterLevels] after the truncation [levels[:5]]
    and before the second sort. *)
Definition topRanked (levels : list (SupportResistanceLevel F)) (isSupport : bool)
  : list (SupportResistanceLevel F) :=
  firstn 5 (insertionSort (rankLess isSupport) levels).

(** Loop body of [mergeNearbyLevels]; the state is [(merged, current)]. *)
Definition mergeStep (tolerance : F)
           (st : list (SupportResistanceLevel F) * SupportResistanceLevel F)
           (next : SupportResistanceLevel F)
  : list (SupportResistanceLevel F) * SupportResistanceLevel F :=
  let '(merged, current) := st in
  let denom := (Price current + Price next) / ofZ 2 in
  let denom := if denom =? ofZ 0 then ofZ 1 else denom in
  if fabs (Price next - Price current) / denom <=? tolerance then
    let totalScore := Score current + Score next in
    let totalScore :=
      if totalScore <=? ofZ 0 then
        let totalScore := ofZ (Strength current + Strength next) in
        if totalScore =? ofZ 0 then ofZ 1 else totalScore
      else totalScore in
    (merged,
     mkLevel ((Price current * Score current + Price next * Score next) / totalScore)
             (Strength current + Strength next)
             (Distance current)
             (Score current + Score next)
             (IsSupport current))
  else (merged ++ [current], setDistance next (ofZ 0)).

Definition mergeNearbyLevels (levels : list (SupportResistanceLevel F))
           (tolerance : F) : list (SupportResistanceLevel F) :=
  match insertionSort (fun a b => Price a <? Price b) levels with
  | [] => []
  | first :: rest =>
      let '(merged, current) :=
        fold_left (mergeStep tolerance) rest ([], setDistance first (ofZ 0)) in
      merged ++ [current]
  end.

(** Loop body of [updateLevelDistances]. *)
Definition distanceTo (currentPrice : F) (isSupport : bool)
           (l : SupportResistanceLevel F) : SupportResistanceLevel F :=
  if isSupport
  then setDistance l (fabs ((currentPrice - Price l) / currentPrice * ofZ 100))
  else setDistance l (fabs ((Price l - currentPrice) / currentPrice * ofZ 100)).

(** [updateLevelDistances] writes the distances in place; here it returns
    the updated slice. *)
Definition updateLevelDistances (levels : list (SupportResistanceLevel F))
           (currentPrice : F) (isSupport : bool) : list (SupportResistanceLevel F) :=
  if currentPrice <=? ofZ 0 then levels
  else map (distanceTo currentPrice isSupport) levels.

(** The candles of a window with their indices ([for idx, candle := range]). *)
Definition indexed {A} (l : list A) : list (nat * A) := combine (seq 0 (length l)) l.

(** The [supportStats] / [resistanceStats] tables: extremum index to
    statistics.  [*levelStats] entries are updated through the pointer;
    here the entry is re-inserted. *)
Definition initStats (total : nat) (points : list (levelPoint F))
  : gmap nat (levelStats F) :=
  fold_left (fun stats point =>
               <[PointIndex point :=
                   mkStats 1 (calcRecencyWeight (Z.of_nat total) (Z.of_nat (PointIndex point)))]>
               stats)
            points ∅.

Definition touch (total idx : nat) (point : levelPoint F)
           (stats : gmap nat (levelStats F)) (st : levelStats F) : gmap nat (levelStats F) :=
  <[PointIndex point :=
      mkStats (touches st + 1)
              (weight st + calcRecencyWeight (Z.of_nat total) (Z.of_nat idx))]> stats.

(** Touch re-scan of one candle against the minima. *)
Definition scanSupports (total : nat) (tolerance : F) (localMins : list (levelPoint F))
           (stats : gmap nat (levelStats F)) (ic : nat * Kline F) : gmap nat (levelStats F) :=
  let '(idx, candle) := ic in
  fold_left
    (fun stats point =>
       if (idx =? PointIndex point)%nat then stats
       else match stats !! PointIndex point with
            | None => stats
            | Some st =>
                if PointPrice point <=? ofZ 0 then stats
                else if (Low candle <=? PointPrice point * (ofZ 1 + tolerance))
                        && (Low candle >=? PointPrice point * (ofZ 1 - tolerance))
                     then touch total idx point stats st
                     else stats
            end)
    localMins stats.

Definition scanResistances (total : nat) (tolerance : F) (localMaxs : list (levelPoint F))
           (stats : gmap nat (levelStats F)) (ic : nat * Kline F) : gmap nat (levelStats F) :=
  let '(idx, candle) := ic in
  fold_left
    (fun stats point =>
       if (idx =? PointIndex point)%nat then stats
       else match stats !! PointIndex point with
            | None => stats
            | Some st =>
                if PointPrice point <=? ofZ 0 then stats
                else if (High candle >=? PointPrice point * (ofZ 1 - tolerance))
                        && (High candle <=? PointPrice point * (ofZ 1 + tolerance))
                     then touch total idx point stats st
                     else stats
            end)
    localMaxs stats.

(** The two loops which turn extrema into levels on the right side of
    the current price. *)
Definition supportCandidates (currentPrice : F) (stats : gmap nat (levelStats F))
           (localMins : list (levelPoint F)) : list (SupportResistanceLevel F) :=
  fold_left
    (fun supports point =>
       match stats !! PointIndex point with
       | None => supports
       | Some st =>
           if PointPrice point <? currentPrice
           then supports ++ [mkLevel (PointPrice point) (touches st) (ofZ 0) (weight st) true]
           else supports
       end)
    localMins [].

Definition resistanceCandidates (currentPrice : F) (stats : gmap nat (levelStats F))
           (localMaxs : list (levelPoint F)) : list (SupportResistanceLevel F) :=
  fold_left
    (fun resistances point =>
       match stats !! PointIndex point with
       | None => resistances
       | Some st =>
           if PointPrice point >? currentPrice
           then resistances ++ [mkLevel (PointPrice point) (touches st) (ofZ 0) (weight st) false]
           else resistances
       end)
    localMaxs [].

(** [klines[start:]] for [start = max (len - lookback) 0].  [lookback] is
    a Go [int]; the only call passes 120. *)
Definition recentWindow (klines : list (Kline F)) (lookback : nat) : list (Kline F) :=
  skipn (length klines - lookback) klines.

Definition calculateSupportResistanceLevels (klines : list (Kline F)) (lookback : nat)
  : list (SupportResistanceLevel F) * list (SupportResistanceLevel F) :=
  if (length klines =? 0)%nat then ([], [])
  else
    let recent := recentWindow klines lookback in
    match last recent with
    | None => ([], [])
    | Some lastCandle =>
        let currentPrice := Close lastCandle in
        let localMins := findLocalMinima recent in
        let localMaxs := findLocalMaxima recent in
        let total := length recent in
        let supportStats := initStats total localMins in
        let resistanceStats := initStats total localMaxs in
        let tolerance := lit 2 1000 in
        let '(supportStats, resistanceStats) :=
          fold_left (fun '(ss, rs) ic =>
                       (scanSupports total tolerance localMins ss ic,
                        scanResistances total tolerance localMaxs rs ic))
                    (indexed recent) (supportStats, resistanceStats) in
        let supports := supportCandidates currentPrice supportStats localMins in
        let resistances := resistanceCandidates currentPrice resistanceStats localMaxs in
        let supports := mergeNearbyLevels supports (lit 2 1000) in
        let resistances := mergeNearbyLevels resistances (lit 2 1000) in
        let supports := updateLevelDistances supports currentPrice true in
        let resistances := updateLevelDistances resistances currentPrice false in
        let supports := sortAndFilterLevels supports true in
        let resistances := sortAndFilterLevels resistances false in
        (supports, resistances)
    end.

End Levels.

(* ===================================================================== *)
(** ** Confluence aggregator *)
(* ===================================================================== *)

Section Confluence.
Context {F : Type} `{Float64Ops F}.
#[local] Open Scope f64_scope.

Definition confluenceTolerance : F := lit 2 1000.

(** The test of the innermost loop of [findConfluenceLevels]: a zero
    denominator is skipped ([continue]). *)
Definition withinTolerance (level other : SupportResistanceLevel F) (tolerance : F) : bool :=
  let denom := (Price level + Price other) / ofZ 2 in
  if denom =? ofZ 0 then false
  else fabs (Price level - Price other) / denom <=? tolerance.

(** The two nested loops over [sets] and [set.levels]: both stop at the
    first hit. *)
Fixpoint firstMatch (level : SupportResistanceLevel F) (sets : list (weightedLevelSet F))
         (tolerance : F) : option (SupportResistanceLevel F * F) :=
  match sets with
  | [] => None
  | set :: rest =>
      match List.find (fun other => withinTolerance level other tolerance) (levels set) with
      | Some other => Some (other, setWeight set)
      | None => firstMatch level rest tolerance
      end
  end.

Definition baseWeight : F := lit 1 2.

(** [combined] before the search: the base level discounted. *)
Definition discounted (level : SupportResistanceLevel F) : SupportResistanceLevel F :=
  mkLevel (Price level)
          (roundZ (ofZ (Strength level) * baseWeight))
          (Distance level)
          (Score level * baseWeight)
          (IsSupport level).

(** [combined] after a hit on [other] in a set of weight [w]. *)
Definition reinforced (combined other : SupportResistanceLevel F) (w : F)
  : SupportResistanceLevel F :=
  mkLevel (Price combined)
          (Strength combined + roundZ (ofZ (Strength other) * w))
          (Distance combined)
          (Score combined + Score other * w)
          (IsSupport combined).

Definition combineLevel (level : SupportResistanceLevel F) (sets : list (weightedLevelSet F))
           (tolerance : F) : option (SupportResistanceLevel F) :=
  match firstMatch level sets tolerance with
  | Some (other, w) => Some (reinforced (discounted level) other w)
  | None => None
  end.

(** [result] at the end of the loop over [base]. *)
Definition confluenceCandidates (base : list (SupportResistanceLevel F))
           (sets : list (weightedLevelSet F)) (tolerance : F)
  : list (SupportResistanceLevel F) :=
  fold_left (fun result level =>
               match combineLevel level sets tolerance with
               | Some combined => result ++ [combined]
               | None => result
               end)
            base [].

Definition findConfluenceLevels (base : list (SupportResistanceLevel F))
           (sets : list (weightedLevelSet F)) (tolerance currentPrice : F)
           (isSupport : bool) : list (SupportResistanceLevel F) :=
  if ((length base =? 0)%nat || (length sets =? 0)%nat)%bool then []
  else
    let result := confluenceCandidates base sets tolerance in
    if (length result =? 0)%nat then result
    else
      let result := updateLevelDistances result currentPrice isSupport in
      sortAndFilterLevels result isSupport.

(** Loop body over [tfInputs]. *)
Definition addTimeframe (timeframes : gmap string (SupportResistanceTimeframe F))
           (tf : string * list (Kline F)) : gmap string (SupportResistanceTimeframe F) :=
  let '(name, klines) := tf in
  if (length klines =? 0)%nat then timeframes
  else
    let '(supports, resistances) :=
      calculateSupportResistanceLevels klines supportResistanceLookback in
    if ((length supports =? 0)%nat && (length resistances =? 0)%nat)%bool then timeframes
    else
      match last klines with
      | None => timeframes
      | Some lastCandle =>
          let tfPrice := Close lastCandle in
          let supports := updateLevelDistances supports tfPrice true in
          let resistances := updateLevelDistances resistances tfPrice false in
          <[name := mkTimeframe supports resistances]> timeframes
      end.

(** First name of [baseOrder] present in the table. *)
Fixpoint chooseBase (timeframes : gmap string (SupportResistanceTimeframe F))
         (baseOrder : list string) : option (string * SupportResistanceTimeframe F) :=
  match baseOrder with
  | [] => None
  | name :: rest =>
      match timeframes !! name with
      | Some tf => Some (name, tf)
      | None => chooseBase timeframes rest
      end
  end.

Definition weighting : list (string * F) :=
  [("3m"%string, lit 8 10); ("15m"%string, ofZ 1); ("1h"%string, lit 12 10);
   ("4h"%string, lit 14 10); ("12h"%string, lit 16 10); ("1d"%string, lit 18 10)].

(** Loop over [weighting]: the level sets of every timeframe but the
    base, in the order of the table. *)
Definition collectSets (timeframes : gmap string (SupportResistanceTimeframe F))
           (baseName : string)
  : list (weightedLevelSet F) * list (weightedLevelSet F) :=
  fold_left (fun '(supportSets, resistanceSets) '(name, w) =>
               if String.eqb name baseName then (supportSets, resistanceSets)
               else match timeframes !! name with
                    | Some tf => (supportSets ++ [mkSet (Supports tf) w],
                                  resistanceSets ++ [mkSet (Resistances tf) w])
                    | None => (supportSets, resistanceSets)
                    end)
            weighting ([], []).

Definition calculateSupportResistanceSummary
           (klines3m klines15m klines1h klines4h klines12h klines1d : list (Kline F))
           (currentPrice : F) : SupportResistanceSummary F :=
  let tfInputs :=
    [("3m"%string, klines3m); ("15m"%string, klines15m); ("1h"%string, klines1h);
     ("4h"%string, klines4h); ("12h"%string, klines12h); ("1d"%string, klines1d)] in
  let timeframes := fold_left addTimeframe tfInputs ∅ in
  let baseOrder := ["3m"%string; "15m"%string; "1h"%string; "4h"%string] in
  match chooseBase timeframes baseOrder with
  | None => mkSummary timeframes None
  | Some (baseName, base) =>
      let '(supportSets, resistanceSets) := collectSets timeframes baseName in
      if (0 <? length supportSets)%nat then
        mkSummary timeframes
          (Some (mkConfluence
                   (findConfluenceLevels (Supports base) supportSets
                                         confluenceTolerance currentPrice true)
                   (findConfluenceLevels (Resistances base) resistanceSets
                                         confluenceTolerance currentPrice false)))
      else mkSummary timeframes None
  end.

(** No level of any set of [sets] is within tolerance of [level]. *)
Definition noneWithin (level : SupportResistanceLevel F)
           (sets : list (weightedLevelSet F)) (tolerance : F) : Prop :=
  Forall (fun set => Forall (fun o => withinTolerance level o tolerance = false)
                            (levels set)) sets.

(** [collectSets] as a filter of the [weighting] table: every timeframe
    with data other than the base, in the order of the table. *)
Definition setsFor (pick : SupportResistanceTimeframe F -> list (SupportResistanceLevel F))
           (timeframes : gmap string (SupportResistanceTimeframe F)) (baseName : string)
           (table : list (string * F)) : list (weightedLevelSet F) :=
  omap (fun '(name, w) =>
          if String.eqb name baseName then None
          else (fun tf => mkSet (pick tf) w) <$> timeframes !! name) table.

End Confluence.

(* ===================================================================== *)
(** ** Symbols and the default-coin gate *)
(* ===================================================================== *)

(** [strings.ToUpper] on the ASCII letters (exchange symbols are ASCII). *)
Definition upperAscii (c : ascii) : ascii :=
  let n := nat_of_ascii c in
  if ((97 <=? n)%nat && (n <=? 122)%nat)%bool then ascii_of_nat (n - 32) else c.

Fixpoint ToUpper (s : string) : string :=
  match s with
  | EmptyString => EmptyString
  | String c rest => String (upperAscii c) (ToUpper rest)
  end.

Definition HasSuffix (s suffix : string) : bool :=
  let n := String.length s in
  let m := String.length suffix in
  if (n <? m)%nat then false
  else String.eqb (substring (n - m) m s) suffix.

Definition Normalize (symbol : string) : string :=
  let symbol := ToUpper symbol in
  if HasSuffix symbol "USDT" then symbol else String.append symbol "USDT".

(** [defaultCoins] is a [map[string]bool]. *)
Definition SetDefaultCoins (coins : list string) : gmap string bool :=
  fold_left (fun defaultCoins coin => <[Normalize coin := true]> defaultCoins) coins ∅.

Definition isInDefaultCoins (defaultCoins : gmap string bool) (symbol : string) : bool :=
  if (size defaultCoins =? 0)%nat then true
  else
    let normalizedSymbol := Normalize symbol in
    default false (defaultCoins !! normalizedSymbol).

(* ===================================================================== *)
(** ** Open-interest cache *)
(* ===================================================================== *)

Record OIData (F : Type) := mkOI { Latest : F; Average : F }.
Arguments mkOI {F}.
Arguments Latest {F}.
Arguments Average {F}.

(** The package-level cache: the table and the instant of its last
    refresh, in nanoseconds of the monotonic clock. *)
Record OICache (F : Type) := mkCache {
  hyperliquidOICache : gmap string F;
  hyperliquidOICacheTime : Z
}.
Arguments mkCache {F}.
Arguments hyperliquidOICache {F}.
Arguments hyperliquidOICacheTime {F}.

Definition hyperliquidOICacheTTL : Z := 30 * 1000000000.

(** Outcome of the bulk [metaAndAssetCtxs] request once decoded: an error
    of the request or of the decoding, or the table [newCache]. *)
Inductive BulkResponse (F : Type) :=
| BulkError (msg : string)
| BulkTable (newCache : gmap string F).
Arguments BulkError {F}.
Arguments BulkTable {F}.

Section OpenInterest.
Context {F : Type} `{Float64Ops F}.
#[local] Open Scope f64_scope.

Definition oiOf (oi : F) : OIData F := mkOI oi (oi * lit 999 1000).

(** The freshness-and-presence test, made once under the read lock and
    once more under the write lock; [now] is the clock at the test. *)
Definition cachedOI (cache : OICache F) (now : Z) (symbol : string) : option (OIData F) :=
  if (now - hyperliquidOICacheTime cache <? hyperliquidOICacheTTL)%Z then
    match hyperliquidOICache cache !! symbol with
    | Some oi => Some (oiOf oi)
    | None => None
    end
  else None.

(** The section under the exclusive lock.  [now] is the clock at the
    re-check, [stored] the value of [time.Now()] when the new table is
    installed.  Returns the cache, the number of bulk requests sent and
    the result. *)
Definition refreshOI (cache : OICache F) (now : Z) (symbol : string)
           (response : BulkResponse F) (stored : Z)
  : OICache F * nat * (string + OIData F) :=
  match cachedOI cache now symbol with
  | Some d => (cache, 0%nat, inr d)
  | None =>
      match response with
      | BulkError msg => (cache, 1%nat, inl msg)
      | BulkTable newCache =>
          let cache := mkCache newCache stored in
          match hyperliquidOICache cache !! symbol with
          | Some oi => (cache, 1%nat, inr (oiOf oi))
          | None => (cache, 1%nat, inr (mkOI (ofZ 0) (ofZ 0)))
          end
      end
  end.

(** Clock readings and upstream answer of one lookup. *)
Record LookupEnv := mkLookupEnv {
  readClock : Z;
  writeClock : Z;
  storeClock : Z;
  bulkResponse : BulkResponse F
}.

Definition getHyperliquidOpenInterestData (cache : OICache F) (env : LookupEnv)
           (symbol : string) : OICache F * nat * (string + OIData F) :=
  match cachedOI cache (readClock env) symbol with
  | Some d => (cache, 0%nat, inr d)
  | None => refreshOI cache (writeClock env) symbol (bulkResponse env) (storeClock env)
  end.

(** Lookups one after the other; counts the bulk requests. *)
Definition lookups (cache : OICache F) (requests : list (LookupEnv * string))
  : OICache F * nat :=
  fold_left (fun '(cache, sent) '(env, symbol) =>
               let '(cache, n, _) := getHyperliquidOpenInterestData cache env symbol in
               (cache, (sent + n)%nat))
            requests (cache, 0%nat).

(** Concurrent callers.  The read/write mutex makes every locked section
    atomic, so a concurrent execution is a sequence of sections: a caller
    first runs its read-locked check and, on a miss, later runs the
    write-locked section. *)
Inductive Phase := Start | NeedsRefresh | Finished (result : string + OIData F).

Record Caller := mkCaller { callerSymbol : string; callerPhase : Phase }.

(** The scheduler picks a caller, with the clock readings and the
    upstream answer of the section it runs. *)
Record Turn := mkTurn { turnCaller : nat; turnEnv : LookupEnv }.

Record Shared := mkShared {
  sharedCache : OICache F;
  bulkRequests : nat;
  callers : list Caller
}.

Definition stepCaller (s : Shared) (t : Turn) : Shared :=
  match callers s !! turnCaller t with
  | None => s
  | Some c =>
      match callerPhase c with
      | Start =>
          let phase :=
            match cachedOI (sharedCache s) (readClock (turnEnv t)) (callerSymbol c) with
            | Some d => Finished (inr d)
            | None => NeedsRefresh
            end in
          mkShared (sharedCache s) (bulkRequests s)
                   (<[turnCaller t := mkCaller (callerSymbol c) phase]> (callers s))
      | NeedsRefresh =>
          let '(cache, n, r) :=
            refreshOI (sharedCache s) (writeClock (turnEnv t)) (callerSymbol c)
                      (bulkResponse (turnEnv t)) (storeClock (turnEnv t)) in
          mkShared cache (bulkRequests s + n)%nat
                   (<[turnCaller t := mkCaller (callerSymbol c) (Finished r)]> (callers s))
      | Finished _ => s
      end
  end.

Definition runCallers (s : Shared) (schedule : list Turn) : Shared :=
  fold_left stepCaller schedule s.

Definition isFinished (c : Caller) : bool :=
  match callerPhase c with Finished _ => true | _ => false end.

(** Conditions on a run of concurrent callers, in the words of the
    specification.  Every clock reading of the schedule lies in a window
    shorter than the TTL which starts after the cached table has expired,
    and the upstream answers every request with the table [table]. *)
Definition turnWithin (lo : Z) (table : gmap string F) (t : Turn) : Prop :=
  (lo <= readClock (turnEnv t) < lo + hyperliquidOICacheTTL)%Z
  /\ (lo <= writeClock (turnEnv t) < lo + hyperliquidOICacheTTL)%Z
  /\ (lo <= storeClock (turnEnv t) < lo + hyperliquidOICacheTTL)%Z
  /\ bulkResponse (turnEnv t) = BulkTable table.

(** Before any caller has refreshed: the stale cache, no request sent, no
    caller finished. *)
Definition beforeRefresh (cache : OICache F) (s : Shared) : Prop :=
  sharedCache s = cache
  /\ bulkRequests s = 0%nat
  /\ Forall (fun c => isFinished c = false) (callers s).

(** After the refresh: the new table, installed inside the window, and
    one request sent. *)
Definition afterRefresh (lo : Z) (table : gmap string F) (s : Shared) : Prop :=
  hyperliquidOICache (sharedCache s) = table
  /\ (lo <= hyperliquidOICacheTime (sharedCache s) < lo + hyperliquidOICacheTTL)%Z
  /\ bulkRequests s = 1%nat.

End OpenInterest.

Arguments LookupEnv F : clear implicits.
Arguments Phase F : clear implicits.
Arguments Caller F : clear implicits.
Arguments Turn F : clear implicits.
Arguments Shared F : clear implicits.

(* ===================================================================== *)
(** ** Time-series composer and snapshot assembler *)
(* ===================================================================== *)

Record IntradayData (F : Type) := mkIntraday {
  MidPrices : list F;
  EMA20Values : list F;
  MACDValues : list F;
  RSI7Values : list F;
  RSI14Values : list F
}.
Arguments mkIntraday {F}.
Arguments MidPrices {F}.
Arguments EMA20Values {F}.
Arguments MACDValues {F}.
Arguments RSI7Values {F}.
Arguments RSI14Values {F}.

Record LongerTermData (F : Type) := mkLongerTerm {
  EMA20 : F;
  EMA50 : F;
  ATR3 : F;
  ATR14 : F;
  CurrentVolume : F;
  AverageVolume : F;
  LongMACDValues : list F;
  LongRSI14Values : list F
}.
Arguments mkLongerTerm {F}.
Arguments EMA20 {F}.
Arguments EMA50 {F}.
Arguments ATR3 {F}.
Arguments ATR14 {F}.
Arguments CurrentVolume {F}.
Arguments AverageVolume {F}.
Arguments LongMACDValues {F}.
Arguments LongRSI14Values {F}.

Record OITopData (F : Type) := mkOITop {
  Rank : Z;
  OIDeltaPercent : F;
  OIDeltaValue : F;
  PriceDeltaPercent : F;
  NetLong : F;
  NetShort : F
}.

Record Data (F : Type) := mkData {
  Symbol : string;
  CurrentPrice : F;
  PriceChange1h : F;
  PriceChange4h : F;
  CurrentEMA20 : F;
  CurrentMACD : F;
  CurrentRSI7 : F;
  OpenInterest : option (OIData F);
  FundingRate : F;
  IntradaySeries : option (IntradayData F);
  LongerTermContext : option (LongerTermData F);
  OITop : option (OITopData F);
  SupportResistance : option (SupportResistanceSummary F)
}.
Arguments mkData {F}.
Arguments Symbol {F}.
Arguments CurrentPrice {F}.
Arguments PriceChange1h {F}.
Arguments PriceChange4h {F}.
Arguments CurrentEMA20 {F}.
Arguments CurrentMACD {F}.
Arguments CurrentRSI7 {F}.
Arguments OpenInterest {F}.
Arguments FundingRate {F}.
Arguments IntradaySeries {F}.
Arguments LongerTermContext {F}.
Arguments OITop {F}.
Arguments SupportResistance {F}.

(** Requests [Get] sends upstream. *)
Inductive Call :=
| CallKlines (symbol interval : string) (limit : Z)
| CallOpenInterest (symbol : string)
| CallHyperliquidInfo
| CallPremiumIndex (symbol : string).

Definition isOpenInterestCall (c : Call) : bool :=
  match c with
  | CallOpenInterest _ | CallHyperliquidInfo => true
  | _ => false
  end.

(** The error [Get] returns: which timeframe's candle fetch failed, and
    the cause ([fmt.Errorf] with the timeframe in the message). *)
Inductive GetError := KlinesFailed (timeframe : string) (cause : string).

(** What ends a call of [Get] early: a returned error, or the run-time
    panic of indexing an empty slice. *)
Inductive Abort := Returned (e : GetError) | Panicked.

(** Answers of the upstream collaborators: the results of [getKlines],
    [getOpenInterestData] and [getFundingRate] (an error or a value), and
    the clock readings and bulk answer of the Hyperliquid lookup. *)
Record Upstream (F : Type) := mkUpstream {
  klinesAnswer : string -> string -> Z -> string + list (Kline F);
  openInterestAnswer : string -> string + OIData F;
  fundingAnswer : string -> string + F;
  hyperliquidEnv : LookupEnv F
}.
Arguments mkUpstream {F}.
Arguments klinesAnswer {F}.
Arguments openInterestAnswer {F}.
Arguments fundingAnswer {F}.
Arguments hyperliquidEnv {F}.

(** State threaded through [Get]: the requests sent so far and the shared
    open-interest cache. *)
Record World (F : Type) := mkWorld {
  sent : list Call;
  oiCache : OICache F
}.
Arguments mkWorld {F}.
Arguments sent {F}.
Arguments oiCache {F}.

Definition M (F A : Type) : Type := World F -> World F * (Abort + A).

Definition ret {F A} (a : A) : M F A := fun w => (w, inr a).
Definition abort {F A} (e : Abort) : M F A := fun w => (w, inl e).
Definition bind {F A B} (m : M F A) (k : A -> M F B) : M F B :=
  fun w => match m w with
           | (w', inr a) => k a w'
           | (w', inl e) => (w', inl e)
           end.
Definition send {F} (c : Call) : M F unit :=
  fun w => (mkWorld (sent w ++ [c]) (oiCache w), inr tt).

Notation "'let*' x := m 'in' k" := (bind m (fun x => k))
  (at level 10, x name, m at level 100, k at level 200).

Section Snapshot.
Context {F : Type} `{Float64Ops F}.
#[local] Open Scope f64_scope.

(** [klines[:i+1]]. *)
Definition prefixTo (klines : list (Kline F)) (i : nat) : list (Kline F) :=
  firstn (i + 1) klines.

Definition calculateIntradaySeries (klines : list (Kline F)) : IntradayData F :=
  let start := (length klines - 10)%nat in
  fold_left
    (fun data i =>
       match klines !! i with
       | None => data
       | Some k =>
           let mid := MidPrices data ++ [Close k] in
           let ema := if (19 <=? i)%nat
                      then EMA20Values data ++ [calculateEMA (prefixTo klines i) 20]
                      else EMA20Values data in
           let macd := if (25 <=? i)%nat
                       then MACDValues data ++ [calculateMACD (prefixTo klines i)]
                       else MACDValues data in
           let rsi7 := if (7 <=? i)%nat
                       then RSI7Values data ++ [calculateRSI (prefixTo klines i) 7]
                       else RSI7Values data in
           let rsi14 := if (14 <=? i)%nat
                        then RSI14Values data ++ [calculateRSI (prefixTo klines i) 14]
                        else RSI14Values data in
           mkIntraday mid ema macd rsi7 rsi14
       end)
    (seq start (length klines - start)) (mkIntraday [] [] [] [] []).

Definition calculateLongerTermData (klines : list (Kline F)) : LongerTermData F :=
  let ema20 := calculateEMA klines 20 in
  let ema50 := calculateEMA klines 50 in
  let atr3 := calculateATR klines 3 in
  let atr14 := calculateATR klines 14 in
  let '(currentVolume, averageVolume) :=
    match last klines with
    | Some k =>
        let sum := fold_left (fun sum k => sum + Volume k) klines (ofZ 0) in
        (Volume k, sum / ofZ (Z.of_nat (length klines)))
    | None => (ofZ 0, ofZ 0)
    end in
  let start := (length klines - 10)%nat in
  let '(macds, rsis) :=
    fold_left
      (fun '(macds, rsis) i =>
         let macds := if (25 <=? i)%nat
                      then macds ++ [calculateMACD (prefixTo klines i)] else macds in
         let rsis := if (14 <=? i)%nat
                     then rsis ++ [calculateRSI (prefixTo klines i) 14] else rsis in
         (macds, rsis))
      (seq start (length klines - start)) ([], []) in
  mkLongerTerm ema20 ema50 atr3 atr14 currentVolume averageVolume macds rsis.

(** [getKlines] as seen by [Get]: one request, and the fetch error
    wrapped with the timeframe. *)
Definition fetchKlines (up : Upstream F) (symbol interval : string)
  : M F (list (Kline F)) :=
  let* _ := send (CallKlines symbol interval 150) in
  match klinesAnswer up symbol interval 150 with
  | inl err => abort (Returned (KlinesFailed interval err))
  | inr klines => ret klines
  end.

(** [klines[len(klines)-n]]: panics when the index is negative. *)
Definition fromEnd (klines : list (Kline F)) (n : nat) : M F (Kline F) :=
  if (length klines <? n)%nat then abort Panicked
  else match klines !! (length klines - n)%nat with
       | Some k => ret k
       | None => abort Panicked
       end.

Definition fetchHyperliquidOI (up : Upstream F) (symbol : string)
  : M F (string + OIData F) :=
  fun w =>
    let '(cache, n, r) :=
      getHyperliquidOpenInterestData (oiCache w) (hyperliquidEnv up) symbol in
    (mkWorld (sent w ++ repeat CallHyperliquidInfo n) cache, inr r).

Definition fetchBinanceOI (up : Upstream F) (symbol : string)
  : M F (string + OIData F) :=
  let* _ := send (CallOpenInterest symbol) in
  ret (openInterestAnswer up symbol).

(** [getFundingRate] returns [(0, err)] on every error path; [Get] drops
    the error. *)
Definition fetchFundingRate (up : Upstream F) (symbol : string) : M F F :=
  let* _ := send (CallPremiumIndex symbol) in
  match fundingAnswer up symbol with
  | inl _ => ret (ofZ 0)
  | inr rate => ret rate
  end.

(** [Get].  The call of [calculateSupportResistanceSummary] in [Get]
    passes the four fetched histories; the summary of this revision has
    two further parameters (12h and 1d), for which [Get] fetches nothing:
    they are empty here. *)
Definition Get (up : Upstream F) (defaultCoins : gmap string bool)
           (symbol exchange : string) : M F (Data F) :=
  let symbol := Normalize symbol in
  let* klines3m := fetchKlines up symbol "3m"%string in
  let* klines15m := fetchKlines up symbol "15m"%string in
  let* klines1h := fetchKlines up symbol "1h"%string in
  let* klines4h := fetchKlines up symbol "4h"%string in
  let* lastCandle := fromEnd klines3m 1 in
  let currentPrice := Close lastCandle in
  let currentEMA20 := calculateEMA klines3m 20 in
  let currentMACD := calculateMACD klines3m in
  let currentRSI7 := calculateRSI klines3m 7 in
  let* priceChange1h :=
    (if (21 <=? length klines3m)%nat then
       let* k := fromEnd klines3m 21 in
       let price1hAgo := Close k in
       ret (if price1hAgo >? ofZ 0
            then ((currentPrice - price1hAgo) / price1hAgo) * ofZ 100
            else ofZ 0)
     else ret (ofZ 0)) in
  let* priceChange4h :=
    (if (2 <=? length klines4h)%nat then
       let* k := fromEnd klines4h 2 in
       let price4hAgo := Close k in
       ret (if price4hAgo >? ofZ 0
            then ((currentPrice - price4hAgo) / price4hAgo) * ofZ 100
            else ofZ 0)
     else ret (ofZ 0)) in
  let* oiData :=
    (if isInDefaultCoins defaultCoins symbol then
       let* r := (if String.eqb exchange "hyperliquid"%string
             then fetchHyperliquidOI up symbol
             else fetchBinanceOI up symbol) in
       match r with
       | inl _ => ret (mkOI (ofZ 0) (ofZ 0))
       | inr oiData => ret oiData
       end
     else ret (mkOI (ofZ 0) (ofZ 0))) in
  let* fundingRate := fetchFundingRate up symbol in
  let intradayData := calculateIntradaySeries klines3m in
  let longerTermData := calculateLongerTermData klines4h in
  let supportResistance :=
    calculateSupportResistanceSummary klines3m klines15m klines1h klines4h [] []
                                      currentPrice in
  ret (mkData symbol currentPrice priceChange1h priceChange4h
              currentEMA20 currentMACD currentRSI7
              (Some oiData) fundingRate
              (Some intradayData) (Some longerTermData) None
              (Some supportResistance)).

(** The result of the open-interest lookup [Get] makes for an eligible
    symbol. *)
Definition oiLookup (up : Upstream F) (symbol exchange : string) (w : World F)
  : string + OIData F :=
  if String.eqb exchange "hyperliquid"
  then snd (getHyperliquidOpenInterestData (oiCache w) (hyperliquidEnv up) symbol)
  else openInterestAnswer up symbol.

(** The placeholder [&OIData{Latest: 0, Average: 0}]. *)
Definition zeroOI : OIData F := mkOI (ofZ 0) (ofZ 0).

(** The four candle requests of [Get], in order. *)
Definition klineCalls (symbol : string) : list Call :=
  [CallKlines symbol "3m" 150; CallKlines symbol "15m" 150;
   CallKlines symbol "1h" 150; CallKlines symbol "4h" 150].

End Snapshot.

(* ===================================================================== *)
(** ** The two orders of the ranker, in the words of the specification *)
(* ===================================================================== *)

(** Ranking order: score descending, ties by strength descending, then by
    distance ascending, then by the higher price for supports and the lower
    price for resistances. *)
Definition RanksBefore (isSupport : bool) (a b : SupportResistanceLevel Q) : Prop :=
  (Score b < Score a)%Q
  \/ ((Score a == Score b)%Q
      /\ ((Strength b < Strength a)%Z
          \/ (Strength a = Strength b
              /\ ((Distance a < Distance b)%Q
                  \/ ((Distance a == Distance b)%Q
                      /\ (if isSupport then (Price b < Price a)%Q
                          else (Price a < Price b)%Q)))))).

(** Display order: distance ascending, with the same price tie-break. *)
Definition ShownBefore (isSupport : bool) (a b : SupportResistanceLevel Q) : Prop :=
  (Distance a < Distance b)%Q
  \/ ((Distance a == Distance b)%Q
      /\ (if isSupport then (Price b < Price a)%Q else (Price a < Price b)%Q)).

(* ===================================================================== *)
(** ** Shapes of close series, in the words of the specification *)
(* ===================================================================== *)

(** Each close is strictly above the previous one. *)
Fixpoint StrictlyIncreasingCloses (klines : list (Kline Q)) : Prop :=
  match klines with
  | prev :: (cur :: _) as rest =>
      (Close prev < Close cur)%Q /\ StrictlyIncreasingCloses rest
  | _ => True
  end.

(** No close is below the previous one (increasing or flat). *)
Fixpoint NonDecreasingCloses (klines : list (Kline Q)) : Prop :=
  match klines with
  | prev :: (cur :: _) as rest =>
      (Close prev <= Close cur)%Q /\ NonDecreasingCloses rest
  | _ => True
  end.

(* ===================================================================== *)
(** ** The side invariant, in the words of the specification *)
(* ===================================================================== *)

(** A level lies on its side of the price [p]: a support strictly below,
    a resistance strictly above. *)
Definition onItsSide (p : Q) (l : SupportResistanceLevel Q) : Prop :=
  if IsSupport l then (Price l < p)%Q else (p < Price l)%Q.

(** A level of the list for side [isSupport] (true: supports), on its side
    of [p], and with a positive score. *)
Definition sidedLevel (isSupport : bool) (p : Q) (l : SupportResistanceLevel Q) : Prop :=
  IsSupport l = isSupport /\ onItsSide p l /\ (0 < Score l)%Q.

(** The supports are supports below [p], the resistances resistances above
    [p]. *)
Definition sidesRespected (p : Q) (supports resistances : list (SupportResistanceLevel Q))
  : Prop :=
  Forall (fun l => IsSupport l = true /\ (Price l < p)%Q) supports
  /\ Forall (fun l => IsSupport l = false /\ (p < Price l)%Q) resistances.

(** The statistics tables only ever hold positive weights. *)
Definition positiveWeights (stats : gmap nat (levelStats Q)) : Prop :=
  forall i st, stats !! i = Some st -> (0 < weight st)%Q.

(** The named candle histories handed to the summary, in the order of
    [tfInputs]. *)
Definition namedInputs {F} (klines3m klines15m klines1h klines4h klines12h klines1d
                            : list (Kline F)) : list (string * list (Kline F)) :=
  [("3m"%string, klines3m); ("15m"%string, klines15m); ("1h"%string, klines1h);
   ("4h"%string, klines4h); ("12h"%string, klines12h); ("1d"%string, klines1d)].

(** Every entry of a timeframe table comes from one of the named
    histories [inputs] and respects the last close of that history. *)
Definition entriesRespectOwnClose (inputs : list (string * list (Kline Q)))
           (timeframes : gmap string (SupportResistanceTimeframe Q)) : Prop :=
  forall name tf,
    timeframes !! name = Some tf ->
    exists klines lastCandle,
      In (name, klines) inputs
      /\ last klines = Some lastCandle
      /\ Forall (sidedLevel true (Close lastCandle)) (Supports tf)
      /\ Forall (sidedLevel false (Close lastCandle)) (Resistances tf).

(* ===================================================================== *)
(** ** Sample inputs *)
(* ===================================================================== *)

(** The three candles closing at 0.1. *)
Definition pointOne {F} `{Float64Ops F} : list (Kline F) :=
  [closeOnly (lit 1 10); closeOnly (lit 1 10); closeOnly (lit 1 10)].

(** A base support at 100 and two higher timeframes: the first has no
    level near 100, the second has one at 100.1. *)
Definition sampleBase {F} `{Float64Ops F} : SupportResistanceLevel F :=
  mkLevel (ofZ 100) 3 (ofZ 0) (ofZ 2) true.

Definition sampleNear {F} `{Float64Ops F} : SupportResistanceLevel F :=
  mkLevel (lit 1001 10) 2 (ofZ 0) (ofZ 4) true.

Definition sampleSets {F} `{Float64Ops F} : list (weightedLevelSet F) :=
  [mkSet [mkLevel (ofZ 150) 1 (ofZ 0) (ofZ 1) true] (ofZ 1);
   mkSet [sampleNear] (lit 12 10)].

(** Two levels 0.1% apart which carry no score. *)
Definition unscoredLow {F} `{Float64Ops F} : SupportResistanceLevel F :=
  mkLevel (ofZ 100) 1 (ofZ 0) (ofZ 0) true.

Definition unscoredHigh {F} `{Float64Ops F} : SupportResistanceLevel F :=
  mkLevel (lit 1001 10) 1 (ofZ 0) (ofZ 0) true.

(** Two levels at the same price 0.1, with scores 1 and 2. *)
Definition twinOne {F} `{Float64Ops F} : SupportResistanceLevel F :=
  mkLevel (lit 1 10) 1 (ofZ 0) (ofZ 1) true.

Definition twinTwo {F} `{Float64Ops F} : SupportResistanceLevel F :=
  mkLevel (lit 1 10) 1 (ofZ 0) (ofZ 2) true.

(** An upstream whose candle requests succeed and whose open-interest and
    funding requests fail. *)
Definition flakyUpstream : Upstream float :=
  mkUpstream (fun _ _ _ => inr exampleKlines)
             (fun _ => inl "timeout"%string)
             (fun _ => inl "timeout"%string)
             (mkLookupEnv 0 0 0 (BulkError "timeout"%string)).

Definition coldWorld : World float := mkWorld [] (mkCache ∅ 0).

(** A table which lists BTC and SOL but not DOGE, installed at second 100;
    and lookups made one and two seconds later. *)
Definition sampleTable : gmap string float :=
  <["BTCUSDT"%string := ofZ 5]> (<["SOLUSDT"%string := ofZ 7]> ∅).

Definition second : Z := 1000000000.

Definition lookupAt (t : Z) : LookupEnv float :=
  mkLookupEnv t t t (BulkTable sampleTable).

(** Two callers, for BTC and for SOL, which both miss under the read lock
    before either takes the write lock. *)
Definition racingSchedule : list (Turn float) :=
  [mkTurn 0 (lookupAt (100 * second)); mkTurn 1 (lookupAt (100 * second + 1));
   mkTurn 1 (lookupAt (100 * second + 2)); mkTurn 0 (lookupAt (100 * second + 3))].

Definition racingCallers : Shared float :=
  mkShared (mkCache ∅ 0) 0
           (map (fun symbol => mkCaller symbol Start) ["BTCUSDT"%string; "SOLUSDT"%string]).

(** A window of 120 candles between 51000 and 52000 closing at 51500, with
    a dip to 50000 at index 10 retested at indices 40 and 70. *)
Definition dipCandle {F} `{Float64Ops F} (low : Z) : Kline F :=
  mkKline 0 (ofZ 51500) (ofZ 52000) (ofZ low) (ofZ 51500) (ofZ 1) 0.

Definition dippedKlines {F} `{Float64Ops F} : list (Kline F) :=
  map (fun i => if (i =? 10)%nat then dipCandle 50000
                else if ((i =? 40)%nat || (i =? 70)%nat)%bool then dipCandle 50050
                     else dipCandle 51000)
      (seq 0 120).

(** A 3-minute history too short for any level, closing at 50900. *)
Definition lowerKlines {F} `{Float64Ops F} : list (Kline F) :=
  [closeOnly (ofZ 50900); closeOnly (ofZ 50900); closeOnly (ofZ 50900)].

(** Six resistances with scores 1 .. 6 at distances 6 .. 1. *)
Definition sixResistances : list (SupportResistanceLevel Q) :=
  map (fun i => mkLevel (inject_Z (110 - i)) 1 (inject_Z (7 - i)) (inject_Z i) false)
      [1; 2; 3; 4; 5; 6]%Z.

(** Closes which rise at every candle, and closes which never move. *)
Definition risingKlines {F} `{Float64Ops F} : list (Kline F) :=
  map (fun c => closeOnly (ofZ c)) [1; 2; 3; 5; 8; 13; 21; 34; 55; 89]%Z.

Definition flatKlines {F} `{Float64Ops F} : list (Kline F) :=
  repeat (closeOnly (ofZ 100)) 30.


(* ===================================================================== *)
(** ** Further shapes of candle series *)
(* ===================================================================== *)

(** Each close is strictly below the previous one. *)
Fixpoint StrictlyDecreasingCloses (klines : list (Kline Q)) : Prop :=
  match klines with
  | prev :: (cur :: _) as rest =>
      (Close cur < Close prev)%Q /\ StrictlyDecreasingCloses rest
  | _ => True
  end.

(** Low, high and close of the candle lie in [[lo, hi]], the low not
    above the high. *)
Definition candleWithin (lo hi : Q) (k : Kline Q) : Prop :=
  (lo <= Low k)%Q /\ (Low k <= High k)%Q /\ (High k <= hi)%Q
  /\ (lo <= Close k <= hi)%Q.


(** Lows and highs both rise, or both fall, at every candle: the Go
    comparison [<] holds between neighbours. *)
Fixpoint risingCandles {F} `{Float64Ops F} (klines : list (Kline F)) : Prop :=
  match klines with
  | prev :: (cur :: _) as rest =>
      fltb (Low prev) (Low cur) = true /\ fltb (High prev) (High cur) = true
      /\ risingCandles rest
  | _ => True
  end.

Fixpoint fallingCandles {F} `{Float64Ops F} (klines : list (Kline F)) : Prop :=
  match klines with
  | prev :: (cur :: _) as rest =>
      fltb (Low cur) (Low prev) = true /\ fltb (High cur) (High prev) = true
      /\ fallingCandles rest
  | _ => True
  end.

(** The de-duplication test of the extremum detectors: [existing] is
    within 0.1% of [current]. *)
Definition nearExtremum {F} `{Float64Ops F} (existing : levelPoint F) (current : F) : bool :=
  fltb (fdiv (fabs (fsub (PointPrice existing) current)) current) (lit 1 1000).


(** Every entry of a statistics table counts at least the extremum
    itself. *)
Definition countedTouches {F} (stats : gmap nat (levelStats F)) : Prop :=
  forall i st, stats !! i = Some st -> (1 <= touches st)%Z.

(** A level of the given kind which was touched at least once. *)
Definition taggedLevel {F} (isSupport : bool) (l : SupportResistanceLevel F) : Prop :=
  IsSupport l = isSupport /\ (1 <= Strength l)%Z.

Definition totalStrength {F} (levels : list (SupportResistanceLevel F)) : Z :=
  fold_right (fun l s => (Strength l + s)%Z) 0%Z levels.


Definition totalScore (levels : list (SupportResistanceLevel Q)) : Q :=
  fold_right (fun l s => (Score l + s)%Q) 0%Q levels.


(** The timeframes of [Get], in the order of its fetches. *)
Definition snapshotTimeframes : list string :=
  ["3m"%string; "15m"%string; "1h"%string; "4h"%string].

(** An upstream which serves the 3-minute candles only. *)
Definition halfUpstream : Upstream float :=
  mkUpstream (fun _ interval _ =>
                if String.eqb interval "3m" then inr exampleKlines
                else inl "timeout"%string)
             (fun _ => inl "timeout"%string)
             (fun _ => inl "timeout"%string)
             (mkLookupEnv 0 0 0 (BulkError "timeout"%string)).

(** The open-interest requests of a successful [Get]: none for a symbol
    outside the allow-set, the single-symbol request on Binance, and on
    Hyperliquid the bulk requests of the cache lookup. *)
Definition oiCalls {F} `{Float64Ops F} (up : Upstream F) (defaultCoins : gmap string bool)
           (symbol exchange : string) (w : World F) : list Call :=
  if isInDefaultCoins defaultCoins symbol then
    if String.eqb exchange "hyperliquid"
    then repeat CallHyperliquidInfo
                (snd (fst (getHyperliquidOpenInterestData (oiCache w) (hyperliquidEnv up)
                                                          symbol)))
    else [CallOpenInterest symbol]
  else [].


(* ===================================================================== *)
(** ** The decision package: market data for a trading context *)
(* ===================================================================== *)

(** [PositionInfo], [CandidateCoin] and [Context], with the fields
    [fetchMarketDataForContext] reads. *)
Record PositionInfo := mkPosition { PositionSymbol : string; Side : string }.

Record CandidateCoin := mkCandidate { CoinSymbol : string; Sources : list string }.

Record Context := mkContext {
  Positions : list PositionInfo;
  CandidateCoins : list CandidateCoin;
  CoinWhitelistEnabled : bool;
  CoinWhitelist : list string;
  Exchange : string
}.

Definition calculateMaxCandidates (ctx : Context) : nat := length (CandidateCoins ctx).

Definition isCoinInWhitelist (coin : string) (whitelist : list string) : bool :=
  existsb (fun whitelistCoin => String.eqb whitelistCoin coin) whitelist.

(** The [map[string]bool] of the positions' symbols. *)
Definition positionSymbolsOf (ctx : Context) : gmap string bool :=
  fold_left (fun set pos => <[PositionSymbol pos := true]> set) (Positions ctx) ∅.

(** [symbolSet]: the positions, then the first [maxCandidates] candidates
    which pass the whitelist when it is enabled. *)
Definition symbolSetOf (ctx : Context) : gmap string bool :=
  let symbolSet := positionSymbolsOf ctx in
  fold_left (fun set coin =>
               if (CoinWhitelistEnabled ctx
                   && negb (isCoinInWhitelist (CoinSymbol coin) (CoinWhitelist ctx)))%bool
               then set
               else <[CoinSymbol coin := true]> set)
            (firstn (calculateMaxCandidates ctx) (CandidateCoins ctx)) symbolSet.

Section MarketDataForContext.
Context {F : Type} `{Float64Ops F}.
#[local] Open Scope f64_scope.

(** The liquidity test: the open interest is known, the price positive
    and the open-interest value below 15 million. *)
Definition liquidityTooLow (data : Data F) : bool :=
  match OpenInterest data with
  | Some oi =>
      if CurrentPrice data >? ofZ 0 then
        let oiValue := Latest oi * CurrentPrice data in
        let oiValueInMillions := oiValue / ofZ 1000000 in
        oiValueInMillions <? ofZ 15
      else false
  | None => false
  end.

(** Body of the loop over [symbolSet].  An error of [market.Get] skips the
    symbol; a panic is not recovered. *)
Definition fetchSymbol (up : Upstream F) (defaultCoins : gmap string bool) (ctx : Context)
           (marketDataMap : gmap string (Data F)) (symbol : string)
  : M F (gmap string (Data F)) :=
  fun w =>
    match Get up defaultCoins symbol (Exchange ctx) w with
    | (w', inl (Returned _)) => (w', inr marketDataMap)
    | (w', inl Panicked) => (w', inl Panicked)
    | (w', inr data) =>
        let isExistingPosition := default false (positionSymbolsOf ctx !! symbol) in
        if (negb isExistingPosition && liquidityTooLow data)%bool
        then (w', inr marketDataMap)
        else (w', inr (<[symbol := data]> marketDataMap))
    end.

Fixpoint fetchSymbols (up : Upstream F) (defaultCoins : gmap string bool) (ctx : Context)
         (order : list string) (marketDataMap : gmap string (Data F))
  : M F (gmap string (Data F)) :=
  match order with
  | [] => ret marketDataMap
  | symbol :: rest =>
      let* marketDataMap := fetchSymbol up defaultCoins ctx marketDataMap symbol in
      fetchSymbols up defaultCoins ctx rest marketDataMap
  end.

(** [fetchMarketDataForContext]: the resulting [ctx.MarketDataMap].  Go
    ranges over the map [symbolSet] in an unspecified order; [order] is the
    order of one run, a permutation of the keys of [symbolSetOf ctx]. *)
Definition fetchMarketDataForContext (up : Upstream F) (defaultCoins : gmap string bool)
           (ctx : Context) (order : list string) : M F (gmap string (Data F)) :=
  fetchSymbols up defaultCoins ctx order ∅.

(** [order] is a possible iteration order of [symbolSet]. *)
Definition iterationOrder (ctx : Context) (order : list string) : Prop :=
  Permutation order (map fst (map_to_list (symbolSetOf ctx))).

End MarketDataForContext.

(** A context with a position in BTC and the candidates ETH and SOL, the
    whitelist letting ETH through only. *)
Definition sampleContext : Context :=
  mkContext [mkPosition "BTCUSDT" "long"]
            [mkCandidate "ETHUSDT" ["ai500"%string]; mkCandidate "SOLUSDT" ["oi_top"%string]]
            true ["ETHUSDT"%string] "binance".


(** An upstream with candles, an open interest of one million contracts
    and a funding rate, at exact arithmetic; and a context with one
    candidate and no position. *)
Definition liquidUpstream : Upstream Q :=
  mkUpstream (fun _ _ _ => inr exampleKlines)
             (fun _ => inr (oiOf (inject_Z 1000000)))
             (fun _ => inr 0%Q)
             (mkLookupEnv 0 0 0 (BulkError "unused"%string)).

Definition candidateContext : Context :=
  mkContext [] [mkCandidate "ETHUSDT" ["ai500"%string]] false [] "binance".

Definition liquidRun : World Q * (Abort + gmap string (Data Q)) :=
  fetchMarketDataForContext liquidUpstream ∅ candidateContext ["ETHUSDT"%string]
                            (mkWorld [] (mkCache ∅ 0)).

(** The snapshot a run holds for a symbol, if any. *)
Definition snapshotOf {F} (run : World F * (Abort + gmap string (Data F))) (k : string)
  : option (Data F) :=
  match snd run with
  | inr result => result !! k
  | inl _ => None
  end.


(* ===================================================================== *)
(** ** The decision package: reading and validating the answer *)
(* ===================================================================== *)

(** The loop of [findMatchingBracket] from byte [i] on, at depth [depth]. *)
Fixpoint scanBrackets (rest : list ascii) (i : nat) (depth : Z) : option nat :=
  match rest with
  | [] => None
  | c :: rest =>
      if Ascii.eqb c "["%char then scanBrackets rest (S i) (depth + 1)
      else if Ascii.eqb c "]"%char then
             let depth := depth - 1 in
             if depth =? 0 then Some i else scanBrackets rest (S i) depth
           else scanBrackets rest (S i) depth
  end.

(** [findMatchingBracket]; [None] is the result -1.  [start] is a Go
    [int]; the only call passes an index [strings.Index] found, and it is a
    [nat] here. *)
Definition findMatchingBracket (s : string) (start : nat) : option nat :=
  let bytes := list_ascii_of_string s in
  match nth_error bytes start with
  | Some c =>
      if Ascii.eqb c "["%char then scanBrackets (skipn start bytes) start 0
      else None
  | None => None
  end.

(** Opening minus closing square brackets. *)
Fixpoint bracketBalance (bytes : list ascii) : Z :=
  match bytes with
  | [] => 0
  | c :: rest =>
      (if Ascii.eqb c "["%char then 1 else if Ascii.eqb c "]"%char then -1 else 0)
      + bracketBalance rest
  end.

Record Decision (F : Type) := mkDecision {
  DecisionSymbol : string;
  Action : string;
  Leverage : Z;
  PositionSizeUSD : F;
  StopLoss : F;
  TakeProfit : F
}.
Arguments mkDecision {F}.
Arguments DecisionSymbol {F}.
Arguments Action {F}.
Arguments Leverage {F}.
Arguments PositionSizeUSD {F}.
Arguments StopLoss {F}.
Arguments TakeProfit {F}.

(** The errors of [validateDecision], one per [fmt.Errorf]. *)
Inductive ValidationError :=
| InvalidAction
| LeverageOutOfRange
| NonPositiveSize
| InsufficientMargin
| NoAvailableBalance
| PositionTooLarge
| NonPositiveStops
| LongStopNotBelowTarget
| ShortStopNotAboveTarget
| RiskRewardTooLow.

Definition validActions : list string :=
  ["open_long"%string; "open_short"%string; "close_long"%string; "close_short"%string;
   "hold"%string; "wait"%string].

Section Validation.
Context {F : Type} `{Float64Ops F}.
#[local] Open Scope f64_scope.

Definition isMajor (symbol : string) : bool :=
  (String.eqb symbol "BTCUSDT" || String.eqb symbol "ETHUSDT")%bool.

(** [riskRewardRatio] of an opening decision, with the entry assumed at
    20% of the way from the stop to the target. *)
Definition riskRewardRatio (d : Decision F) : F :=
  if String.eqb (Action d) "open_long" then
    let entryPrice := StopLoss d + (TakeProfit d - StopLoss d) * lit 2 10 in
    let riskPercent := (entryPrice - StopLoss d) / entryPrice * ofZ 100 in
    let rewardPercent := (TakeProfit d - entryPrice) / entryPrice * ofZ 100 in
    if riskPercent >? ofZ 0 then rewardPercent / riskPercent else ofZ 0
  else
    let entryPrice := StopLoss d - (StopLoss d - TakeProfit d) * lit 2 10 in
    let riskPercent := (StopLoss d - entryPrice) / entryPrice * ofZ 100 in
    let rewardPercent := (entryPrice - TakeProfit d) / entryPrice * ofZ 100 in
    if riskPercent >? ofZ 0 then rewardPercent / riskPercent else ofZ 0.

(** [validateDecision]; [None] is the nil error. *)
Definition validateDecision (d : Decision F) (accountEquity : F)
           (btcEthLeverage altcoinLeverage : Z) (availableBalance : F)
  : option ValidationError :=
  if negb (existsb (String.eqb (Action d)) validActions) then Some InvalidAction
  else if (String.eqb (Action d) "open_long" || String.eqb (Action d) "open_short")%bool then
    let maxLeverage := if isMajor (DecisionSymbol d) then btcEthLeverage
                       else altcoinLeverage in
    let maxPositionValue := if isMajor (DecisionSymbol d) then accountEquity * ofZ 10
                            else accountEquity * lit 15 10 in
    if ((Leverage d <=? 0)%Z || (Leverage d >? maxLeverage)%Z)%bool
    then Some LeverageOutOfRange
    else if PositionSizeUSD d <=? ofZ 0 then Some NonPositiveSize
    else
      let requiredMargin := PositionSizeUSD d / ofZ (Leverage d) in
      if requiredMargin >? availableBalance then Some InsufficientMargin
      else if availableBalance <=? ofZ 0 then Some NoAvailableBalance
      else
        let tolerance := maxPositionValue * lit 1 100 in
        if PositionSizeUSD d >? maxPositionValue + tolerance then Some PositionTooLarge
        else if ((StopLoss d <=? ofZ 0) || (TakeProfit d <=? ofZ 0))%bool
        then Some NonPositiveStops
        else if (String.eqb (Action d) "open_long" && (StopLoss d >=? TakeProfit d))%bool
        then Some LongStopNotBelowTarget
        else if (negb (String.eqb (Action d) "open_long")
                 && (StopLoss d <=? TakeProfit d))%bool
        then Some ShortStopNotAboveTarget
        else if riskRewardRatio d <? ofZ 3 then Some RiskRewardTooLow
        else None
  else None.

(** [validateDecisions]: the 1-based number of the first decision which
    fails, with its error. *)
Fixpoint validateDecisionsFrom (i : Z) (decisions : list (Decision F)) (accountEquity : F)
         (btcEthLeverage altcoinLeverage : Z) (availableBalance : F)
  : option (Z * ValidationError) :=
  match decisions with
  | [] => None
  | decision :: rest =>
      match validateDecision decision accountEquity btcEthLeverage altcoinLeverage
                             availableBalance with
      | Some err => Some ((i + 1)%Z, err)
      | None => validateDecisionsFrom (i + 1)%Z rest accountEquity btcEthLeverage
                                      altcoinLeverage availableBalance
      end
  end.

Definition validateDecisions (decisions : list (Decision F)) (accountEquity : F)
           (btcEthLeverage altcoinLeverage : Z) (availableBalance : F)
  : option (Z * ValidationError) :=
  validateDecisionsFrom 0 decisions accountEquity btcEthLeverage altcoinLeverage
                        availableBalance.

End Validation.

(** A long on SOL with stop 90 and target 130, and in float64 a long whose
    target is the float next above its stop. *)
Definition sampleLong {F} `{Float64Ops F} : Decision F :=
  mkDecision "SOLUSDT" "open_long" 3 (ofZ 1000) (ofZ 90) (ofZ 130).

Definition collapsedLong : Decision float :=
  mkDecision "SOLUSDT" "open_long" 3 (ofZ 1000) (ofZ 1) (PrimFloat.next_up (ofZ 1)).


(* ===================================================================== *)
(** ** Decoding the bulk open-interest answer *)
(* ===================================================================== *)

(** A JSON value as [json.Unmarshal] stores it in an [interface{}]. *)
#[warnings="-register-all"] Inductive JSON (F : Type) :=
| JNull
| JBool (b : bool)
| JNumber (x : F)
| JString (s : string)
| JArray (items : list (JSON F))
| JObject (fields : gmap string (JSON F)).
Arguments JNull {F}.
Arguments JBool {F}.
Arguments JNumber {F}.
Arguments JString {F}.
Arguments JArray {F}.
Arguments JObject {F}.

(** The steps of the decoding which end it with an error. *)
Inductive DecodeError :=
| ResponseTooShort
| UniverseNotObject
| UniverseNotArray
| AssetCtxsNotArray
| LengthMismatch.

Section BulkDecoding.
Context {F : Type} `{Float64Ops F}.

(** [strconv.ParseFloat(s, 64)], with [None] for an error. *)
Variable ParseFloat : string -> option F.

(** [m[key].(string)]. *)
Definition stringField (value : JSON F) (key : string) : option string :=
  match value with
  | JObject fields =>
      match fields !! key with
      | Some (JString s) => Some s
      | _ => None
      end
  | _ => None
  end.

(** Body of the loop over [universe]: the entry an item contributes, or
    [None] where the loop continues. *)
Definition bulkEntry (universeItem assetCtx : JSON F) : option (string * F) :=
  match stringField universeItem "name" with
  | None => None
  | Some name =>
      match stringField assetCtx "openInterest" with
      | None => None
      | Some openInterest =>
          match ParseFloat openInterest with
          | None => None
          | Some oi => Some (Normalize (String.append name "USDT"), oi)
          end
      end
  end.

Definition buildOICache (universe assetCtxs : list (JSON F)) : gmap string F :=
  fold_left (fun newCache '(universeItem, assetCtx) =>
               match bulkEntry universeItem assetCtx with
               | Some (symbolHL, oi) => <[symbolHL := oi]> newCache
               | None => newCache
               end)
            (combine universe assetCtxs) ∅.

(** From the decoded [response] to [newCache]. *)
Definition decodeBulk (response : list (JSON F)) : DecodeError + gmap string F :=
  match response with
  | first :: second :: _ =>
      match first with
      | JObject universeData =>
          match universeData !! "universe"%string with
          | Some (JArray universe) =>
              match second with
              | JArray assetCtxs =>
                  if (length universe =? length assetCtxs)%nat
                  then inr (buildOICache universe assetCtxs)
                  else inl LengthMismatch
              | _ => inl AssetCtxsNotArray
              end
          | _ => inl UniverseNotArray
          end
      | _ => inl UniverseNotObject
      end
  | _ => inl ResponseTooShort
  end.

End BulkDecoding.


(** A bulk answer with three universe items: "btc" with open interest "5",
    an item which is not an object, and "SOL" whose open interest does not
    parse. *)
Definition sampleParse : string -> option float :=
  fun s => if String.eqb s "5" then Some (ofZ 5) else None.

Definition sampleResponse : list (JSON float) :=
  [JObject (<["universe"%string :=
                JArray [JObject (<["name"%string := JString "btc"]> ∅);
                        JNull;
                        JObject (<["name"%string := JString "SOL"]> ∅)]]> ∅);
   JArray [JObject (<["openInterest"%string := JString "5"]> ∅);
           JObject (<["openInterest"%string := JString "9"]> ∅);
           JObject (<["openInterest"%string := JString "n/a"]> ∅)]].


(** Every entry of a timeframe table comes from a named history of at
    least seven candles and holds at least one level. *)
Definition entriesHaveLevels {F} (inputs : list (string * list (Kline F)))
           (timeframes : gmap string (SupportResistanceTimeframe F)) : Prop :=
  forall name tf,
    timeframes !! name = Some tf ->
    exists klines,
      In (name, klines) inputs
      /\ (7 <= length klines)%nat
      /\ (Supports tf <> [] \/ Resistances tf <> []).


(* ===================================================================== *)
(** ** The RSI averages, in the words of the specification *)
(* ===================================================================== *)

(** The deltas of a close series: each close minus the one before. *)
Definition closeDeltas (klines : list (Kline Q)) : list Q :=
  zip_with (fun prev cur => (Close cur - Close prev)%Q) klines (List.tl klines).

(** The gain and the loss a delta stands for: the delta itself when it is
    a rise, its opposite when it is a fall, and nothing otherwise. *)
Definition gainOf (delta : Q) : Q := Qmax delta 0.
Definition lossOf (delta : Q) : Q := Qmax (- delta) 0.

Definition sumQ (xs : list Q) : Q := fold_right Qplus 0%Q xs.

(** Wilder smoothing: [avg = (avg * (n - 1) + x) / n]. *)
Definition wilderStep (n : nat) (avg x : Q) : Q :=
  ((avg * (inject_Z (Z.of_nat n) - 1) + x) / inject_Z (Z.of_nat n))%Q.

(** The average initialised from the first [n] values (their mean), then
    Wilder-smoothed over the remainder. *)
Definition wilderAverage (n : nat) (xs : list Q) : Q :=
  fold_left (wilderStep n) (skipn n xs) (sumQ (firstn n xs) / inject_Z (Z.of_nat n))%Q.

Definition wilderAvgGain (klines : list (Kline Q)) (period : nat) : Q :=
  wilderAverage period (map gainOf (closeDeltas klines)).

Definition wilderAvgLoss (klines : list (Kline Q)) (period : nat) : Q :=
  wilderAverage period (map lossOf (closeDeltas klines)).

(** Five finite, non-negative closes swinging between 0 and 2^1023. *)
Definition hugeClose : float := 0x1p1023%float.

Definition swingingKlines : list (Kline float) :=
  map closeOnly [ofZ 0; hugeClose; ofZ 0; hugeClose; ofZ 0].

(* ===================================================================== *)
(** * Properties *)
(* ===================================================================== *)

(** ** Indicators on short histories *)

Section DegenerateInputs.
Context {F : Type} `{Float64Ops F}.

Lemma calculateEMA_short (klines : list (Kline F)) (period : nat) :
  (length klines < period)%nat -> calculateEMA klines period = ofZ 0.
Proof.
  intros Hlen. unfold calculateEMA.
  destruct (Nat.ltb_spec (length klines) period); [reflexivity | lia].
Qed.

Lemma calculateMACD_short (klines : list (Kline F)) :
  (length klines < 26)%nat -> calculateMACD klines = ofZ 0.
Proof.
  intros Hlen. unfold calculateMACD.
  destruct (Nat.ltb_spec (length klines) 26); [reflexivity | lia].
Qed.

Lemma calculateRSI_short (klines : list (Kline F)) (period : nat) :
  (length klines <= period)%nat -> calculateRSI klines period = ofZ 0.
Proof.
  intros Hlen. unfold calculateRSI.
  destruct (Nat.leb_spec (length klines) period); [reflexivity | lia].
Qed.

Lemma calculateATR_short (klines : list (Kline F)) (period : nat) :
  (length klines <= period)%nat -> calculateATR klines period = ofZ 0.
Proof.
  intros Hlen. unfold calculateATR.
  destruct (Nat.leb_spec (length klines) period); [reflexivity | lia].
Qed.
End DegenerateInputs.

(** C7.  With too little history every indicator returns zero, for every
    arithmetic: [calculateEMA] below [period] candles, [calculateMACD]
    below 26, [calculateRSI] and [calculateATR] up to [period] candles; and
    on the ten example closes EMA(20) and MACD are zero. *)
Theorem insufficient_history_returns_zero :
  forall (F : Type) (ops : Float64Ops F) (klines : list (Kline F)) (period : nat),
    ((length klines < period)%nat -> calculateEMA klines period = ofZ 0)
    /\ ((length klines < 26)%nat -> calculateMACD klines = ofZ 0)
    /\ ((length klines <= period)%nat ->
        calculateRSI klines period = ofZ 0 /\ calculateATR klines period = ofZ 0)
    /\ length (exampleKlines (F := F)) = 10%nat
    /\ map Close (exampleKlines (F := F)) = map ofZ exampleCloses
    /\ calculateEMA (exampleKlines (F := F)) 20 = ofZ 0
    /\ calculateMACD (exampleKlines (F := F)) = ofZ 0.
Proof.
  intros F ops klines period.
  repeat split.
  - apply calculateEMA_short.
  - apply calculateMACD_short.
  - now apply calculateRSI_short.
  - now apply calculateATR_short.
Qed.

Lemma insufficient_history_returns_zero_witness :
  calculateEMA (F := float) (exampleKlines (F := float)) 20 = ofZ 0
  /\ calculateMACD (F := float) (map (fun c => closeOnly (ofZ c)) [1; 2; 3]) = ofZ 0
  /\ calculateRSI (F := float) exampleKlines 10 = ofZ 0
  /\ calculateATR (F := float) exampleKlines 14 = ofZ 0.
Proof.
  destruct (insufficient_history_returns_zero float binary64 exampleKlines 20)
    as (Hema & _ & Hrsi & _).
  destruct (insufficient_history_returns_zero float binary64
              (map (fun c => closeOnly (ofZ c)) [1; 2; 3]) 14) as (_ & Hmacd & _).
  destruct (insufficient_history_returns_zero float binary64 exampleKlines 10)
    as (_ & _ & Hrsi10 & _).
  destruct (insufficient_history_returns_zero float binary64 exampleKlines 14)
    as (_ & _ & Hatr14 & _).
  split; [apply Hema; simpl; lia |].
  split; [apply Hmacd; simpl; lia |].
  split; [apply Hrsi10; simpl; lia | apply Hatr14; simpl; lia].
Defined.

(** ** EMA of a constant series *)

(** C9 as stated fails in float64: on three closes 0.1 with period 3 the
    seed is (0.1+0.1+0.1)/3, which rounds to 0.10000000000000002. *)
Lemma ema_constant_fails_in_binary64 :
  (3 <= length (pointOne (F := float)))%nat
  /\ Forall (fun k => Close k = lit 1 10) (pointOne (F := float))
  /\ calculateEMA (F := float) pointOne 3 = PrimFloat.next_up (lit 1 10)
  /\ feqb (calculateEMA (F := float) pointOne 3) (lit 1 10) = false.
Proof.
  split; [simpl; lia |].
  split; [repeat constructor |].
  split; vm_compute; reflexivity.
Qed.

Section ExactEMA.
#[local] Open Scope Q_scope.

Lemma sum_closes_constant (c : Q) (l : list (Kline Q)) (acc : Q) :
  Forall (fun k => Close k == c) l ->
  fold_left (fun sum k => fadd sum (Close k)) l acc
  == acc + inject_Z (Z.of_nat (length l)) * c.
Proof.
  intros Hl. revert acc.
  induction Hl as [| k l Hk _ IH]; intros acc; simpl fold_left.
  - simpl. ring.
  - rewrite IH. simpl fadd. rewrite Hk.
    change (length (k :: l)) with (S (length l)).
    rewrite Nat2Z.inj_succ. unfold Z.succ. rewrite inject_Z_plus. ring.
Qed.

Lemma ema_updates_constant (c m : Q) (l : list (Kline Q)) (ema : Q) :
  Forall (fun k => Close k == c) l ->
  ema == c ->
  fold_left (fun ema k => fadd (fmul (fsub (Close k) ema) m) ema) l ema == c.
Proof.
  intros Hl. revert ema.
  induction Hl as [| k l Hk _ IH]; intros ema Hema; simpl fold_left.
  - exact Hema.
  - apply IH. simpl. rewrite Hk, Hema. ring.
Qed.
End ExactEMA.

(** C9, amended.  In exact arithmetic: on a series of at least [period >= 1]
    candles whose closes all equal [c], [calculateEMA] returns [c]. *)
Theorem ema_constant_exact :
  forall (klines : list (Kline Q)) (period : nat) (c : Q),
    (0 < period)%nat ->
    (period <= length klines)%nat ->
    Forall (fun k => Close k == c) klines ->
    calculateEMA klines period == c.
Proof.
  intros klines period c Hpos Hlen Hall.
  unfold calculateEMA.
  destruct (Nat.ltb_spec (length klines) period); [lia |].
  assert (Hfirst : Forall (fun k => Close k == c) (firstn period klines))
    by now apply Forall_take.
  assert (Hrest : Forall (fun k => Close k == c) (skipn period klines))
    by now apply Forall_drop.
  apply ema_updates_constant; [exact Hrest |].
  simpl fdiv. simpl ofZ.
  rewrite (sum_closes_constant c _ _ Hfirst).
  rewrite length_firstn, Nat.min_l by lia.
  assert (Hp : ~ inject_Z (Z.of_nat period) == 0).
  { unfold Qeq. simpl. lia. }
  field. exact Hp.
Qed.

Lemma ema_constant_exact_witness :
  calculateEMA (F := Q) (pointOne (F := Q)) 3 == (1 # 10).
Proof.
  apply (ema_constant_exact pointOne 3 (1 # 10)).
  - lia.
  - simpl. lia.
  - repeat constructor; reflexivity.
Defined.

(** ** Extrema stay three candles away from both ends of the window *)

Section ExtremaBounds.
Context {F : Type} `{Float64Ops F}.

(** Both detectors are folds which only ever append a point whose index is
    the loop variable. *)
Lemma extremum_fold_indices
      (body : list (levelPoint F) -> nat -> list (levelPoint F))
      (idxs : list nat) :
  (forall acc i p, In p (body acc i) -> In p acc \/ PointIndex p = i) ->
  forall acc p,
    In p (fold_left body idxs acc) -> In p acc \/ In (PointIndex p) idxs.
Proof.
  intros Hbody. induction idxs as [| i idxs IH]; intros acc p Hin; simpl in *.
  - now left.
  - destruct (IH _ _ Hin) as [Hacc | Hidx]; [| now right; right].
    destruct (Hbody _ _ _ Hacc) as [Hold | Heq]; [now left | right; now left].
Qed.

Lemma findLocalMinima_index (klines : list (Kline F)) (p : levelPoint F) :
  In p (findLocalMinima klines) ->
  (3 <= PointIndex p)%nat /\ (PointIndex p + 3 < length klines)%nat.
Proof.
  unfold findLocalMinima.
  destruct (length klines <? 3)%nat; [intros [] |].
  intros Hin. apply extremum_fold_indices in Hin.
  - destruct Hin as [[] | Hseq]. apply in_seq in Hseq. lia.
  - clear. intros acc i p.
    destruct (klines !! i) as [k |]; [| now left].
    destruct (isLocalMin klines i (Low k)); [| now left].
    destruct (existsb _ acc); [now left |].
    rewrite in_app_iff. intros [Hacc | [<- | []]]; [now left | now right].
Qed.

Lemma findLocalMaxima_index (klines : list (Kline F)) (p : levelPoint F) :
  In p (findLocalMaxima klines) ->
  (3 <= PointIndex p)%nat /\ (PointIndex p + 3 < length klines)%nat.
Proof.
  unfold findLocalMaxima.
  destruct (length klines <? 3)%nat; [intros [] |].
  intros Hin. apply extremum_fold_indices in Hin.
  - destruct Hin as [[] | Hseq]. apply in_seq in Hseq. lia.
  - clear. intros acc i p.
    destruct (klines !! i) as [k |]; [| now left].
    destruct (isLocalMax klines i (High k)); [| now left].
    destruct (existsb _ acc); [now left |].
    rewrite in_app_iff. intros [Hacc | [<- | []]]; [now left | now right].
Qed.

Lemma findLocalMinima_short (klines : list (Kline F)) :
  (length klines < 7)%nat -> findLocalMinima klines = [].
Proof.
  intros Hlen. destruct (findLocalMinima klines) as [| p l] eqn:E; [reflexivity |].
  assert (Hin : In p (findLocalMinima klines)) by (rewrite E; now left).
  apply findLocalMinima_index in Hin. lia.
Qed.

Lemma findLocalMaxima_short (klines : list (Kline F)) :
  (length klines < 7)%nat -> findLocalMaxima klines = [].
Proof.
  intros Hlen. destruct (findLocalMaxima klines) as [| p l] eqn:E; [reflexivity |].
  assert (Hin : In p (findLocalMaxima klines)) by (rewrite E; now left).
  apply findLocalMaxima_index in Hin. lia.
Qed.

(** With no extrema the touch re-scan leaves both (empty) tables alone. *)
Lemma scan_without_extrema (total : nat) (tolerance : F)
      (l : list (nat * Kline F)) (ss rs : gmap nat (levelStats F)) :
  fold_left (fun '(ss, rs) ic =>
               (scanSupports total tolerance [] ss ic,
                scanResistances total tolerance [] rs ic)) l (ss, rs) = (ss, rs).
Proof.
  induction l as [| [idx candle] l IH]; simpl; [reflexivity | exact IH].
Qed.

Lemma mergeNearbyLevels_nil (tolerance : F) : mergeNearbyLevels [] tolerance = [].
Proof. reflexivity. Qed.

Lemma updateLevelDistances_nil (currentPrice : F) (isSupport : bool) :
  updateLevelDistances [] currentPrice isSupport = [].
Proof. unfold updateLevelDistances. now destruct (fleb currentPrice (ofZ 0)). Qed.

Lemma levels_of_short_window (klines : list (Kline F)) (lookback : nat) :
  (length (recentWindow klines lookback) < 7)%nat ->
  calculateSupportResistanceLevels klines lookback = ([], []).
Proof.
  intros Hlen. unfold calculateSupportResistanceLevels.
  destruct (length klines =? 0)%nat; [reflexivity |].
  destruct (last (recentWindow klines lookback)) as [lastCandle |]; [| reflexivity].
  rewrite (findLocalMinima_short _ Hlen), (findLocalMaxima_short _ Hlen).
  cbn [initStats fold_left].
  rewrite scan_without_extrema.
  cbn [supportCandidates resistanceCandidates fold_left].
  rewrite !mergeNearbyLevels_nil, !updateLevelDistances_nil.
  reflexivity.
Qed.
End ExtremaBounds.

(** C10.  A lookback window of fewer than 7 candles yields no support and
    no resistance, because [findLocalMinima] and [findLocalMaxima] only
    report indices [i] with [3 <= i < len - 3]. *)
Theorem short_window_has_no_levels :
  forall (F : Type) (ops : Float64Ops F) (klines : list (Kline F)) (lookback : nat),
    (forall p, In p (findLocalMinima klines) ->
               (3 <= PointIndex p)%nat /\ (PointIndex p + 3 < length klines)%nat)
    /\ (forall p, In p (findLocalMaxima klines) ->
                  (3 <= PointIndex p)%nat /\ (PointIndex p + 3 < length klines)%nat)
    /\ ((length (recentWindow klines lookback) < 7)%nat ->
        calculateSupportResistanceLevels klines lookback = ([], [])).
Proof.
  intros F ops klines lookback. split; [| split].
  - apply findLocalMinima_index.
  - apply findLocalMaxima_index.
  - apply levels_of_short_window.
Qed.

Lemma short_window_has_no_levels_witness :
  calculateSupportResistanceLevels (F := float) (firstn 6 exampleKlines) 120 = ([], [])
  /\ calculateSupportResistanceLevels (F := float) exampleKlines 6 = ([], []).
Proof.
  split.
  - apply (short_window_has_no_levels float binary64 (firstn 6 exampleKlines) 120).
    simpl. lia.
  - apply (short_window_has_no_levels float binary64 exampleKlines 6).
    simpl. lia.
Defined.

(** ** Insertion sort *)

Section SortingFacts.
Context {A : Type} (less : A -> A -> bool).

Lemma sinkLeft_perm (x : A) (revPrefix : list A) :
  Permutation (sinkLeft less x revPrefix) (x :: revPrefix).
Proof.
  induction revPrefix as [| y rest IH]; simpl; [reflexivity |].
  destruct (less x y); [| reflexivity].
  rewrite IH. apply perm_swap.
Qed.

Lemma sort_fold_perm (l revPrefix : list A) :
  Permutation (fold_left (fun revPrefix x => sinkLeft less x revPrefix) l revPrefix)
              (l ++ revPrefix).
Proof.
  revert revPrefix. induction l as [| x l IH]; intros revPrefix; simpl; [reflexivity |].
  rewrite IH, sinkLeft_perm. symmetry. apply Permutation_middle.
Qed.

Lemma insertionSort_perm (l : list A) : Permutation (insertionSort less l) l.
Proof.
  unfold insertionSort. rewrite <- Permutation_rev, sort_fold_perm.
  now rewrite app_nil_r.
Qed.

Lemma insertionSort_length (l : list A) : length (insertionSort less l) = length l.
Proof. apply Permutation_length, insertionSort_perm. Qed.

Lemma insertionSort_In (l : list A) (x : A) : In x (insertionSort less l) <-> In x l.
Proof.
  split; apply Permutation_in; [| symmetry]; apply insertionSort_perm.
Qed.

Lemma insertionSort_nil : insertionSort less [] = [].
Proof. reflexivity. Qed.

(** A comparator which is asymmetric and whose complement is transitive
    (a strict weak order) is what sorting needs. *)
Hypothesis less_asym : forall a b, less a b = true -> less b a = false.
Hypothesis less_negtrans :
  forall a b c, less a b = false -> less b c = false -> less a c = false.

Lemma sinkLeft_sorted (x : A) (revPrefix : list A) :
  StronglySorted (fun a b => less a b = false) revPrefix ->
  StronglySorted (fun a b => less a b = false) (sinkLeft less x revPrefix).
Proof.
  induction 1 as [| y rest Hrest IH Hy]; simpl.
  - repeat constructor.
  - destruct (less x y) eqn:Hxy.
    + constructor; [exact IH |].
      rewrite List.Forall_forall. intros w Hw.
      apply (Permutation_in _ (sinkLeft_perm x rest)) in Hw.
      destruct Hw as [<- | Hw]; [now apply less_asym |].
      rewrite List.Forall_forall in Hy. now apply Hy.
    + constructor; [now constructor |].
      constructor; [exact Hxy |].
      rewrite List.Forall_forall in *. intros w Hw.
      eapply less_negtrans; [exact Hxy | now apply Hy].
Qed.

Lemma StronglySorted_snoc (R : A -> A -> Prop) (l : list A) (x : A) :
  StronglySorted R l -> Forall (fun y => R y x) l -> StronglySorted R (l ++ [x]).
Proof.
  induction 1 as [| y l Hl IH Hy]; intros Hx; simpl.
  - repeat constructor.
  - inversion Hx; subst. constructor; [now apply IH |].
    apply Forall_app. split; [exact Hy | now repeat constructor].
Qed.

Lemma StronglySorted_rev (R : A -> A -> Prop) (l : list A) :
  StronglySorted R l -> StronglySorted (fun a b => R b a) (rev l).
Proof.
  induction 1 as [| y l Hl IH Hy]; simpl; [constructor |].
  apply StronglySorted_snoc; [exact IH |].
  rewrite List.Forall_forall in *. intros w Hw. apply Hy. now apply in_rev.
Qed.

(** No element of the sorted slice has a later element which compares
    strictly before it. *)
Lemma insertionSort_sorted (l : list A) :
  StronglySorted (fun a b => less b a = false) (insertionSort less l).
Proof.
  unfold insertionSort.
  apply (StronglySorted_rev (fun a b => less a b = false)).
  assert (Hgen : forall revPrefix,
             StronglySorted (fun a b => less a b = false) revPrefix ->
             StronglySorted (fun a b => less a b = false)
               (fold_left (fun revPrefix x => sinkLeft less x revPrefix) l revPrefix)).
  { induction l as [| x l IH]; intros revPrefix Hs; simpl; [exact Hs |].
    apply IH. now apply sinkLeft_sorted. }
  apply Hgen. constructor.
Qed.
End SortingFacts.

(** ** Ranking: [sortAndFilterLevels] *)

Section RankingAnyArithmetic.
Context {F : Type} `{Float64Ops F}.

Lemma firstn_le_length {A} (n : nat) (l : list A) : (length (firstn n l) <= n)%nat.
Proof. rewrite length_firstn. lia. Qed.

Lemma sortAndFilterLevels_unfold (levels : list (SupportResistanceLevel F)) (isSupport : bool) :
  sortAndFilterLevels levels isSupport
  = insertionSort (displayLess isSupport) (topRanked levels isSupport).
Proof.
  unfold sortAndFilterLevels, topRanked.
  destruct levels as [| l0 levels]; [reflexivity |].
  cbn [length Nat.eqb].
  destruct (Nat.ltb_spec 5 (length (insertionSort (rankLess isSupport) (l0 :: levels))));
    [reflexivity |].
  now rewrite firstn_all2 by lia.
Qed.

Lemma sortAndFilterLevels_length (levels : list (SupportResistanceLevel F)) (isSupport : bool) :
  (length (sortAndFilterLevels levels isSupport) <= 5)%nat.
Proof.
  rewrite sortAndFilterLevels_unfold, insertionSort_length.
  apply firstn_le_length.
Qed.

Lemma sortAndFilterLevels_perm (levels : list (SupportResistanceLevel F)) (isSupport : bool) :
  Permutation (sortAndFilterLevels levels isSupport) (topRanked levels isSupport).
Proof. rewrite sortAndFilterLevels_unfold. apply insertionSort_perm. Qed.

Lemma sortAndFilterLevels_In (levels : list (SupportResistanceLevel F)) (isSupport : bool) l :
  In l (sortAndFilterLevels levels isSupport) -> In l levels.
Proof.
  intros Hin. apply (Permutation_in _ (sortAndFilterLevels_perm _ _)) in Hin.
  unfold topRanked in Hin.
  apply (insertionSort_In (rankLess isSupport)).
  rewrite <- (firstn_skipn 5). apply in_or_app. now left.
Qed.

Lemma sortAndFilterLevels_small (levels : list (SupportResistanceLevel F)) (isSupport : bool) :
  (length levels <= 5)%nat ->
  Permutation (sortAndFilterLevels levels isSupport) levels.
Proof.
  intros Hlen. rewrite sortAndFilterLevels_perm. unfold topRanked.
  rewrite firstn_all2 by (rewrite insertionSort_length; lia).
  apply insertionSort_perm.
Qed.
End RankingAnyArithmetic.

(** ** The comparators at exact arithmetic *)

Section ExactComparators.
#[local] Open Scope Q_scope.

Lemma Qeq_bool_cases (x y : Q) :
  (x == y /\ Qeq_bool x y = true) \/ (x < y /\ Qeq_bool x y = false)
  \/ (y < x /\ Qeq_bool x y = false).
Proof.
  destruct (Q_dec x y) as [[Hlt | Hgt] | Heq].
  - right. left. split; [exact Hlt |].
    destruct (Qeq_bool x y) eqn:E; [| reflexivity].
    apply Qeq_bool_iff in E. lra.
  - right. right. split; [exact Hgt |].
    destruct (Qeq_bool x y) eqn:E; [| reflexivity].
    apply Qeq_bool_iff in E. lra.
  - left. split; [exact Heq | now apply Qeq_bool_iff].
Qed.

Lemma Qle_bool_cases (x y : Q) :
  (x <= y /\ Qle_bool x y = true) \/ (y < x /\ Qle_bool x y = false).
Proof.
  destruct (Qlt_le_dec y x) as [Hlt | Hle].
  - right. split; [exact Hlt |].
    destruct (Qle_bool x y) eqn:E; [| reflexivity].
    apply Qle_bool_iff in E. lra.
  - left. split; [exact Hle | now apply Qle_bool_iff].
Qed.

Lemma Qltb_lt (x y : Q) : Qltb x y = true <-> x < y.
Proof.
  unfold Qltb. destruct (Qle_bool_cases y x) as [[Hle E] | [Hlt E]]; rewrite E; simpl.
  - split; [discriminate | lra].
  - tauto.
Qed.
End ExactComparators.

(** Case analysis on the comparisons of a goal over the rationals, closing
    the branches which are contradictory. *)
Ltac prune := try solve [exfalso; lra | exfalso; lia | discriminate | reflexivity].

Ltac split_cmp :=
  match goal with
  | H : context [Qeq_bool ?x ?y] |- _ =>
      destruct (Qeq_bool_cases x y) as [[? ?E] | [[? ?E] | [? ?E]]];
      rewrite ?E in *; clear E
  | |- context [Qeq_bool ?x ?y] =>
      destruct (Qeq_bool_cases x y) as [[? ?E] | [[? ?E] | [? ?E]]];
      rewrite ?E in *; clear E
  | H : context [Qle_bool ?x ?y] |- _ =>
      destruct (Qle_bool_cases x y) as [[? ?E] | [? ?E]];
      rewrite ?E in *; clear E
  | |- context [Qle_bool ?x ?y] =>
      destruct (Qle_bool_cases x y) as [[? ?E] | [? ?E]];
      rewrite ?E in *; clear E
  | H : context [Z.eqb ?x ?y] |- _ => destruct (Z.eqb_spec x y)
  | |- context [Z.eqb ?x ?y] => destruct (Z.eqb_spec x y)
  | H : context [Z.gtb ?x ?y] |- _ => destruct (Z.gtb_spec x y)
  | |- context [Z.gtb ?x ?y] => destruct (Z.gtb_spec x y)
  end; cbn [negb] in *; prune.

Ltac unfold_cmp :=
  unfold rankLess, displayLess, RanksBefore, ShownBefore;
  cbn [feqb fltb fleb exactQ]; unfold Qltb;
  repeat match goal with
         | a : SupportResistanceLevel Q |- _ => destruct a
         end;
  cbn [Price Strength Distance Score].

Section ExactRanking.
#[local] Open Scope Q_scope.

Lemma rankLess_asym s (a b : SupportResistanceLevel Q) :
  rankLess s a b = true -> rankLess s b a = false.
Proof. unfold_cmp. destruct s; intros Hab; repeat split_cmp. Qed.

Lemma rankLess_negtrans s (a b c : SupportResistanceLevel Q) :
  rankLess s a b = false -> rankLess s b c = false -> rankLess s a c = false.
Proof. unfold_cmp. destruct s; intros Hab Hbc; repeat split_cmp. Qed.

Lemma displayLess_asym s (a b : SupportResistanceLevel Q) :
  displayLess s a b = true -> displayLess s b a = false.
Proof. unfold_cmp. destruct s; intros Hab; repeat split_cmp. Qed.

Lemma displayLess_negtrans s (a b c : SupportResistanceLevel Q) :
  displayLess s a b = false -> displayLess s b c = false -> displayLess s a c = false.
Proof. unfold_cmp. destruct s; intros Hab Hbc; repeat split_cmp. Qed.

Lemma rankLess_spec s (a b : SupportResistanceLevel Q) :
  rankLess s a b = true <-> RanksBefore s a b.
Proof.
  unfold_cmp. destruct s; repeat split_cmp;
    split; intros Hr; try congruence;
    intuition (solve [exfalso; lra | exfalso; lia | lra | lia | congruence]).
Qed.

Lemma displayLess_spec s (a b : SupportResistanceLevel Q) :
  displayLess s a b = true <-> ShownBefore s a b.
Proof.
  unfold_cmp. destruct s; repeat split_cmp;
    split; intros Hr; try congruence;
    intuition (solve [exfalso; lra | exfalso; lia | lra | lia | congruence]).
Qed.

Lemma not_rankLess_spec s (a b : SupportResistanceLevel Q) :
  rankLess s a b = false <-> ~ RanksBefore s a b.
Proof.
  rewrite <- rankLess_spec. destruct (rankLess s a b); split; congruence.
Qed.

Lemma not_displayLess_spec s (a b : SupportResistanceLevel Q) :
  displayLess s a b = false <-> ~ ShownBefore s a b.
Proof.
  rewrite <- displayLess_spec. destruct (displayLess s a b); split; congruence.
Qed.

Lemma StronglySorted_weaken {A} (R R' : A -> A -> Prop) (l : list A) :
  (forall a b, R a b -> R' a b) -> StronglySorted R l -> StronglySorted R' l.
Proof.
  intros Himp. induction 1 as [| x l Hl IH Hx]; constructor; [exact IH |].
  rewrite List.Forall_forall in *. auto.
Qed.

(** In a strongly sorted list no element of the tail is related backwards
    to an element of the head. *)
Lemma StronglySorted_split {A} (R : A -> A -> Prop) (n : nat) (l : list A) :
  StronglySorted R l ->
  forall x y, In x (firstn n l) -> In y (skipn n l) -> R x y.
Proof.
  intros Hs. revert n. induction Hs as [| z l Hl IH Hz]; intros n x y Hx Hy.
  - destruct n; destruct Hx.
  - destruct n as [| n]; [destruct Hx |].
    cbn [firstn skipn] in Hx, Hy. destruct Hx as [<- | Hx].
    + rewrite List.Forall_forall in Hz. apply Hz.
      rewrite <- (firstn_skipn n l). apply in_or_app. now right.
    + now apply (IH n).
Qed.
End ExactRanking.

(** C5.  [sortAndFilterLevels] returns at most five levels (for every
    arithmetic); at exact arithmetic the five are the head of the input
    ranked by score descending, then strength descending, then distance
    ascending, then price (higher first for supports, lower first for
    resistances), so that no level left out ranks before a level kept; and
    the result is those levels re-sorted by distance ascending with the
    same price tie-break. *)
Theorem ranking_keeps_five_and_sorts_by_distance :
  (forall (F : Type) (ops : Float64Ops F) (levels : list (SupportResistanceLevel F))
          (isSupport : bool),
      (length (sortAndFilterLevels levels isSupport) <= 5)%nat
      /\ Permutation (insertionSort (rankLess isSupport) levels) levels
      /\ topRanked levels isSupport = firstn 5 (insertionSort (rankLess isSupport) levels)
      /\ Permutation (sortAndFilterLevels levels isSupport) (topRanked levels isSupport))
  /\ (forall (levels : list (SupportResistanceLevel Q)) (isSupport : bool),
        (forall a b, rankLess isSupport a b = true <-> RanksBefore isSupport a b)
        /\ (forall a b, displayLess isSupport a b = true <-> ShownBefore isSupport a b)
        /\ StronglySorted (fun a b => ~ RanksBefore isSupport b a)
                          (insertionSort (rankLess isSupport) levels)
        /\ (forall kept dropped,
               In kept (sortAndFilterLevels levels isSupport) ->
               In dropped (skipn 5 (insertionSort (rankLess isSupport) levels)) ->
               ~ RanksBefore isSupport dropped kept)
        /\ StronglySorted (fun a b => ~ ShownBefore isSupport b a)
                          (sortAndFilterLevels levels isSupport)).
Proof.
  split.
  - intros F ops levels isSupport. repeat split.
    + apply sortAndFilterLevels_length.
    + apply insertionSort_perm.
    + apply sortAndFilterLevels_perm.
  - intros levels isSupport.
    assert (Hranked : StronglySorted (fun a b => ~ RanksBefore isSupport b a)
                        (insertionSort (rankLess isSupport) levels)).
    { eapply StronglySorted_weaken;
        [| apply insertionSort_sorted;
           [apply rankLess_asym | apply rankLess_negtrans]].
      intros a b. apply not_rankLess_spec. }
    split; [apply rankLess_spec |].
    split; [apply displayLess_spec |].
    split; [exact Hranked |].
    split.
    + intros kept dropped Hkept Hdropped.
      apply (Permutation_in _ (sortAndFilterLevels_perm _ _)) in Hkept.
      exact (StronglySorted_split _ 5 _ Hranked kept dropped Hkept Hdropped).
    + rewrite sortAndFilterLevels_unfold.
      eapply StronglySorted_weaken;
        [| apply insertionSort_sorted;
           [apply displayLess_asym | apply displayLess_negtrans]].
      intros a b. apply not_displayLess_spec.
Qed.

Lemma ranking_keeps_five_and_sorts_by_distance_witness :
  map Score (sortAndFilterLevels sixResistances false)
  = map inject_Z [6; 5; 4; 3; 2]%Z
  /\ ~ RanksBefore false
         (mkLevel (inject_Z 109) 1 (inject_Z 6) (inject_Z 1) false)
         (mkLevel (inject_Z 108) 1 (inject_Z 5) (inject_Z 2) false).
Proof.
  destruct ranking_keeps_five_and_sorts_by_distance as [_ Hexact].
  destruct (Hexact sixResistances false) as (_ & _ & _ & Hkept & _).
  split; [reflexivity |].
  apply Hkept; vm_compute; tauto.
Defined.

(** ** Confluence: which base levels are promoted, and with what score *)

Section ConfluenceFacts.
Context {F : Type} `{Float64Ops F}.

Lemma find_first {A} (f : A -> bool) (l : list A) (x : A) :
  List.find f l = Some x ->
  exists skipped rest,
    l = skipped ++ x :: rest /\ f x = true /\ Forall (fun y => f y = false) skipped.
Proof.
  induction l as [| y l IH]; simpl; [discriminate |].
  destruct (f y) eqn:Hy.
  - intros [= ->]. exists [], l. repeat split; [exact Hy | constructor].
  - intros Hfind. destruct (IH Hfind) as (skipped & rest & -> & Hx & Hskip).
    exists (y :: skipped), rest. repeat split; [exact Hx | now constructor].
Qed.

Lemma firstMatch_None (level : SupportResistanceLevel F) sets tolerance :
  firstMatch level sets tolerance = None <-> noneWithin level sets tolerance.
Proof.
  unfold noneWithin. induction sets as [| set sets IH]; simpl.
  - split; [constructor | reflexivity].
  - destruct (List.find _ (levels set)) as [other |] eqn:Hfind.
    + split; [discriminate |]. intros Hall. inversion Hall as [| ? ? Hset _]; subst.
      apply find_some in Hfind as [Hin Hw].
      rewrite List.Forall_forall in Hset. rewrite (Hset _ Hin) in Hw. discriminate.
    + rewrite IH. split.
      * intros Hrest. constructor; [| exact Hrest].
        rewrite List.Forall_forall. intros o Ho.
        exact (find_none _ _ Hfind o Ho).
      * intros Hall. now inversion Hall.
Qed.

Lemma firstMatch_Some (level : SupportResistanceLevel F) sets tolerance other w :
  firstMatch level sets tolerance = Some (other, w) ->
  exists before set after skipped rest,
    sets = before ++ set :: after
    /\ levels set = skipped ++ other :: rest
    /\ w = setWeight set
    /\ noneWithin level before tolerance
    /\ Forall (fun o => withinTolerance level o tolerance = false) skipped
    /\ withinTolerance level other tolerance = true.
Proof.
  induction sets as [| set sets IH]; simpl; [discriminate |].
  destruct (List.find _ (levels set)) as [o |] eqn:Hfind.
  - intros [= -> <-].
    destruct (find_first _ _ _ Hfind) as (skipped & rest & Hl & Hw & Hskip).
    exists [], set, sets, skipped, rest. repeat split; try assumption. constructor.
  - intros Hm. destruct (IH Hm) as (before & set' & after & skipped & rest
                                    & -> & Hl & Hw & Hnone & Hskip & Hhit).
    exists (set :: before), set', after, skipped, rest.
    repeat split; try assumption.
    constructor; [| exact Hnone].
    rewrite List.Forall_forall. intros o Ho. exact (find_none _ _ Hfind o Ho).
Qed.

Lemma combineLevel_matched (level : SupportResistanceLevel F) sets tolerance :
  (exists combined, combineLevel level sets tolerance = Some combined)
  <-> exists set other, In set sets /\ In other (levels set)
                        /\ withinTolerance level other tolerance = true.
Proof.
  unfold combineLevel. split.
  - intros [combined Hc].
    destruct (firstMatch level sets tolerance) as [[other w] |] eqn:Hm; [| discriminate].
    destruct (firstMatch_Some _ _ _ _ _ Hm)
      as (before & set & after & skipped & rest & -> & Hl & _ & _ & _ & Hhit).
    exists set, other. repeat split; [| | exact Hhit].
    + apply in_or_app. right. now left.
    + rewrite Hl. apply in_or_app. right. now left.
  - intros (set & other & Hset & Hother & Hhit).
    destruct (firstMatch level sets tolerance) as [[o w] |] eqn:Hm; [eauto |].
    apply firstMatch_None in Hm. unfold noneWithin in Hm.
    rewrite List.Forall_forall in Hm. specialize (Hm _ Hset).
    rewrite List.Forall_forall in Hm. rewrite (Hm _ Hother) in Hhit. discriminate.
Qed.

Lemma confluenceCandidates_spec base sets tolerance :
  forall acc c,
    In c (fold_left (fun result level =>
                       match combineLevel level sets tolerance with
                       | Some combined => result ++ [combined]
                       | None => result
                       end) base acc)
    <-> In c acc \/ exists level, In level base
                                  /\ combineLevel level sets tolerance = Some c.
Proof.
  induction base as [| b base IH]; intros acc c; simpl.
  - split; [now left | intros [Hc | (? & [] & _)]; exact Hc].
  - rewrite IH. destruct (combineLevel b sets tolerance) as [cb |] eqn:Hb.
    + rewrite in_app_iff. simpl. split.
      * intros [[Hc | [<- | []]] | (level & Hl & Hc)]; eauto 6.
      * intros [Hc | (level & [<- | Hl] & Hc)]; eauto 6.
        left. right. left. congruence.
    + split.
      * intros [Hc | (level & Hl & Hc)]; eauto 6.
      * intros [Hc | (level & [<- | Hl] & Hc)]; eauto 6. congruence.
Qed.

Lemma confluenceCandidates_length base sets tolerance :
  (length (confluenceCandidates base sets tolerance) <= length base)%nat.
Proof.
  unfold confluenceCandidates.
  assert (Hgen : forall acc,
             (length (fold_left (fun result level =>
                                   match combineLevel level sets tolerance with
                                   | Some combined => result ++ [combined]
                                   | None => result
                                   end) base acc)
              <= length acc + length base)%nat).
  { induction base as [| b base IH]; intros acc; simpl; [lia |].
    specialize (IH (match combineLevel b sets tolerance with
                    | Some combined => acc ++ [combined]
                    | None => acc
                    end)).
    destruct (combineLevel b sets tolerance); [rewrite length_app in IH; simpl in IH |]; lia. }
  apply (Hgen []).
Qed.

Lemma updateLevelDistances_length (levels : list (SupportResistanceLevel F)) p s :
  length (updateLevelDistances levels p s) = length levels.
Proof.
  unfold updateLevelDistances. destruct (fleb p (ofZ 0)); [reflexivity | apply length_map].
Qed.

Lemma updateLevelDistances_In (levels : list (SupportResistanceLevel F)) p s out :
  In out (updateLevelDistances levels p s)
  <-> exists c, In c levels /\ In out (updateLevelDistances [c] p s).
Proof.
  unfold updateLevelDistances. destruct (fleb p (ofZ 0)).
  - split; [intros Hin; exists out; split; [exact Hin | now left] |].
    intros (c & Hc & [<- | []]). exact Hc.
  - rewrite in_map_iff. split.
    + intros (c & <- & Hc). exists c. split; [exact Hc | now left].
    + intros (c & Hc & [<- | []]). eauto.
Qed.

Lemma collectSets_spec timeframes baseName :
  collectSets timeframes baseName
  = (setsFor Supports timeframes baseName weighting,
     setsFor Resistances timeframes baseName weighting).
Proof.
  unfold collectSets.
  assert (Hgen : forall table ss rs,
             fold_left (fun '(supportSets, resistanceSets) '(name, w) =>
                 if String.eqb name baseName then (supportSets, resistanceSets)
                 else match timeframes !! name with
                      | Some tf => (supportSets ++ [mkSet (Supports tf) w],
                                    resistanceSets ++ [mkSet (Resistances tf) w])
                      | None => (supportSets, resistanceSets)
                      end) table (ss, rs)
             = (ss ++ setsFor Supports timeframes baseName table,
                rs ++ setsFor Resistances timeframes baseName table)).
  { induction table as [| [name w] table IH]; intros ss rs; simpl.
    - now rewrite !app_nil_r.
    - destruct (String.eqb name baseName); [apply IH |].
      destruct (timeframes !! name) as [tf |]; simpl; [| apply IH].
      rewrite IH, <- !app_assoc. reflexivity. }
  apply (Hgen weighting [] []).
Qed.
Lemma chooseBase_Some (timeframes : gmap string (SupportResistanceTimeframe F))
      (baseOrder : list string) baseName base :
  chooseBase timeframes baseOrder = Some (baseName, base) ->
  In baseName baseOrder /\ timeframes !! baseName = Some base.
Proof.
  induction baseOrder as [| name rest IH]; simpl; [discriminate |].
  destruct (timeframes !! name) as [tf |] eqn:Htf.
  - intros [= <- <-]. split; [now left | exact Htf].
  - intros Hc. destruct (IH Hc). split; [now right | assumption].
Qed.
(** Every list a timeframe table holds went through [sortAndFilterLevels]:
    at most five levels. *)
Lemma calculateSupportResistanceLevels_length (klines : list (Kline F)) (lookback : nat) :
  (length (fst (calculateSupportResistanceLevels klines lookback)) <= 5)%nat
  /\ (length (snd (calculateSupportResistanceLevels klines lookback)) <= 5)%nat.
Proof.
  unfold calculateSupportResistanceLevels.
  destruct (length klines =? 0)%nat; [simpl; lia |].
  destruct (last (recentWindow klines lookback)); [| simpl; lia].
  destruct (fold_left _ (indexed _) _) as [ss rs]. cbn [fst snd].
  split; apply sortAndFilterLevels_length.
Qed.

Lemma timeframes_at_most_five (todo : list (string * list (Kline F)))
      (timeframes : gmap string (SupportResistanceTimeframe F)) :
  (forall name tf, timeframes !! name = Some tf ->
                   (length (Supports tf) <= 5)%nat /\ (length (Resistances tf) <= 5)%nat) ->
  forall name tf,
    fold_left addTimeframe todo timeframes !! name = Some tf ->
    (length (Supports tf) <= 5)%nat /\ (length (Resistances tf) <= 5)%nat.
Proof.
  revert timeframes. induction todo as [| [n klines] todo IH]; intros timeframes Hinv;
    cbn [fold_left]; [exact Hinv |].
  apply IH. unfold addTimeframe.
  destruct (length klines =? 0)%nat; [exact Hinv |].
  pose proof (calculateSupportResistanceLevels_length klines supportResistanceLookback)
    as [Hs Hr].
  destruct (calculateSupportResistanceLevels klines supportResistanceLookback)
    as [supports resistances].
  destruct (_ && _); [exact Hinv |].
  destruct (last klines) as [lastCandle |]; [| exact Hinv].
  intros name tf. rewrite lookup_insert.
  destruct (decide (n = name)); [| apply Hinv].
  intros [= <-]. cbn [Supports Resistances fst snd] in *.
  now rewrite !updateLevelDistances_length.
Qed.
End ConfluenceFacts.

(** C3.  For a base timeframe of at most five levels (what
    [sortAndFilterLevels] hands to the aggregator): a level is in the
    confluence output exactly when it is a base level, discounted and
    reinforced, with its distance recomputed; a base level is reinforced
    exactly when some level of some other timeframe is within tolerance; the
    hit that counts is the first level within tolerance of the first set, in
    the order of the weight table 0.8 .. 1.8, which has one; and the result
    has score [Score level * 0.5 + Score other * weight] and strength
    [round (Strength level * 0.5) + round (Strength other * weight)]. *)
Theorem confluence_promotes_on_first_match :
  forall (F : Type) (ops : Float64Ops F)
         (base : list (SupportResistanceLevel F)) (sets : list (weightedLevelSet F))
         (tolerance currentPrice : F) (isSupport : bool),
    (length base <= 5)%nat ->
    (forall out,
        In out (findConfluenceLevels base sets tolerance currentPrice isSupport)
        <-> exists level combined,
            In level base
            /\ combineLevel level sets tolerance = Some combined
            /\ In out (updateLevelDistances [combined] currentPrice isSupport))
    /\ (forall level,
          (exists combined, combineLevel level sets tolerance = Some combined)
          <-> exists set other,
              In set sets /\ In other (levels set)
              /\ withinTolerance level other tolerance = true)
    /\ (forall level combined,
          combineLevel level sets tolerance = Some combined ->
          exists before set after skipped other rest,
            sets = before ++ set :: after
            /\ levels set = skipped ++ other :: rest
            /\ noneWithin level before tolerance
            /\ Forall (fun o => withinTolerance level o tolerance = false) skipped
            /\ withinTolerance level other tolerance = true
            /\ Price combined = Price level
            /\ IsSupport combined = IsSupport level
            /\ Score combined
               = fadd (fmul (Score level) (lit 1 2)) (fmul (Score other) (setWeight set))
            /\ Strength combined
               = (roundZ (fmul (ofZ (Strength level)) (lit 1 2))
                  + roundZ (fmul (ofZ (Strength other)) (setWeight set)))%Z)
    /\ (forall timeframes baseName,
          collectSets timeframes baseName
          = (setsFor Supports timeframes baseName weighting,
             setsFor Resistances timeframes baseName weighting))
    /\ map snd (weighting (F := F))
       = [lit 8 10; ofZ 1; lit 12 10; lit 14 10; lit 16 10; lit 18 10]
    /\ confluenceTolerance (F := F) = lit 2 1000
    /\ (forall klines3m klines15m klines1h klines4h klines12h klines1d name tf,
          chooseBase
            (fold_left addTimeframe
                       (namedInputs klines3m klines15m klines1h klines4h klines12h klines1d)
                       ∅)
            ["3m"%string; "15m"%string; "1h"%string; "4h"%string] = Some (name, tf) ->
          (length (Supports tf) <= 5)%nat /\ (length (Resistances tf) <= 5)%nat).
Proof.
  intros F ops base sets tolerance currentPrice isSupport Hlen.
  split; [| split; [| split; [| split; [| split; [| split]]]]];
    [| | | apply collectSets_spec | reflexivity | reflexivity |].
  4: { intros klines3m klines15m klines1h klines4h klines12h klines1d name tf Hbase.
       apply chooseBase_Some in Hbase as [_ Hlookup].
       eapply timeframes_at_most_five; [| exact Hlookup].
       intros n t. rewrite lookup_empty. discriminate. }
  - intros out. unfold findConfluenceLevels.
    destruct base as [| b0 base'] eqn:Hbase.
    { simpl. split; [intros [] | intros (level & _ & [] & _)]. }
    rewrite <- Hbase in *. replace (length base =? 0)%nat with false
      by (rewrite Hbase; reflexivity).
    destruct sets as [| s0 sets'] eqn:Hsets.
    { simpl. split; [intros [] | intros (level & c & _ & Hc & _)]. discriminate. }
    rewrite <- Hsets in *. replace (length sets =? 0)%nat with false
      by (rewrite Hsets; reflexivity).
    cbn [orb].
    pose proof (confluenceCandidates_length base sets tolerance) as Hcl.
    assert (Hcand : forall c, In c (confluenceCandidates base sets tolerance)
                              <-> exists level, In level base
                                  /\ combineLevel level sets tolerance = Some c).
    { intros c. unfold confluenceCandidates. rewrite confluenceCandidates_spec.
      split; [intros [[] | Hc]; exact Hc | now right]. }
    destruct (confluenceCandidates base sets tolerance) as [| c0 cands] eqn:Hc.
    + simpl. split; [intros [] |].
      intros (level & c & Hl & Hcomb & _).
      apply (proj2 (Hcand c)). eauto.
    + rewrite <- Hc in *. replace (length (confluenceCandidates base sets tolerance) =? 0)%nat
        with false by (rewrite Hc; reflexivity).
      assert (Hperm : Permutation
                        (sortAndFilterLevels
                           (updateLevelDistances (confluenceCandidates base sets tolerance)
                                                 currentPrice isSupport) isSupport)
                        (updateLevelDistances (confluenceCandidates base sets tolerance)
                                              currentPrice isSupport)).
      { apply sortAndFilterLevels_small. rewrite updateLevelDistances_length. lia. }
      split.
      * intros Hin. apply (Permutation_in _ Hperm) in Hin.
        apply updateLevelDistances_In in Hin as (c & Hcin & Hout).
        apply Hcand in Hcin as (level & Hl & Hcomb). eauto.
      * intros (level & c & Hl & Hcomb & Hout).
        apply (Permutation_in _ (Permutation_sym Hperm)).
        apply updateLevelDistances_In. exists c. split; [| exact Hout].
        apply Hcand. eauto.
  - intros level. apply combineLevel_matched.
  - intros level combined. unfold combineLevel.
    destruct (firstMatch level sets tolerance) as [[other w] |] eqn:Hm; [| discriminate].
    intros [= <-].
    destruct (firstMatch_Some _ _ _ _ _ Hm)
      as (before & set & after & skipped & rest & Hs & Hl & -> & Hnone & Hskip & Hhit).
    exists before, set, after, skipped, other, rest.
    repeat split; assumption.
Qed.

Lemma confluence_promotes_on_first_match_witness :
  In (distanceTo (ofZ 101) true (reinforced (discounted sampleBase) sampleNear (lit 12 10)))
     (findConfluenceLevels (F := float) [sampleBase] sampleSets confluenceTolerance
                           (ofZ 101) true).
Proof.
  destruct (confluence_promotes_on_first_match float binary64 [sampleBase] sampleSets
              confluenceTolerance (ofZ 101) true) as (Hin & _).
  - simpl. lia.
  - apply Hin.
    exists sampleBase, (reinforced (discounted sampleBase) sampleNear (lit 12 10)).
    split; [now left |].
    split; [vm_compute; reflexivity | vm_compute; now left].
Defined.

(** ** RSI *)

Ltac to_Q := cbn [fadd fsub fmul fdiv fneg fabs feqb fltb fleb ofZ exactQ] in *.

Section ExactRSI.
#[local] Open Scope Q_scope.

Lemma Qdiv_nonneg (a b : Q) : 0 <= a -> 0 < b -> 0 <= a / b.
Proof. intros Ha Hb. apply Qle_shift_div_l; [exact Hb | lra]. Qed.

Lemma Qdiv_zero (a b : Q) : a == 0 -> a / b == 0.
Proof. intros ->. unfold Qdiv. ring. Qed.

Lemma closeChanges_nondecreasing (klines : list (Kline Q)) :
  NonDecreasingCloses klines -> Forall (fun ch => 0 <= ch) (closeChanges klines).
Proof.
  induction klines as [| prev [| cur rest] IH]; simpl; try constructor.
  - destruct H as [Hle _]. to_Q. lra.
  - apply IH. now destruct H.
Qed.

Lemma increasing_nondecreasing (klines : list (Kline Q)) :
  StrictlyIncreasingCloses klines -> NonDecreasingCloses klines.
Proof.
  induction klines as [| prev [| cur rest] IH]; simpl; try tauto.
  intros [Hlt Hrest]. split; [lra | now apply IH].
Qed.

Lemma constant_nondecreasing (c : Q) (klines : list (Kline Q)) :
  Forall (fun k => Close k == c) klines -> NonDecreasingCloses klines.
Proof.
  induction 1 as [| prev l Hprev Hl IH]; simpl; [exact I |].
  destruct l as [| cur rest]; [exact I |].
  split; [| exact IH]. inversion Hl; subst. lra.
Qed.

(** Both loops keep the two accumulators non-negative, and keep the loss
    accumulator at zero as long as no change is negative. *)
Lemma rsiSeed_invariant (changes : list Q) (acc : Q * Q) :
  0 <= fst acc -> 0 <= snd acc ->
  let r := fold_left (fun '(gains, losses) change =>
                        if fltb (ofZ 0) change then (fadd gains change, losses)
                        else (gains, fadd losses (fneg change)))
                     changes acc in
  0 <= fst r /\ 0 <= snd r
  /\ (Forall (fun ch => 0 <= ch) changes -> snd acc == 0 -> snd r == 0).
Proof.
  revert acc. induction changes as [| ch changes IH]; intros [g l] Hg Hl; simpl in *.
  - repeat split; auto.
  - to_Q. unfold Qltb.
    destruct (Qle_bool_cases ch (inject_Z 0)) as [[Hle E] | [Hlt E]];
      rewrite E; cbn [negb].
    + destruct (IH (g, l + - ch)) as (H1 & H2 & H3); simpl; [lra | change (inject_Z 0) with 0 in Hle; lra |].
      repeat split; auto. intros Hall Hz. inversion Hall; subst.
      apply H3; [assumption |]. simpl. change (inject_Z 0) with 0 in Hle. lra.
    + destruct (IH (g + ch, l)) as (H1 & H2 & H3); simpl; [change (inject_Z 0) with 0 in Hlt; lra | lra |].
      repeat split; auto. intros Hall Hz. inversion Hall; subst. now apply H3.
Qed.

Lemma rsiSmooth_invariant (period : nat) (changes : list Q) (acc : Q * Q) :
  (0 < period)%nat ->
  0 <= fst acc -> 0 <= snd acc ->
  let r := rsiSmooth period changes acc in
  0 <= fst r /\ 0 <= snd r
  /\ (Forall (fun ch => 0 <= ch) changes -> snd acc == 0 -> snd r == 0).
Proof.
  intros Hp. unfold rsiSmooth.
  assert (Hp0 : 0 < inject_Z (Z.of_nat period)).
  { change 0 with (inject_Z 0). rewrite <- Zlt_Qlt. lia. }
  assert (Hp1 : 0 <= inject_Z (Z.of_nat period - 1)).
  { change 0 with (inject_Z 0). rewrite <- Zle_Qle. lia. }
  revert acc. induction changes as [| ch changes IH]; intros [g l] Hg Hl; simpl in *.
  - repeat split; auto.
  - to_Q. unfold Qltb.
    destruct (Qle_bool_cases ch (inject_Z 0)) as [[Hle E] | [Hlt E]];
      rewrite E; cbn [negb]; change (inject_Z 0) with 0 in *.
    + destruct (IH (g * inject_Z (Z.of_nat period - 1) / inject_Z (Z.of_nat period),
                    (l * inject_Z (Z.of_nat period - 1) + - ch) / inject_Z (Z.of_nat period)))
        as (H1 & H2 & H3); simpl.
      * apply Qdiv_nonneg; [nra | exact Hp0].
      * apply Qdiv_nonneg; [nra | exact Hp0].
      * repeat split; auto. intros Hall Hz. inversion Hall; subst.
        apply H3; [assumption |]. simpl. apply Qdiv_zero. rewrite Hz.
        assert (ch == 0) as -> by lra. ring.
    + destruct (IH ((g * inject_Z (Z.of_nat period - 1) + ch) / inject_Z (Z.of_nat period),
                    l * inject_Z (Z.of_nat period - 1) / inject_Z (Z.of_nat period)))
        as (H1 & H2 & H3); simpl.
      * apply Qdiv_nonneg; [nra | exact Hp0].
      * apply Qdiv_nonneg; [nra | exact Hp0].
      * repeat split; auto. intros Hall Hz. inversion Hall; subst.
        apply H3; [assumption |]. simpl. apply Qdiv_zero. rewrite Hz. ring.
Qed.

Lemma rsiAverages_invariant (klines : list (Kline Q)) (period : nat) :
  (0 < period)%nat ->
  0 <= fst (rsiAverages klines period) /\ 0 <= snd (rsiAverages klines period)
  /\ (NonDecreasingCloses klines -> snd (rsiAverages klines period) == 0).
Proof.
  intros Hp. unfold rsiAverages.
  assert (Hp0 : 0 < inject_Z (Z.of_nat period)).
  { change 0 with (inject_Z 0). rewrite <- Zlt_Qlt. lia. }
  pose proof (rsiSeed_invariant (firstn period (closeChanges klines)) (ofZ 0, ofZ 0))
    as Hseed.
  fold (rsiSeed (firstn period (closeChanges klines))) in Hseed.
  destruct (rsiSeed (firstn period (closeChanges klines))) as [gains losses].
  destruct Hseed as (Hg & Hl & Hz); [apply Qle_refl | apply Qle_refl |].
  simpl in Hg, Hl, Hz. to_Q.
  destruct (rsiSmooth_invariant period (skipn period (closeChanges klines))
              (gains / inject_Z (Z.of_nat period), losses / inject_Z (Z.of_nat period)) Hp)
    as (H1 & H2 & H3); simpl.
  - now apply Qdiv_nonneg.
  - now apply Qdiv_nonneg.
  - repeat split; auto. intros Hnd.
    apply closeChanges_nondecreasing in Hnd.
    apply H3; [now apply Forall_drop |].
    apply Qdiv_zero. apply Hz; [now apply Forall_take | reflexivity].
Qed.
End ExactRSI.

Section RSIResult.
Context {F : Type} `{Float64Ops F}.

Lemma calculateRSI_unfold (klines : list (Kline F)) (period : nat) :
  (period < length klines)%nat ->
  calculateRSI klines period
  = if feqb (snd (rsiAverages klines period)) (ofZ 0) then ofZ 100
    else fsub (ofZ 100)
              (fdiv (ofZ 100)
                    (fadd (ofZ 1) (fdiv (fst (rsiAverages klines period))
                                        (snd (rsiAverages klines period))))).
Proof.
  intros Hlen. unfold calculateRSI.
  destruct (Nat.leb_spec (length klines) period); [lia |].
  now destruct (rsiAverages klines period).
Qed.
End RSIResult.

(** The loops of [calculateRSI] compute the Wilder-smoothed averages of the
    specification. *)
Section ExactRSISpec.
#[local] Open Scope Q_scope.

Lemma closeChanges_deltas (klines : list (Kline Q)) :
  closeChanges klines = closeDeltas klines.
Proof.
  unfold closeDeltas. destruct klines as [| prev rest]; [reflexivity |].
  cbn [List.tl]. revert prev.
  induction rest as [| cur rest IH]; intros prev; [reflexivity |].
  change (closeChanges (prev :: cur :: rest))
    with (fsub (Close cur) (Close prev) :: closeChanges (cur :: rest)).
  rewrite (IH cur). reflexivity.
Qed.

Lemma gainOf_rise (delta : Q) : 0 < delta -> gainOf delta == delta /\ lossOf delta == 0.
Proof.
  intros Hd. unfold gainOf, lossOf. split; [apply Q.max_l | apply Q.max_r]; lra.
Qed.

Lemma gainOf_fall (delta : Q) : delta <= 0 -> gainOf delta == 0 /\ lossOf delta == - delta.
Proof.
  intros Hd. unfold gainOf, lossOf. split; [apply Q.max_r | apply Q.max_l]; lra.
Qed.

Lemma gainOf_nonneg (delta : Q) : 0 <= gainOf delta /\ 0 <= lossOf delta.
Proof. unfold gainOf, lossOf. split; apply Q.le_max_r. Qed.

(** The first loop adds up the gains and the losses. *)
Lemma rsiSeed_sums (changes : list Q) (acc : Q * Q) :
  let r := fold_left (fun '(gains, losses) change =>
                        if fltb (ofZ 0) change then (fadd gains change, losses)
                        else (gains, fadd losses (fneg change)))
                     changes acc in
  fst r == fst acc + sumQ (map gainOf changes)
  /\ snd r == snd acc + sumQ (map lossOf changes).
Proof.
  revert acc. induction changes as [| ch changes IH]; intros [g l]; cbn [fold_left].
  - cbn [fst snd map sumQ fold_right]. split; ring.
  - to_Q. cbn [map sumQ fold_right]. fold (sumQ (map gainOf changes)).
    fold (sumQ (map lossOf changes)).
    destruct (Qltb (inject_Z 0) ch) eqn:E.
    + apply Qltb_lt in E. change (inject_Z 0) with 0 in E.
      destruct (gainOf_rise ch E) as [Eg El].
      destruct (IH (g + ch, l)) as [IHg IHl]. cbn [fst snd] in *.
      split; [rewrite IHg, Eg; ring | rewrite IHl, El; ring].
    + assert (Hle : ch <= 0).
      { destruct (Qlt_le_dec 0 ch) as [Hlt | Hle]; [| exact Hle].
        apply Qltb_lt in Hlt. change (inject_Z 0) with 0 in E. congruence. }
      destruct (gainOf_fall ch Hle) as [Eg El].
      destruct (IH (g, l + - ch)) as [IHg IHl]. cbn [fst snd] in *.
      split; [rewrite IHg, Eg; ring | rewrite IHl, El; ring].
Qed.

(** The second loop smooths the two averages the way [wilderStep] does. *)
Lemma rsiSmooth_wilder (period : nat) (changes : list Q) :
  (0 < period)%nat ->
  forall (acc : Q * Q) (avgGain avgLoss : Q),
    fst acc == avgGain -> snd acc == avgLoss ->
    fst (rsiSmooth period changes acc)
    == fold_left (wilderStep period) (map gainOf changes) avgGain
    /\ snd (rsiSmooth period changes acc)
       == fold_left (wilderStep period) (map lossOf changes) avgLoss.
Proof.
  intros Hp. unfold rsiSmooth.
  assert (Hp0 : 0 < inject_Z (Z.of_nat period)).
  { change 0 with (inject_Z 0). rewrite <- Zlt_Qlt. lia. }
  assert (Hp1 : inject_Z (Z.of_nat period - 1) == inject_Z (Z.of_nat period) - 1).
  { unfold Z.sub. rewrite inject_Z_plus. reflexivity. }
  induction changes as [| ch changes IH]; intros [g l] avgGain avgLoss Hg Hl;
    cbn [fold_left map]; [now split |].
  cbn [fst snd] in Hg, Hl. to_Q.
  destruct (Qltb (inject_Z 0) ch) eqn:E.
  - apply Qltb_lt in E. change (inject_Z 0) with 0 in E.
    destruct (gainOf_rise ch E) as [Eg El].
    apply IH; cbn [fst snd]; unfold wilderStep.
    + rewrite Hg, Eg, Hp1. reflexivity.
    + rewrite Hl, El, Hp1. field. lra.
  - assert (Hle : ch <= 0).
    { destruct (Qlt_le_dec 0 ch) as [Hlt | Hle]; [| exact Hle].
      apply Qltb_lt in Hlt. change (inject_Z 0) with 0 in E. congruence. }
    destruct (gainOf_fall ch Hle) as [Eg El].
    apply IH; cbn [fst snd]; unfold wilderStep.
    + rewrite Hg, Eg, Hp1. field. lra.
    + rewrite Hl, El, Hp1. reflexivity.
Qed.

Lemma rsiAverages_wilder (klines : list (Kline Q)) (period : nat) :
  (0 < period)%nat ->
  fst (rsiAverages klines period) == wilderAvgGain klines period
  /\ snd (rsiAverages klines period) == wilderAvgLoss klines period.
Proof.
  intros Hp. unfold rsiAverages, wilderAvgGain, wilderAvgLoss, wilderAverage.
  rewrite <- closeChanges_deltas, !firstn_map, !skipn_map.
  pose proof (rsiSeed_sums (firstn period (closeChanges klines)) (ofZ 0, ofZ 0))
    as Hseed.
  fold (rsiSeed (firstn period (closeChanges klines))) in Hseed.
  destruct (rsiSeed (firstn period (closeChanges klines))) as [gains losses].
  cbn zeta in Hseed. cbn [fst snd] in Hseed. destruct Hseed as [Hg Hl].
  to_Q. change (inject_Z 0) with 0 in Hg, Hl.
  apply rsiSmooth_wilder; [exact Hp | cbn [fst] | cbn [snd]].
  - rewrite Hg. field. intros Hz.
    assert (Hp0 : 0 < inject_Z (Z.of_nat period))
      by (change 0 with (inject_Z 0); rewrite <- Zlt_Qlt; lia).
    lra.
  - rewrite Hl. field. intros Hz.
    assert (Hp0 : 0 < inject_Z (Z.of_nat period))
      by (change 0 with (inject_Z 0); rewrite <- Zlt_Qlt; lia).
    lra.
Qed.
End ExactRSISpec.

(** C6 as stated fails in float64, where the sums of the first loop can
    overflow: on the five finite, non-negative closes 0, 2^1023, 0, 2^1023,
    0 and period 4 both sums are infinite, the average loss is not zero,
    the ratio of the averages is not a number, and neither is the result,
    which is therefore not in [0, 100]. *)
Lemma rsi_overflows_in_binary64 :
  (4 < length swingingKlines)%nat
  /\ Forall (fun k => PrimFloat.leb (ofZ 0) (Close k) = true
                      /\ PrimFloat.ltb (Close k) infinity = true) swingingKlines
  /\ rsiAverages swingingKlines 4 = (infinity, infinity)
  /\ feqb (snd (rsiAverages swingingKlines 4)) (ofZ 0) = false
  /\ PrimFloat.is_nan (calculateRSI swingingKlines 4) = true
  /\ fleb (ofZ 0) (calculateRSI swingingKlines 4) = false
  /\ fleb (calculateRSI swingingKlines 4) (ofZ 100) = false.
Proof.
  split; [vm_compute; lia |].
  split; [repeat constructor |].
  repeat split; vm_compute; reflexivity.
Qed.

(** C6, amended.  In exact arithmetic, with [period >= 1] and more than
    [period] candles: the two averages [calculateRSI] computes are the
    Wilder-smoothed averages of the gains and of the losses of the
    specification (initialised from the first [period] deltas, then
    [avg = (avg * (period - 1) + x) / period] over the remainder), both
    non-negative.  [calculateRSI] returns exactly 100 when the average
    loss is zero, which is the case on every strictly increasing and on
    every constant close series; otherwise it returns
    [100 - 100 / (1 + avgGain / avgLoss)]; and the result lies in
    [0, 100]. *)
Theorem rsi_hundred_without_losses :
  forall (klines : list (Kline Q)) (period : nat),
    (0 < period)%nat ->
    (period < length klines)%nat ->
    let avgGain := wilderAvgGain klines period in
    let avgLoss := wilderAvgLoss klines period in
    (fst (rsiAverages klines period) == avgGain)%Q
    /\ (snd (rsiAverages klines period) == avgLoss)%Q
    /\ (0 <= avgGain)%Q /\ (0 <= avgLoss)%Q
    /\ ((avgLoss == 0)%Q -> calculateRSI klines period = inject_Z 100)
    /\ (~ (avgLoss == 0)%Q ->
        (calculateRSI klines period == 100 - 100 / (1 + avgGain / avgLoss))%Q)
    /\ (StrictlyIncreasingCloses klines ->
        (avgLoss == 0)%Q /\ calculateRSI klines period = inject_Z 100)
    /\ (forall c, Forall (fun k => (Close k == c)%Q) klines ->
                  (avgLoss == 0)%Q /\ calculateRSI klines period = inject_Z 100)
    /\ (0 <= calculateRSI klines period <= 100)%Q.
Proof.
  intros klines period Hpos Hlen avgGain avgLoss.
  destruct (rsiAverages_wilder klines period Hpos) as [Hgain Hloss].
  fold avgGain in Hgain. fold avgLoss in Hloss.
  pose proof (rsiAverages_invariant klines period Hpos) as (Hg & Hl & Hzero).
  rewrite (calculateRSI_unfold klines period Hlen).
  destruct (rsiAverages klines period) as [g l]. cbn [fst snd] in *.
  to_Q. change (inject_Z 0) with 0%Q in *. change (inject_Z 1) with 1%Q.
  assert (Hhundred : (avgLoss == 0)%Q ->
            (if Qeq_bool l 0 then inject_Z 100
             else inject_Z 100 - inject_Z 100 / (1 + g / l))%Q = inject_Z 100).
  { intros Hz. assert (El : Qeq_bool l 0 = true) by (apply Qeq_bool_iff; lra).
    now rewrite El. }
  split; [exact Hgain |]. split; [exact Hloss |].
  split; [lra |]. split; [lra |].
  split; [exact Hhundred |].
  split.
  { intros Hnz.
    destruct (Qeq_bool_cases l 0) as [[Hz E] | [[Hneg E] | [Hposl E]]]; rewrite E;
      [exfalso; apply Hnz; lra | exfalso; lra |].
    change (inject_Z 100) with 100%Q.
    assert (Hal : (0 < avgLoss)%Q) by lra.
    assert (Hr : (g / l == avgGain / avgLoss)%Q).
    { rewrite Hgain, Hloss. reflexivity. }
    rewrite Hr. reflexivity. }
  split.
  { intros Hinc.
    assert (Hz : (avgLoss == 0)%Q)
      by (rewrite <- Hloss; apply Hzero, increasing_nondecreasing, Hinc).
    split; [exact Hz | exact (Hhundred Hz)]. }
  split.
  { intros c Hc.
    assert (Hz : (avgLoss == 0)%Q)
      by (rewrite <- Hloss; apply Hzero; eapply constant_nondecreasing, Hc).
    split; [exact Hz | exact (Hhundred Hz)]. }
  destruct (Qeq_bool_cases l 0) as [[Hz E] | [[Hneg E] | [Hposl E]]]; rewrite E.
  - change (inject_Z 100) with 100%Q. lra.
  - exfalso. lra.
  - assert (Hrs : (0 <= g / l)%Q) by now apply Qdiv_nonneg.
    change (inject_Z 100) with 100%Q.
    assert (Hq : (0 <= 100 / (1 + g / l))%Q) by (apply Qdiv_nonneg; lra).
    assert (Hq' : (100 / (1 + g / l) <= 100)%Q)
      by (apply Qle_shift_div_r; lra).
    split; lra.
Qed.

Lemma rsi_hundred_without_losses_witness :
  calculateRSI (F := Q) (map (fun c => closeOnly (inject_Z c)) [1; 2; 3; 5; 8]%Z) 3
  = inject_Z 100
  /\ (calculateRSI (F := Q) exampleKlines 7
      == 100 - 100 / (1 + wilderAvgGain exampleKlines 7 / wilderAvgLoss exampleKlines 7))%Q
  /\ (0 <= calculateRSI (F := Q) exampleKlines 7 <= 100)%Q.
Proof.
  assert (Hrising : (3 < length (map (fun c => closeOnly (F := Q) (inject_Z c))
                                     [1; 2; 3; 5; 8]%Z))%nat) by (simpl; lia).
  assert (Hexample : (7 < length (exampleKlines (F := Q)))%nat) by (simpl; lia).
  pose proof (rsi_hundred_without_losses
                (map (fun c => closeOnly (inject_Z c)) [1; 2; 3; 5; 8]%Z) 3%nat
                ltac:(lia) Hrising) as Hup.
  pose proof (rsi_hundred_without_losses exampleKlines 7%nat ltac:(lia) Hexample) as Hex.
  cbv zeta in Hup, Hex.
  destruct Hup as (_ & _ & _ & _ & _ & _ & Hinc & _).
  destruct Hex as (_ & _ & _ & _ & _ & Hformula & _ & _ & Hrange).
  split; [| split].
  - apply Hinc. simpl. repeat split; reflexivity.
  - apply Hformula. vm_compute. discriminate.
  - exact Hrange.
Defined.

(** ** Merging two nearby levels *)

(** C4 as stated fails twice.  In float64 the merged price is the
    score-weighted average only up to rounding and can leave the interval
    of the inputs: two levels at 0.1 with scores 1 and 2 merge at
    0.10000000000000002.  And when the total score is not positive only
    the divisor changes (to the total strength, or to 1) while the
    numerator stays score-weighted: two levels at 100 and 100.1 with zero
    scores and strength 1 merge at price 0, not at their strength-weighted
    average 100.05. *)
Lemma merge_two_levels_counterexample :
  (exists m,
      mergeNearbyLevels (F := float) [twinOne; twinTwo] (lit 2 1000) = [m]
      /\ Price m = PrimFloat.next_up (lit 1 10)
      /\ fltb (Price twinOne) (Price m) = true
      /\ fltb (Price twinTwo) (Price m) = true)
  /\ (exists m,
        mergeNearbyLevels (F := float) [unscoredLow; unscoredHigh] (lit 2 1000) = [m]
        /\ fleb (fadd (Score unscoredLow) (Score unscoredHigh)) (ofZ 0) = true
        /\ Price m = ofZ 0
        /\ feqb (Price m)
                (fdiv (fadd (fmul (Price unscoredLow) (ofZ (Strength unscoredLow)))
                            (fmul (Price unscoredHigh) (ofZ (Strength unscoredHigh))))
                      (ofZ (Strength unscoredLow + Strength unscoredHigh))) = false
        /\ fltb (Price m) (Price unscoredLow) = true).
Proof.
  split.
  - eexists. split; [vm_compute; reflexivity |]. repeat split; vm_compute; reflexivity.
  - eexists. split; [vm_compute; reflexivity |]. repeat split; vm_compute; reflexivity.
Qed.

Section ExactMerge.
#[local] Open Scope Q_scope.

(** The score-weighted average of two prices. *)
Lemma weighted_average_between (p1 p2 s1 s2 : Q) :
  0 <= s1 -> 0 <= s2 -> 0 < s1 + s2 -> p1 <= p2 ->
  p1 <= (p1 * s1 + p2 * s2) / (s1 + s2) <= p2.
Proof.
  intros H1 H2 Hs Hp. split.
  - apply Qle_shift_div_l; [exact Hs | nra].
  - apply Qle_shift_div_r; [exact Hs | nra].
Qed.

Lemma weighted_average_leans (p1 p2 s1 s2 : Q) :
  0 <= s1 -> 0 <= s2 -> 0 < s1 + s2 -> s1 <= s2 ->
  Qabs ((p1 * s1 + p2 * s2) / (s1 + s2) - p2)
  <= Qabs ((p1 * s1 + p2 * s2) / (s1 + s2) - p1).
Proof.
  intros H1 H2 Hs Hle.
  assert (Ha : (p1 * s1 + p2 * s2) / (s1 + s2) - p2 == (p1 - p2) * (s1 / (s1 + s2)))
    by (field; lra).
  assert (Hb : (p1 * s1 + p2 * s2) / (s1 + s2) - p1 == (p2 - p1) * (s2 / (s1 + s2)))
    by (field; lra).
  rewrite Ha, Hb, !Qabs_Qmult.
  assert (H0 : 0 <= s1 / (s1 + s2)) by now apply Qdiv_nonneg.
  assert (H0' : 0 <= s2 / (s1 + s2)) by now apply Qdiv_nonneg.
  rewrite (Qabs_pos _ H0), (Qabs_pos _ H0').
  rewrite (Qabs_Qminus p1 p2).
  assert (Hr : s1 / (s1 + s2) <= s2 / (s1 + s2)).
  { apply Qle_shift_div_l; [exact Hs |].
    assert (E : s1 / (s1 + s2) * (s1 + s2) == s1) by (field; lra). lra. }
  pose proof (Qabs_nonneg (p2 - p1)). nra.
Qed.

(** One step of the merge loop on two levels within the band. *)
Lemma mergeStep_within (tolerance : Q) (merged : list (SupportResistanceLevel Q))
      (current next : SupportResistanceLevel Q) :
  0 < Price current -> 0 < Price next ->
  0 < Score current + Score next ->
  Qabs (Price current - Price next) / ((Price current + Price next) / 2) <= tolerance ->
  mergeStep tolerance (merged, current) next
  = (merged,
     mkLevel ((Price current * Score current + Price next * Score next)
              / (Score current + Score next))
             (Strength current + Strength next)
             (Distance current)
             (Score current + Score next)
             (IsSupport current)).
Proof.
  intros Hc Hn Hs Hband. unfold mergeStep. to_Q.
  change (inject_Z 0) with 0. change (inject_Z 2) with 2.
  destruct (Qeq_bool_cases ((Price current + Price next) / 2) 0)
    as [[Hz E] | [[Hz E] | [Hz E]]]; rewrite E.
  - exfalso. assert (0 < (Price current + Price next) / 2)
      by (apply Qlt_shift_div_l; lra). lra.
  - exfalso. assert (0 < (Price current + Price next) / 2)
      by (apply Qlt_shift_div_l; lra). lra.
  - rewrite (Qabs_Qminus (Price next) (Price current)).
    destruct (Qle_bool_cases
                (Qabs (Price current - Price next) / ((Price current + Price next) / 2))
                tolerance) as [[_ E1] | [Hlt _]]; [rewrite E1 | lra].
    destruct (Qle_bool_cases (Score current + Score next) 0) as [[Hle _] | [_ E2]];
      [lra | rewrite E2]. reflexivity.
Qed.
End ExactMerge.

(** C4, amended.  In exact arithmetic, two levels with positive prices
    within the tolerance band, with non-negative scores of positive sum,
    merge into one level: its price is the score-weighted average of the
    two prices, lies between them and is at least as near to the input of
    higher score; its strength and its score are the sums. *)
Theorem merge_two_levels_exact :
  forall (a b : SupportResistanceLevel Q) (tolerance : Q),
    (0 < Price a)%Q -> (0 < Price b)%Q ->
    (0 <= Score a)%Q -> (0 <= Score b)%Q -> (0 < Score a + Score b)%Q ->
    (Qabs (Price a - Price b) / ((Price a + Price b) / 2) <= tolerance)%Q ->
    exists m,
      mergeNearbyLevels [a; b] tolerance = [m]
      /\ (Price m == (Price a * Score a + Price b * Score b) / (Score a + Score b))%Q
      /\ (Qmin (Price a) (Price b) <= Price m <= Qmax (Price a) (Price b))%Q
      /\ ((Score a <= Score b)%Q ->
          (Qabs (Price m - Price b) <= Qabs (Price m - Price a))%Q)
      /\ ((Score b <= Score a)%Q ->
          (Qabs (Price m - Price a) <= Qabs (Price m - Price b))%Q)
      /\ Strength m = (Strength a + Strength b)%Z
      /\ (Score m == Score a + Score b)%Q.
Proof.
  intros a b tolerance Hpa Hpb Hsa Hsb Hs Hband.
  unfold mergeNearbyLevels, insertionSort. cbn [fold_left sinkLeft rev app].
  to_Q. unfold Qltb.
  destruct (Qle_bool_cases (Price a) (Price b)) as [[Hle E] | [Hlt E]];
    rewrite E; cbn [negb rev app fold_left].
  - rewrite mergeStep_within; cbn [Price Score setDistance]; try assumption.
    eexists. split; [reflexivity |]. cbn [Price Score Strength].
    split; [reflexivity |].
    split.
    { rewrite Q.min_l, Q.max_r by exact Hle.
      now apply weighted_average_between. }
    split; [intros Hab; now apply weighted_average_leans |].
    split; [| split; [reflexivity | reflexivity]].
    intros Hba.
    assert (Hsw : ((Price a * Score a + Price b * Score b) / (Score a + Score b)
                   == (Price b * Score b + Price a * Score a) / (Score b + Score a))%Q)
      by (field; lra).
    rewrite Hsw. apply weighted_average_leans; lra.
  - assert (Hband' : (Qabs (Price b - Price a) / ((Price b + Price a) / 2)
                      <= tolerance)%Q).
    { rewrite (Qabs_Qminus (Price b) (Price a)).
      assert (Hd : ((Price b + Price a) / 2 == (Price a + Price b) / 2)%Q)
        by (field).
      now rewrite Hd. }
    rewrite mergeStep_within; cbn [Price Score setDistance]; try assumption; [| lra].
    eexists. split; [reflexivity |]. cbn [Price Score Strength].
    assert (Hsw : ((Price b * Score b + Price a * Score a) / (Score b + Score a)
                   == (Price a * Score a + Price b * Score b) / (Score a + Score b))%Q)
      by (field; lra).
    split; [exact Hsw |].
    split.
    { rewrite Q.min_r, Q.max_l by lra.
      apply weighted_average_between; lra. }
    split.
    { intros Hab. rewrite Hsw. now apply weighted_average_leans. }
    split; [intros Hba; apply weighted_average_leans; lra |].
    split; [cbn [Strength setDistance]; lia | ring].
Qed.

Lemma merge_two_levels_exact_witness :
  exists m,
    mergeNearbyLevels (F := Q) [twinTwo; twinOne] (lit 2 1000) = [m]
    /\ (Price m == 1 # 10)%Q /\ Strength m = 2%Z /\ (Score m == 3)%Q.
Proof.
  destruct (merge_two_levels_exact twinTwo twinOne (lit 2 1000))
    as (m & Hm & Hp & _ & _ & _ & Hst & Hsc); try (vm_compute; congruence).
  exists m. split; [exact Hm |].
  split; [rewrite Hp; reflexivity |].
  split; [exact Hst | rewrite Hsc; reflexivity].
Defined.

(** ** Snapshot assembly: fatal and degraded failures *)

Section GetFacts.
Context {F : Type} `{Float64Ops F}.

Lemma bind_ret {A B} (a : A) (k : A -> M F B) (w : World F) :
  bind (ret a) k w = k a w.
Proof. reflexivity. Qed.

Lemma bind_abort {A B} (e : Abort) (k : A -> M F B) (w : World F) :
  bind (abort e) k w = (w, inl e).
Proof. reflexivity. Qed.

Lemma bind_assoc_run {A B} (m : M F A) (k : A -> M F B) (w w' : World F) (a : A) :
  m w = (w', inr a) -> bind m k w = k a w'.
Proof. unfold bind. now intros ->. Qed.

Lemma bind_abort_run {A B} (m : M F A) (k : A -> M F B) (w w' : World F) (e : Abort) :
  m w = (w', inl e) -> bind m k w = (w', inl e).
Proof. unfold bind. now intros ->. Qed.

Lemma fetchKlines_ok (up : Upstream F) symbol interval klines (w : World F) :
  klinesAnswer up symbol interval 150 = inr klines ->
  fetchKlines up symbol interval w
  = (mkWorld (sent w ++ [CallKlines symbol interval 150]) (oiCache w), inr klines).
Proof. intros Hk. unfold fetchKlines, bind, send. simpl. now rewrite Hk. Qed.

Lemma fetchKlines_failed (up : Upstream F) symbol interval err (w : World F) :
  klinesAnswer up symbol interval 150 = inl err ->
  fetchKlines up symbol interval w
  = (mkWorld (sent w ++ [CallKlines symbol interval 150]) (oiCache w),
     inl (Returned (KlinesFailed interval err))).
Proof. intros Hk. unfold fetchKlines, bind, send. simpl. now rewrite Hk. Qed.

Lemma fromEnd_ok (klines : list (Kline F)) (n : nat) :
  (0 < n)%nat -> (n <= length klines)%nat ->
  exists k, fromEnd klines n = ret k.
Proof.
  intros Hn Hlen. unfold fromEnd.
  destruct (Nat.ltb_spec (length klines) n); [lia |].
  destruct (klines !! (length klines - n)%nat) as [k |] eqn:Hk; [eauto |].
  apply lookup_ge_None in Hk. lia.
Qed.

Lemma fromEnd_empty (n : nat) : (0 < n)%nat -> fromEnd (F := F) [] n = abort Panicked.
Proof. intros Hn. unfold fromEnd. destruct n; [lia | reflexivity]. Qed.

(** The price-change computations never fail: they are guarded by the
    length tests. *)
Lemma priceChange_total (klines : list (Kline F)) (n : nat) (currentPrice : F) :
  (0 < n)%nat ->
  exists v,
    (if (n <=? length klines)%nat then
       let* k := fromEnd klines n in
       let priceAgo := Close k in
       ret (if fltb (ofZ 0) priceAgo
            then fmul (fdiv (fsub currentPrice priceAgo) priceAgo) (ofZ 100)
            else ofZ 0)
     else ret (ofZ 0)) = ret (F := F) v.
Proof.
  intros Hn. destruct (Nat.leb_spec n (length klines)); [| eauto].
  destruct (fromEnd_ok klines n Hn) as [k ->]; [assumption |]. eauto.
Qed.

End GetFacts.

Section GetRuns.
Context {F : Type} `{Float64Ops F}.

Lemma Get_success (up : Upstream F) (defaultCoins : gmap string bool)
      (symbol exchange : string) (w : World F) k3 k15 k1 k4 :
  klinesAnswer up (Normalize symbol) "3m" 150 = inr k3 ->
  klinesAnswer up (Normalize symbol) "15m" 150 = inr k15 ->
  klinesAnswer up (Normalize symbol) "1h" 150 = inr k1 ->
  klinesAnswer up (Normalize symbol) "4h" 150 = inr k4 ->
  k3 <> [] ->
  exists d w' oi,
    Get up defaultCoins symbol exchange w = (w', inr d)
    /\ Symbol d = Normalize symbol
    /\ OpenInterest d = Some oi
    /\ (isInDefaultCoins defaultCoins (Normalize symbol) = false ->
        oi = zeroOI
        /\ sent w' = sent w ++ klineCalls (Normalize symbol)
                            ++ [CallPremiumIndex (Normalize symbol)]
        /\ oiCache w' = oiCache w)
    /\ (isInDefaultCoins defaultCoins (Normalize symbol) = true ->
        match oiLookup up (Normalize symbol) exchange w with
        | inl _ => oi = zeroOI
        | inr v => oi = v
        end)
    /\ match fundingAnswer up (Normalize symbol) with
       | inl _ => FundingRate d = ofZ 0
       | inr v => FundingRate d = v
       end.
Proof.
  intros H3 H15 H1 H4 Hne. unfold Get.
  do 4 (erewrite bind_assoc_run by (apply fetchKlines_ok; eassumption)).
  destruct (fromEnd_ok k3 1) as [lastCandle Hlast];
    [lia | destruct k3; [congruence | simpl; lia] |].
  rewrite Hlast, bind_ret.
  destruct (priceChange_total k3 21 (Close lastCandle)) as [pc1 Hpc1]; [lia |].
  destruct (priceChange_total k4 2 (Close lastCandle)) as [pc4 Hpc4]; [lia |].
  cbv zeta in Hpc1, Hpc4 |- *.
  rewrite Hpc1, bind_ret, Hpc4, bind_ret.
  cbn [sent oiCache]. unfold oiLookup.
  destruct (isInDefaultCoins defaultCoins (Normalize symbol)) eqn:Hgate.
  - destruct (String.eqb exchange "hyperliquid") eqn:Hex.
    + unfold bind, fetchHyperliquidOI, fetchFundingRate, send, ret. cbn [sent oiCache].
      destruct (getHyperliquidOpenInterestData (oiCache w) (hyperliquidEnv up)
                  (Normalize symbol)) as [[cache n] r].
      cbn [snd].
      destruct r as [e | v], (fundingAnswer up (Normalize symbol)) as [e' | rate];
        do 3 eexists; (split; [reflexivity |]); cbn [Symbol OpenInterest FundingRate];
        repeat split; try reflexivity; try discriminate.
    + unfold bind, fetchBinanceOI, fetchFundingRate, send, ret, bind. cbn [sent oiCache].
      destruct (openInterestAnswer up (Normalize symbol)) as [e | v],
               (fundingAnswer up (Normalize symbol)) as [e' | rate];
        do 3 eexists; (split; [reflexivity |]); cbn [Symbol OpenInterest FundingRate];
        repeat split; try reflexivity; try discriminate.
  - unfold bind, fetchFundingRate, send, ret. cbn [sent oiCache].
    destruct (fundingAnswer up (Normalize symbol)) as [e' | rate];
      do 3 eexists; (split; [reflexivity |]);
      cbn [Symbol OpenInterest FundingRate sent oiCache];
      repeat split; try reflexivity; try discriminate;
      unfold klineCalls; rewrite <- ?app_assoc; reflexivity.
Qed.

Lemma Get_failure (up : Upstream F) (defaultCoins : gmap string bool)
      (symbol exchange : string) (w : World F) :
  (forall e, klinesAnswer up (Normalize symbol) "3m" 150 = inl e ->
     snd (Get up defaultCoins symbol exchange w) = inl (Returned (KlinesFailed "3m" e)))
  /\ (forall k3 e, klinesAnswer up (Normalize symbol) "3m" 150 = inr k3 ->
        klinesAnswer up (Normalize symbol) "15m" 150 = inl e ->
     snd (Get up defaultCoins symbol exchange w) = inl (Returned (KlinesFailed "15m" e)))
  /\ (forall k3 k15 e, klinesAnswer up (Normalize symbol) "3m" 150 = inr k3 ->
        klinesAnswer up (Normalize symbol) "15m" 150 = inr k15 ->
        klinesAnswer up (Normalize symbol) "1h" 150 = inl e ->
     snd (Get up defaultCoins symbol exchange w) = inl (Returned (KlinesFailed "1h" e)))
  /\ (forall k3 k15 k1 e, klinesAnswer up (Normalize symbol) "3m" 150 = inr k3 ->
        klinesAnswer up (Normalize symbol) "15m" 150 = inr k15 ->
        klinesAnswer up (Normalize symbol) "1h" 150 = inr k1 ->
        klinesAnswer up (Normalize symbol) "4h" 150 = inl e ->
     snd (Get up defaultCoins symbol exchange w) = inl (Returned (KlinesFailed "4h" e))).
Proof.
  unfold Get. repeat split; intros;
    repeat (erewrite bind_assoc_run by (apply fetchKlines_ok; eassumption));
    (erewrite bind_abort_run by (apply fetchKlines_failed; eassumption));
    reflexivity.
Qed.

(** An empty 3-minute history is neither case: indexing its last candle
    panics. *)
Lemma Get_panics_on_empty_history (up : Upstream F) (defaultCoins : gmap string bool)
      (symbol exchange : string) (w : World F) k15 k1 k4 :
  klinesAnswer up (Normalize symbol) "3m" 150 = inr [] ->
  klinesAnswer up (Normalize symbol) "15m" 150 = inr k15 ->
  klinesAnswer up (Normalize symbol) "1h" 150 = inr k1 ->
  klinesAnswer up (Normalize symbol) "4h" 150 = inr k4 ->
  snd (Get up defaultCoins symbol exchange w) = inl Panicked.
Proof.
  intros H3 H15 H1 H4. unfold Get.
  do 4 (erewrite bind_assoc_run by (apply fetchKlines_ok; eassumption)).
  reflexivity.
Qed.

Lemma isInDefaultCoins_false (defaultCoins : gmap string bool) (symbol : string) :
  isInDefaultCoins defaultCoins symbol = false
  <-> defaultCoins <> ∅ /\ default false (defaultCoins !! Normalize symbol) = false.
Proof.
  unfold isInDefaultCoins.
  destruct (Nat.eqb_spec (size defaultCoins) 0) as [Hz | Hnz].
  - apply map_size_empty_iff in Hz. split; [discriminate | intros [Hne _]; contradiction].
  - split; [intros Hd; split; [| exact Hd] | intros [_ Hd]; exact Hd].
    intros ->. apply Hnz. apply map_size_empty.
Qed.
End GetRuns.

(** C8.  In [Get] the failure of a candle fetch ends the call with the
    error of that timeframe and no snapshot; once the four fetches have
    succeeded (on a non-empty 3-minute history) a snapshot is returned
    whatever the open-interest and funding fetches answer, with the zero
    placeholder for a failed open-interest fetch and rate 0 for a failed
    funding fetch; and for a symbol the allow-set excludes the placeholder
    is used and the requests sent are the four candle requests and the
    funding request only. *)
Theorem snapshot_failures_fatal_or_degraded :
  forall (F : Type) (ops : Float64Ops F) (up : Upstream F)
         (defaultCoins : gmap string bool) (symbol exchange : string) (w : World F),
    ((forall e, klinesAnswer up (Normalize symbol) "3m" 150 = inl e ->
        snd (Get up defaultCoins symbol exchange w)
        = inl (Returned (KlinesFailed "3m" e)))
     /\ (forall k3 e, klinesAnswer up (Normalize symbol) "3m" 150 = inr k3 ->
           klinesAnswer up (Normalize symbol) "15m" 150 = inl e ->
           snd (Get up defaultCoins symbol exchange w)
           = inl (Returned (KlinesFailed "15m" e)))
     /\ (forall k3 k15 e, klinesAnswer up (Normalize symbol) "3m" 150 = inr k3 ->
           klinesAnswer up (Normalize symbol) "15m" 150 = inr k15 ->
           klinesAnswer up (Normalize symbol) "1h" 150 = inl e ->
           snd (Get up defaultCoins symbol exchange w)
           = inl (Returned (KlinesFailed "1h" e)))
     /\ (forall k3 k15 k1 e, klinesAnswer up (Normalize symbol) "3m" 150 = inr k3 ->
           klinesAnswer up (Normalize symbol) "15m" 150 = inr k15 ->
           klinesAnswer up (Normalize symbol) "1h" 150 = inr k1 ->
           klinesAnswer up (Normalize symbol) "4h" 150 = inl e ->
           snd (Get up defaultCoins symbol exchange w)
           = inl (Returned (KlinesFailed "4h" e))))
    /\ (forall k3 k15 k1 k4,
          klinesAnswer up (Normalize symbol) "3m" 150 = inr k3 ->
          klinesAnswer up (Normalize symbol) "15m" 150 = inr k15 ->
          klinesAnswer up (Normalize symbol) "1h" 150 = inr k1 ->
          klinesAnswer up (Normalize symbol) "4h" 150 = inr k4 ->
          k3 <> [] ->
          exists d oi,
            snd (Get up defaultCoins symbol exchange w) = inr d
            /\ Symbol d = Normalize symbol
            /\ OpenInterest d = Some oi
            /\ (isInDefaultCoins defaultCoins (Normalize symbol) = true ->
                forall e, oiLookup up (Normalize symbol) exchange w = inl e ->
                          oi = zeroOI)
            /\ (forall e, fundingAnswer up (Normalize symbol) = inl e ->
                          FundingRate d = ofZ 0)
            /\ (isInDefaultCoins defaultCoins (Normalize symbol) = false ->
                oi = zeroOI
                /\ sent (fst (Get up defaultCoins symbol exchange w))
                   = sent w ++ klineCalls (Normalize symbol)
                            ++ [CallPremiumIndex (Normalize symbol)]
                /\ existsb isOpenInterestCall
                           (klineCalls (Normalize symbol)
                            ++ [CallPremiumIndex (Normalize symbol)]) = false
                /\ oiCache (fst (Get up defaultCoins symbol exchange w)) = oiCache w))
    /\ (isInDefaultCoins defaultCoins (Normalize symbol) = false
        <-> defaultCoins <> ∅
            /\ default false (defaultCoins !! Normalize (Normalize symbol)) = false).
Proof.
  intros F ops up defaultCoins symbol exchange w.
  split; [apply Get_failure |].
  split; [| apply isInDefaultCoins_false].
  intros k3 k15 k1 k4 H3 H15 H1 H4 Hne.
  destruct (Get_success up defaultCoins symbol exchange w k3 k15 k1 k4 H3 H15 H1 H4 Hne)
    as (d & w' & oi & Hrun & Hsym & Hoi & Hout & Hin & Hfund).
  exists d, oi. rewrite Hrun. cbn [fst snd].
  split; [reflexivity |]. split; [exact Hsym |]. split; [exact Hoi |].
  split; [| split].
  - intros Hgate e He. specialize (Hin Hgate). now rewrite He in Hin.
  - intros e He. now rewrite He in Hfund.
  - intros Hgate. destruct (Hout Hgate) as (Hz & Hsent & Hcache).
    repeat split; assumption.
Qed.

Lemma snapshot_failures_fatal_or_degraded_witness :
  exists d,
    snd (Get flakyUpstream (SetDefaultCoins ["BTC"%string]) "eth" "binance" coldWorld)
    = inr d
    /\ OpenInterest d = Some zeroOI
    /\ FundingRate d = ofZ 0
    /\ sent (fst (Get flakyUpstream (SetDefaultCoins ["BTC"%string]) "eth" "binance"
                      coldWorld))
       = klineCalls "ETHUSDT" ++ [CallPremiumIndex "ETHUSDT"].
Proof.
  destruct (snapshot_failures_fatal_or_degraded float binary64 flakyUpstream
              (SetDefaultCoins ["BTC"%string]) "eth" "binance" coldWorld)
    as (_ & Hok & _).
  destruct (Hok exampleKlines exampleKlines exampleKlines exampleKlines)
    as (d & oi & Hrun & _ & Hoi & _ & Hfund & Hgate);
    try reflexivity; [discriminate |].
  destruct Hgate as (Hz & Hsent & _); [vm_compute; reflexivity |].
  exists d. split; [exact Hrun |].
  split; [now rewrite Hoi, Hz |].
  split; [now apply (Hfund "timeout"%string) | exact Hsent].
Defined.

(** ** Open-interest cache *)

(** C2 as stated fails: a lookup for a symbol which the fresh table does
    not list misses under both locks and sends the bulk request again.
    From a cold cache, the lookup of BTC at second 100 refreshes; within the
    next two seconds the lookup of SOL is served from the table and the
    lookup of DOGE sends a second bulk request. *)
Lemma absent_symbol_refetches_within_window :
  let cold := mkCache (F := float) ∅ 0 in
  let '(cache, n, r) :=
    getHyperliquidOpenInterestData cold (lookupAt (100 * second)) "BTCUSDT" in
  n = 1%nat
  /\ r = inr (oiOf (ofZ 5))
  /\ hyperliquidOICacheTime cache = 100 * second
  /\ (102 * second - hyperliquidOICacheTime cache <? hyperliquidOICacheTTL) = true
  /\ snd (lookups cache [(lookupAt (101 * second), "SOLUSDT"%string);
                          (lookupAt (102 * second), "DOGEUSDT"%string)]) = 1%nat.
Proof. vm_compute. repeat split; reflexivity. Qed.

Section CacheFacts.
Context {F : Type} `{Float64Ops F}.

Lemma cachedOI_hit (cache : OICache F) (now : Z) (symbol : string) :
  (now - hyperliquidOICacheTime cache < hyperliquidOICacheTTL)%Z ->
  is_Some (hyperliquidOICache cache !! symbol) ->
  is_Some (cachedOI cache now symbol).
Proof.
  intros Hfresh [oi Hoi]. unfold cachedOI.
  destruct (Z.ltb_spec (now - hyperliquidOICacheTime cache) hyperliquidOICacheTTL);
    [| lia].
  rewrite Hoi. eauto.
Qed.

Lemma cachedOI_stale (cache : OICache F) (now : Z) (symbol : string) :
  (hyperliquidOICacheTTL <= now - hyperliquidOICacheTime cache)%Z ->
  cachedOI cache now symbol = None.
Proof.
  intros Hstale. unfold cachedOI.
  destruct (Z.ltb_spec (now - hyperliquidOICacheTime cache) hyperliquidOICacheTTL);
    [lia | reflexivity].
Qed.

(** A lookup served by the read-locked check changes nothing. *)
Lemma lookup_hit (cache : OICache F) (env : LookupEnv F) (symbol : string) :
  (readClock env - hyperliquidOICacheTime cache < hyperliquidOICacheTTL)%Z ->
  is_Some (hyperliquidOICache cache !! symbol) ->
  exists d, getHyperliquidOpenInterestData cache env symbol = (cache, 0%nat, inr d).
Proof.
  intros Hfresh Hin. unfold getHyperliquidOpenInterestData.
  destruct (cachedOI_hit cache (readClock env) symbol Hfresh Hin) as [d ->]. eauto.
Qed.

Lemma lookups_within_window (cache : OICache F) (requests : list (LookupEnv F * string)) :
  Forall (fun '(env, symbol) =>
            (readClock env - hyperliquidOICacheTime cache < hyperliquidOICacheTTL)%Z
            /\ is_Some (hyperliquidOICache cache !! symbol)) requests ->
  lookups cache requests = (cache, 0%nat).
Proof.
  unfold lookups.
  induction 1 as [| [env symbol] requests [Hfresh Hin] _ IH]; simpl; [reflexivity |].
  destruct (lookup_hit cache env symbol Hfresh Hin) as [d ->]. exact IH.
Qed.

(** The scheduler never changes which symbol a caller asks for. *)
Lemma stepCaller_symbols (s : Shared F) (t : Turn F) :
  map callerSymbol (callers (stepCaller s t)) = map callerSymbol (callers s).
Proof.
  unfold stepCaller.
  destruct (callers s !! turnCaller t) as [c |] eqn:Hc; [| reflexivity].
  assert (Hins : forall phase,
             map callerSymbol (<[turnCaller t := mkCaller (callerSymbol c) phase]> (callers s))
             = map callerSymbol (callers s)).
  { intros phase.
    change (map callerSymbol) with (fmap (M := list) (@callerSymbol F)).
    rewrite list_fmap_insert. apply list_insert_id.
    rewrite list_lookup_fmap, Hc. reflexivity. }
  destruct (callerPhase c); [apply Hins | | reflexivity].
  destruct (refreshOI _ _ _ _ _) as [[cache n] r]. apply Hins.
Qed.

Lemma step_before (cache : OICache F) (lo : Z) (table : gmap string F)
      (s : Shared F) (t : Turn F) :
  (hyperliquidOICacheTime cache + hyperliquidOICacheTTL <= lo)%Z ->
  turnWithin lo table t ->
  beforeRefresh cache s ->
  beforeRefresh cache (stepCaller s t) \/ afterRefresh lo table (stepCaller s t).
Proof.
  intros Hexp (Hr & Hw & Hs & Hresp) (Hcache & Hcount & Hnone).
  unfold stepCaller.
  destruct (callers s !! turnCaller t) as [c |] eqn:Hc;
    [| left; repeat split; assumption].
  destruct (callerPhase c) eqn:Hphase.
  - left. rewrite cachedOI_stale by (rewrite Hcache; lia).
    repeat split; cbn [sharedCache bulkRequests callers]; try assumption.
    now apply Forall_insert.
  - right. unfold refreshOI.
    rewrite cachedOI_stale by (rewrite Hcache; lia).
    rewrite Hresp. cbn [hyperliquidOICache].
    destruct (table !! callerSymbol c);
      repeat split; cbn [sharedCache bulkRequests hyperliquidOICache hyperliquidOICacheTime];
      lia.
  - left. repeat split; assumption.
Qed.

Lemma step_after (lo : Z) (table : gmap string F) (s : Shared F) (t : Turn F) :
  turnWithin lo table t ->
  Forall (fun c => is_Some (table !! callerSymbol c)) (callers s) ->
  afterRefresh lo table s ->
  afterRefresh lo table (stepCaller s t).
Proof.
  intros (Hr & Hw & Hs & Hresp) Hsyms Hafter.
  pose proof Hafter as (Htable & Htime & Hcount).
  unfold stepCaller.
  destruct (callers s !! turnCaller t) as [c |] eqn:Hc; [| exact Hafter].
  assert (Hin : is_Some (hyperliquidOICache (sharedCache s) !! callerSymbol c)).
  { rewrite Htable. exact (Forall_lookup_1 _ _ _ _ Hsyms Hc). }
  destruct (callerPhase c) eqn:Hphase.
  - exact Hafter.
  - unfold refreshOI.
    destruct (cachedOI_hit (sharedCache s) (writeClock (turnEnv t)) (callerSymbol c))
      as [d ->]; [lia | exact Hin |].
    unfold afterRefresh. cbn [sharedCache bulkRequests].
    split; [exact Htable |]. split; [exact Htime | lia].
  - exact Hafter.
Qed.

Lemma run_from_after (lo : Z) (table : gmap string F) (schedule : list (Turn F)) :
  Forall (turnWithin lo table) schedule ->
  forall s,
    Forall (fun c => is_Some (table !! callerSymbol c)) (callers s) ->
    afterRefresh lo table s ->
    afterRefresh lo table (runCallers s schedule).
Proof.
  unfold runCallers.
  induction 1 as [| t schedule Ht _ IH]; intros s Hsyms Hafter; simpl; [exact Hafter |].
  apply IH; [| now apply step_after].
  rewrite List.Forall_forall in *. intros c Hcin.
  assert (Hmap : In (callerSymbol c) (map callerSymbol (callers (stepCaller s t))))
    by now apply in_map.
  rewrite stepCaller_symbols in Hmap. apply in_map_iff in Hmap as (c' & <- & Hc').
  now apply Hsyms.
Qed.

Lemma run_from_before (cache : OICache F) (lo : Z) (table : gmap string F)
      (schedule : list (Turn F)) :
  (hyperliquidOICacheTime cache + hyperliquidOICacheTTL <= lo)%Z ->
  Forall (turnWithin lo table) schedule ->
  forall s,
    Forall (fun c => is_Some (table !! callerSymbol c)) (callers s) ->
    beforeRefresh cache s ->
    beforeRefresh cache (runCallers s schedule)
    \/ afterRefresh lo table (runCallers s schedule).
Proof.
  intros Hexp. unfold runCallers.
  induction 1 as [| t schedule Ht Hrest IH]; intros s Hsyms Hbefore; simpl;
    [now left |].
  assert (Hsyms' : Forall (fun c => is_Some (table !! callerSymbol c))
                          (callers (stepCaller s t))).
  { rewrite List.Forall_forall in *. intros c Hcin.
    assert (Hmap : In (callerSymbol c) (map callerSymbol (callers (stepCaller s t))))
      by now apply in_map.
    rewrite stepCaller_symbols in Hmap. apply in_map_iff in Hmap as (c' & <- & Hc').
    now apply Hsyms. }
  destruct (step_before cache lo table s t Hexp Ht Hbefore) as [Hb | Ha].
  - now apply IH.
  - right. now apply (run_from_after lo table schedule Hrest).
Qed.
End CacheFacts.

Section CacheRuns.
Context {F : Type} `{Float64Ops F}.

Lemma runCallers_symbols (schedule : list (Turn F)) (s : Shared F) :
  map callerSymbol (callers (runCallers s schedule)) = map callerSymbol (callers s).
Proof.
  unfold runCallers. revert s.
  induction schedule as [| t schedule IH]; intros s; simpl; [reflexivity |].
  now rewrite IH, stepCaller_symbols.
Qed.

Lemma refresh_exactly_once (cache : OICache F) (lo : Z) (table : gmap string F)
      (symbols : list string) (schedule : list (Turn F)) :
  (hyperliquidOICacheTime cache + hyperliquidOICacheTTL <= lo)%Z ->
  Forall (turnWithin lo table) schedule ->
  Forall (fun symbol => is_Some (table !! symbol)) symbols ->
  symbols <> [] ->
  let final := runCallers (mkShared cache 0 (map (fun symbol => mkCaller symbol Start)
                                                 symbols)) schedule in
  Forall (fun c => isFinished c = true) (callers final) ->
  bulkRequests final = 1%nat /\ hyperliquidOICache (sharedCache final) = table.
Proof.
  intros Hexp Hsched Hsyms Hne final Hdone.
  set (s0 := mkShared cache 0 (map (fun symbol => mkCaller symbol Start) symbols)) in *.
  assert (Hs0 : Forall (fun c => is_Some (table !! callerSymbol c)) (callers s0)).
  { cbn [s0 callers]. rewrite List.Forall_forall in *.
    intros c Hc. apply in_map_iff in Hc as (symbol & <- & Hin). now apply Hsyms. }
  assert (Hb0 : beforeRefresh cache s0).
  { repeat split. cbn [s0 callers]. rewrite List.Forall_forall.
    intros c Hc. apply in_map_iff in Hc as (symbol & <- & _). reflexivity. }
  destruct (run_from_before cache lo table schedule Hexp Hsched s0 Hs0 Hb0)
    as [(_ & _ & Hnone) | (Htable & _ & Hcount)]; [exfalso | now split].
  fold final in Hnone.
  pose proof (runCallers_symbols schedule s0) as Hmap. fold final in Hmap.
  destruct (callers final) as [| c rest] eqn:Hfinal.
  - cbn [s0 callers] in Hmap. rewrite map_map in Hmap.
    destruct symbols; [congruence | discriminate].
  - inversion Hdone; subst. inversion Hnone; subst. congruence.
Qed.
End CacheRuns.

(** C2, amended.  For symbols the table lists: lookups whose read-locked
    check falls inside the freshness window of the cached table send no
    bulk request and leave the cache as it is; and when callers start after
    the table has expired and run concurrently, in any interleaving of their
    locked sections within one window shorter than the TTL and with the
    upstream answering with a table which lists their symbols, exactly one
    bulk request has been sent once all of them have returned. *)
Theorem cache_hits_in_window_and_refreshes_once :
  forall (F : Type) (ops : Float64Ops F),
    (forall (cache : OICache F) (requests : list (LookupEnv F * string)),
        Forall (fun '(env, symbol) =>
                  (readClock env - hyperliquidOICacheTime cache < hyperliquidOICacheTTL)%Z
                  /\ is_Some (hyperliquidOICache cache !! symbol)) requests ->
        lookups cache requests = (cache, 0%nat))
    /\ (forall (cache : OICache F) (lo : Z) (table : gmap string F)
               (symbols : list string) (schedule : list (Turn F)),
          (hyperliquidOICacheTime cache + hyperliquidOICacheTTL <= lo)%Z ->
          Forall (turnWithin lo table) schedule ->
          Forall (fun symbol => is_Some (table !! symbol)) symbols ->
          symbols <> [] ->
          Forall (fun c => isFinished c = true)
                 (callers (runCallers
                             (mkShared cache 0
                                       (map (fun symbol => mkCaller symbol Start) symbols))
                             schedule)) ->
          bulkRequests (runCallers
                          (mkShared cache 0
                                    (map (fun symbol => mkCaller symbol Start) symbols))
                          schedule) = 1%nat
          /\ hyperliquidOICache
               (sharedCache (runCallers
                               (mkShared cache 0
                                         (map (fun symbol => mkCaller symbol Start) symbols))
                               schedule)) = table).
Proof.
  intros F ops. split.
  - apply lookups_within_window.
  - intros cache lo table symbols schedule. apply refresh_exactly_once.
Qed.

Lemma cache_hits_in_window_and_refreshes_once_witness :
  lookups (mkCache sampleTable (100 * second))
          [(lookupAt (101 * second), "SOLUSDT"%string);
           (lookupAt (129 * second), "BTCUSDT"%string)]
  = (mkCache sampleTable (100 * second), 0%nat)
  /\ bulkRequests (runCallers racingCallers racingSchedule) = 1%nat.
Proof.
  destruct (cache_hits_in_window_and_refreshes_once float binary64) as [Hhit Honce].
  split.
  - apply Hhit.
    repeat (constructor;
            [split; [vm_compute; reflexivity | eexists; vm_compute; reflexivity] |]).
    constructor.
  - apply (Honce (mkCache ∅ 0) (100 * second) sampleTable
                 ["BTCUSDT"%string; "SOLUSDT"%string] racingSchedule).
    + vm_compute. discriminate.
    + repeat (constructor;
              [unfold turnWithin, hyperliquidOICacheTTL, second; cbn;
               repeat split; (lia || reflexivity) |]).
      constructor.
    + repeat (constructor; [eexists; vm_compute; reflexivity |]). constructor.
    + discriminate.
    + vm_compute. repeat constructor.
Defined.

(** ** Supports below, resistances above *)

Section ExactSides.
#[local] Open Scope Q_scope.

Lemma lit_half : lit (F := Q) 1 2 == 1 # 2.
Proof. reflexivity. Qed.

Lemma calcRecencyWeight_pos (total index : Z) :
  0 < calcRecencyWeight (F := Q) total index.
Proof.
  unfold calcRecencyWeight.
  destruct (Z.leb_spec total 1) as [Hle | Hgt]; [reflexivity |].
  set (i1 := if (index <? 0)%Z then 0%Z else index).
  set (i2 := if (i1 >=? total)%Z then (total - 1)%Z else i1).
  assert (Hi2 : (0 <= i2)%Z).
  { subst i2 i1. destruct (index <? 0)%Z eqn:E1.
    - destruct (0 >=? total)%Z; lia.
    - apply Z.ltb_ge in E1. destruct (index >=? total)%Z; lia. }
  to_Q. rewrite lit_half.
  assert (Hn : 0 <= inject_Z i2 / inject_Z (total - 1)).
  { apply Qdiv_nonneg.
    - change 0 with (inject_Z 0). rewrite <- Zle_Qle. exact Hi2.
    - change 0 with (inject_Z 0). rewrite <- Zlt_Qlt. lia. }
  nra.
Qed.

Lemma initStats_positive (total : nat) (points : list (levelPoint Q)) :
  positiveWeights (initStats total points).
Proof.
  unfold initStats.
  assert (Hgen : forall stats, positiveWeights stats ->
             positiveWeights
               (fold_left (fun stats point =>
                  <[PointIndex point :=
                      mkStats 1 (calcRecencyWeight (Z.of_nat total)
                                                   (Z.of_nat (PointIndex point)))]> stats)
                  points stats)).
  { induction points as [| p points IH]; intros stats Hs; simpl; [exact Hs |].
    apply IH. intros i st. rewrite lookup_insert.
    destruct (decide (PointIndex p = i)); [| apply Hs].
    intros [= <-]. apply calcRecencyWeight_pos. }
  apply Hgen. intros i st. rewrite lookup_empty. discriminate.
Qed.

Lemma touch_positive (total idx : nat) (point : levelPoint Q) stats st :
  positiveWeights stats -> stats !! PointIndex point = Some st ->
  positiveWeights (touch total idx point stats st).
Proof.
  intros Hs Hst i st'. unfold touch. rewrite lookup_insert.
  destruct (decide (PointIndex point = i)); [| apply Hs].
  intros [= <-]. cbn [weight]. to_Q.
  pose proof (calcRecencyWeight_pos (Z.of_nat total) (Z.of_nat idx)).
  pose proof (Hs _ _ Hst). lra.
Qed.

Lemma scanSupports_positive total tolerance localMins stats ic :
  positiveWeights stats -> positiveWeights (scanSupports total tolerance localMins stats ic).
Proof.
  destruct ic as [idx candle]. unfold scanSupports. revert stats.
  induction localMins as [| p ps IH]; intros stats Hs; simpl; [exact Hs |].
  apply IH.
  destruct (idx =? PointIndex p)%nat; [exact Hs |].
  destruct (stats !! PointIndex p) as [st |] eqn:Hst; [| exact Hs].
  destruct (Qle_bool (PointPrice p) _); [exact Hs |].
  destruct (_ && _); [now apply touch_positive | exact Hs].
Qed.

Lemma scanResistances_positive total tolerance localMaxs stats ic :
  positiveWeights stats ->
  positiveWeights (scanResistances total tolerance localMaxs stats ic).
Proof.
  destruct ic as [idx candle]. unfold scanResistances. revert stats.
  induction localMaxs as [| p ps IH]; intros stats Hs; simpl; [exact Hs |].
  apply IH.
  destruct (idx =? PointIndex p)%nat; [exact Hs |].
  destruct (stats !! PointIndex p) as [st |] eqn:Hst; [| exact Hs].
  destruct (Qle_bool (PointPrice p) _); [exact Hs |].
  destruct (_ && _); [now apply touch_positive | exact Hs].
Qed.

Lemma scan_positive total tolerance localMins localMaxs
      (l : list (nat * Kline Q)) (ss rs : gmap nat (levelStats Q)) :
  positiveWeights ss -> positiveWeights rs ->
  positiveWeights
    (fst (fold_left (fun '(ss, rs) ic =>
                       (scanSupports total tolerance localMins ss ic,
                        scanResistances total tolerance localMaxs rs ic)) l (ss, rs)))
  /\ positiveWeights
       (snd (fold_left (fun '(ss, rs) ic =>
                          (scanSupports total tolerance localMins ss ic,
                           scanResistances total tolerance localMaxs rs ic)) l (ss, rs))).
Proof.
  revert ss rs. induction l as [| ic l IH]; intros ss rs Hss Hrs; simpl; [now split |].
  apply IH; [now apply scanSupports_positive | now apply scanResistances_positive].
Qed.

Lemma supportCandidates_sided (currentPrice : Q) stats localMins :
  positiveWeights stats ->
  Forall (sidedLevel true currentPrice) (supportCandidates currentPrice stats localMins).
Proof.
  intros Hs. unfold supportCandidates.
  assert (Hgen : forall acc, Forall (sidedLevel true currentPrice) acc ->
             Forall (sidedLevel true currentPrice)
               (fold_left
                  (fun supports point =>
                     match stats !! PointIndex point with
                     | None => supports
                     | Some st =>
                         if fltb (PointPrice point) currentPrice
                         then supports ++ [mkLevel (PointPrice point) (touches st) (ofZ 0)
                                                   (weight st) true]
                         else supports
                     end) localMins acc)).
  { induction localMins as [| p ps IH]; intros acc Hacc; simpl; [exact Hacc |].
    apply IH. destruct (stats !! PointIndex p) as [st |] eqn:Hst; [| exact Hacc].
    destruct (Qltb (PointPrice p) currentPrice) eqn:Hlt; [| exact Hacc].
    apply Forall_app. split; [exact Hacc |]. constructor; [| constructor].
    to_Q. apply Qltb_lt in Hlt.
    repeat split; [exact Hlt | exact (Hs _ _ Hst)]. }
  apply Hgen. constructor.
Qed.

Lemma resistanceCandidates_sided (currentPrice : Q) stats localMaxs :
  positiveWeights stats ->
  Forall (sidedLevel false currentPrice)
         (resistanceCandidates currentPrice stats localMaxs).
Proof.
  intros Hs. unfold resistanceCandidates.
  assert (Hgen : forall acc, Forall (sidedLevel false currentPrice) acc ->
             Forall (sidedLevel false currentPrice)
               (fold_left
                  (fun resistances point =>
                     match stats !! PointIndex point with
                     | None => resistances
                     | Some st =>
                         if fltb currentPrice (PointPrice point)
                         then resistances ++ [mkLevel (PointPrice point) (touches st) (ofZ 0)
                                                      (weight st) false]
                         else resistances
                     end) localMaxs acc)).
  { induction localMaxs as [| p ps IH]; intros acc Hacc; simpl; [exact Hacc |].
    apply IH. destruct (stats !! PointIndex p) as [st |] eqn:Hst; [| exact Hacc].
    destruct (Qltb currentPrice (PointPrice p)) eqn:Hlt; [| exact Hacc].
    apply Forall_app. split; [exact Hacc |]. constructor; [| constructor].
    to_Q. apply Qltb_lt in Hlt.
    repeat split; [exact Hlt | exact (Hs _ _ Hst)]. }
  apply Hgen. constructor.
Qed.
End ExactSides.

Section ExactSidesMerge.
#[local] Open Scope Q_scope.

Lemma last_skipn {A} (n : nat) (l : list A) (x : A) :
  last (skipn n l) = Some x -> last l = Some x.
Proof.
  intros Hlast. rewrite <- (firstn_skipn n l), last_app, Hlast. reflexivity.
Qed.

Lemma Forall_perm {A} (P : A -> Prop) (l l' : list A) :
  Permutation l l' -> Forall P l -> Forall P l'.
Proof.
  intros Hp Hl. rewrite List.Forall_forall in *. intros x Hx.
  apply Hl. eapply Permutation_in; [symmetry; exact Hp | exact Hx].
Qed.

Lemma setDistance_sided s p (l : SupportResistanceLevel Q) d :
  sidedLevel s p l -> sidedLevel s p (setDistance l d).
Proof. intros Hl. exact Hl. Qed.

Lemma merged_price_sided s p (c n : SupportResistanceLevel Q) :
  sidedLevel s p c -> sidedLevel s p n ->
  sidedLevel s p
    (mkLevel ((Price c * Score c + Price n * Score n) / (Score c + Score n))
             (Strength c + Strength n) (Distance c) (Score c + Score n) (IsSupport c)).
Proof.
  intros (Hsc & Hpc & Hwc) (Hsn & Hpn & Hwn).
  unfold sidedLevel, onItsSide in *. cbn [IsSupport Price Score].
  rewrite Hsc in *. rewrite Hsn in *.
  split; [reflexivity |]. split; [| lra].
  destruct s.
  - apply Qlt_shift_div_r; [lra | nra].
  - apply Qlt_shift_div_l; [lra | nra].
Qed.

Lemma mergeStep_sided s p (tolerance : Q) merged current next :
  Forall (sidedLevel s p) merged -> sidedLevel s p current -> sidedLevel s p next ->
  Forall (sidedLevel s p) (fst (mergeStep tolerance (merged, current) next))
  /\ sidedLevel s p (snd (mergeStep tolerance (merged, current) next)).
Proof.
  intros Hm Hc Hn. unfold mergeStep.
  destruct (fleb _ tolerance); cbn [fst snd].
  - split; [exact Hm |].
    destruct Hc as (Hsc & Hpc & Hwc). destruct Hn as (Hsn & Hpn & Hwn).
    to_Q. change (inject_Z 0) with 0.
    destruct (Qle_bool_cases (Score current + Score next) 0) as [[Hle _] | [_ E]];
      [lra | rewrite E].
    apply merged_price_sided; repeat split; assumption.
  - split; [| exact Hn].
    apply Forall_app. split; [exact Hm | now constructor].
Qed.

Lemma mergeNearbyLevels_sided s p (levels : list (SupportResistanceLevel Q)) tolerance :
  Forall (sidedLevel s p) levels ->
  Forall (sidedLevel s p) (mergeNearbyLevels levels tolerance).
Proof.
  intros Hl. unfold mergeNearbyLevels.
  pose proof (Forall_perm _ _ _
                (Permutation_sym (insertionSort_perm
                                    (fun a b => fltb (Price a) (Price b)) levels)) Hl)
    as Hsorted.
  destruct (insertionSort _ levels) as [| first rest]; [constructor |].
  inversion Hsorted as [| ? ? Hfirst Hrest]; subst.
  assert (Hgen : forall rest merged current,
             Forall (sidedLevel s p) rest ->
             Forall (sidedLevel s p) merged -> sidedLevel s p current ->
             Forall (sidedLevel s p)
                    (fst (fold_left (mergeStep tolerance) rest (merged, current)))
             /\ sidedLevel s p
                  (snd (fold_left (mergeStep tolerance) rest (merged, current)))).
  { clear. induction rest as [| next rest IH]; intros merged current Hr Hm Hc;
      cbn [fold_left]; [now split |].
    inversion Hr; subst.
    destruct (mergeStep_sided s p tolerance merged current next) as [Hm' Hc'];
      try assumption.
    destruct (mergeStep tolerance (merged, current) next) as [merged' current'].
    now apply IH. }
  destruct (Hgen rest [] (setDistance first (ofZ 0))) as [Hm Hc];
    [assumption | constructor | exact Hfirst |].
  destruct (fold_left _ rest _) as [merged current]. cbn [fst snd] in *.
  apply Forall_app. split; [exact Hm | now constructor].
Qed.

Lemma updateLevelDistances_sided s p (levels : list (SupportResistanceLevel Q)) q b :
  Forall (sidedLevel s p) levels ->
  Forall (sidedLevel s p) (updateLevelDistances levels q b).
Proof.
  intros Hl. unfold updateLevelDistances.
  destruct (fleb q (ofZ 0)); [exact Hl |].
  rewrite List.Forall_forall in *. intros l Hin.
  apply in_map_iff in Hin as (l0 & <- & Hin0).
  specialize (Hl _ Hin0). unfold distanceTo. now destruct b.
Qed.

Lemma sortAndFilterLevels_sided s p (levels : list (SupportResistanceLevel Q)) b :
  Forall (sidedLevel s p) levels ->
  Forall (sidedLevel s p) (sortAndFilterLevels levels b).
Proof.
  intros Hl. rewrite List.Forall_forall in *. intros l Hin.
  apply Hl. eapply sortAndFilterLevels_In, Hin.
Qed.

(** Both lists of a timeframe respect the last close of its candles. *)
Lemma calculateSupportResistanceLevels_sided (klines : list (Kline Q)) (lookback : nat)
      (lastCandle : Kline Q) :
  last klines = Some lastCandle ->
  Forall (sidedLevel true (Close lastCandle))
         (fst (calculateSupportResistanceLevels klines lookback))
  /\ Forall (sidedLevel false (Close lastCandle))
            (snd (calculateSupportResistanceLevels klines lookback)).
Proof.
  intros Hlast. unfold calculateSupportResistanceLevels.
  destruct (length klines =? 0)%nat; [split; constructor |].
  destruct (last (recentWindow klines lookback)) as [lc |] eqn:Hrecent;
    [| split; constructor].
  unfold recentWindow in Hrecent. apply last_skipn in Hrecent.
  rewrite Hlast in Hrecent. injection Hrecent as <-.
  set (recent := recentWindow klines lookback).
  pose proof (scan_positive (length recent) (lit 2 1000)
                (findLocalMinima recent) (findLocalMaxima recent) (indexed recent)
                _ _ (initStats_positive (length recent) (findLocalMinima recent))
                (initStats_positive (length recent) (findLocalMaxima recent)))
    as [Hss Hrs].
  destruct (fold_left _ (indexed recent) _) as [ss rs]. cbn [fst snd] in *.
  split.
  - apply sortAndFilterLevels_sided, updateLevelDistances_sided,
      mergeNearbyLevels_sided, supportCandidates_sided, Hss.
  - apply sortAndFilterLevels_sided, updateLevelDistances_sided,
      mergeNearbyLevels_sided, resistanceCandidates_sided, Hrs.
Qed.

Lemma sided_respected p (supports resistances : list (SupportResistanceLevel Q)) :
  Forall (sidedLevel true p) supports -> Forall (sidedLevel false p) resistances ->
  sidesRespected p supports resistances.
Proof.
  intros Hs Hr. split.
  - eapply List.Forall_impl; [| exact Hs].
    intros l (Hside & Hp & _). unfold onItsSide in Hp. rewrite Hside in Hp. now split.
  - eapply List.Forall_impl; [| exact Hr].
    intros l (Hside & Hp & _). unfold onItsSide in Hp. rewrite Hside in Hp. now split.
Qed.
End ExactSidesMerge.

Section ConfluenceSides.
Context {F : Type} `{Float64Ops F}.

Lemma updateLevelDistances_same_level (c out : SupportResistanceLevel F) p s :
  In out (updateLevelDistances [c] p s) ->
  Price out = Price c /\ IsSupport out = IsSupport c
  /\ Score out = Score c /\ Strength out = Strength c.
Proof.
  unfold updateLevelDistances. destruct (fleb p (ofZ 0)); simpl.
  - intros [<- | []]. repeat split.
  - intros [<- | []]. unfold distanceTo. destruct s; repeat split.
Qed.

(** The aggregator returns base levels: it changes score, strength and
    distance, never the price or the side. *)
Lemma findConfluenceLevels_from_base (base : list (SupportResistanceLevel F))
      (sets : list (weightedLevelSet F)) (tolerance currentPrice : F) (isSupport : bool)
      (out : SupportResistanceLevel F) :
  In out (findConfluenceLevels base sets tolerance currentPrice isSupport) ->
  exists level, In level base /\ Price out = Price level
                /\ IsSupport out = IsSupport level.
Proof.
  unfold findConfluenceLevels.
  destruct (_ || _); [intros [] |].
  assert (Hcand : forall c, In c (confluenceCandidates base sets tolerance) ->
                            exists level, In level base /\ Price c = Price level
                                          /\ IsSupport c = IsSupport level).
  { intros c Hc. unfold confluenceCandidates in Hc.
    apply confluenceCandidates_spec in Hc as [[] | (level & Hl & Hcomb)].
    exists level. split; [exact Hl |].
    unfold combineLevel in Hcomb.
    destruct (firstMatch level sets tolerance) as [[other w] |]; [| discriminate].
    injection Hcomb as <-. split; reflexivity. }
  destruct (length (confluenceCandidates base sets tolerance) =? 0)%nat.
  - apply Hcand.
  - intros Hin. apply sortAndFilterLevels_In in Hin.
    apply updateLevelDistances_In in Hin as (c & Hc & Hout).
    apply updateLevelDistances_same_level in Hout as (Hp & Hs & _).
    destruct (Hcand c Hc) as (level & Hl & Hp' & Hs').
    exists level. split; [exact Hl |]. split; congruence.
Qed.

End ConfluenceSides.

Section ExactSummary.
#[local] Open Scope Q_scope.

Lemma addTimeframe_entries (inputs : list (string * list (Kline Q))) timeframes tf :
  In tf inputs ->
  entriesRespectOwnClose inputs timeframes ->
  entriesRespectOwnClose inputs (addTimeframe timeframes tf).
Proof.
  intros Hin Hinv. destruct tf as [name klines]. unfold addTimeframe.
  destruct (length klines =? 0)%nat; [exact Hinv |].
  destruct (calculateSupportResistanceLevels klines supportResistanceLookback)
    as [supports resistances] eqn:Hcalc.
  destruct (_ && _); [exact Hinv |].
  destruct (last klines) as [lastCandle |] eqn:Hlast; [| exact Hinv].
  intros name' tf'. rewrite lookup_insert.
  destruct (decide (name = name')) as [<- |]; [| apply Hinv].
  intros [= <-]. exists klines, lastCandle.
  destruct (calculateSupportResistanceLevels_sided klines supportResistanceLookback
              lastCandle Hlast) as [Hs Hr].
  rewrite Hcalc in Hs, Hr. cbn [fst snd] in Hs, Hr.
  repeat split; try assumption; cbn [Supports Resistances];
    now apply updateLevelDistances_sided.
Qed.

Lemma timeframes_entries (inputs todo : list (string * list (Kline Q))) timeframes :
  (forall tf, In tf todo -> In tf inputs) ->
  entriesRespectOwnClose inputs timeframes ->
  entriesRespectOwnClose inputs (fold_left addTimeframe todo timeframes).
Proof.
  revert timeframes. induction todo as [| tf todo IH]; intros timeframes Hsub Hinv;
    cbn [fold_left]; [exact Hinv |].
  apply IH; [intros tf' Htf'; apply Hsub; now right |].
  apply addTimeframe_entries; [apply Hsub; now left | exact Hinv].
Qed.

Lemma sidesRespected_eq (p q : Q) supports resistances :
  p == q -> sidesRespected p supports resistances ->
  sidesRespected q supports resistances.
Proof.
  intros Hpq [Hs Hr]. split.
  - eapply List.Forall_impl; [| exact Hs]. intros l [Hside Hp]. split; [exact Hside | lra].
  - eapply List.Forall_impl; [| exact Hr]. intros l [Hside Hp]. split; [exact Hside | lra].
Qed.

(** The confluence lists respect whatever price the base lists respect. *)
Lemma confluence_respects_base (p : Q) (base : SupportResistanceTimeframe Q)
      supportSets resistanceSets tolerance currentPrice :
  Forall (sidedLevel true p) (Supports base) ->
  Forall (sidedLevel false p) (Resistances base) ->
  sidesRespected p
    (findConfluenceLevels (Supports base) supportSets tolerance currentPrice true)
    (findConfluenceLevels (Resistances base) resistanceSets tolerance currentPrice false).
Proof.
  intros Hs Hr. split; rewrite List.Forall_forall in *; intros out Hout;
    apply findConfluenceLevels_from_base in Hout as (level & Hl & Hp & Hside);
    rewrite Hp, Hside.
  - destruct (Hs _ Hl) as (Hsd & Hon & _). unfold onItsSide in Hon.
    rewrite Hsd in Hon. now split.
  - destruct (Hr _ Hl) as (Hsd & Hon & _). unfold onItsSide in Hon.
    rewrite Hsd in Hon. now split.
Qed.
End ExactSummary.

(** C1 as stated fails for the confluence result: [findConfluenceLevels]
    never compares a price with [currentPrice], and its base is the first
    timeframe which has levels, whose own last close can differ from
    [currentPrice].  Here the 3-minute history (closing at 50900, the
    [currentPrice] that [Get] passes) has no level, the 15-minute history
    (closing at 51500) is the base, and its support at 51000, confirmed by
    the 1-hour history, is a confluence support above the current price. *)
Lemma confluence_support_above_current_price :
  let summary :=
    calculateSupportResistanceSummary (F := float) lowerKlines dippedKlines dippedKlines
                                      [] [] [] (ofZ 50900) in
  (Close <$> last (lowerKlines (F := float))) = Some (ofZ 50900)
  /\ Timeframes summary !! "3m"%string = None
  /\ exists conf l,
      Confluence summary = Some conf
      /\ In l (ConfluenceSupports conf)
      /\ IsSupport l = true
      /\ Price l = ofZ 51000
      /\ fltb (Price l) (ofZ 50900) = false.
Proof.
  split; [reflexivity |].
  split; [vm_compute; reflexivity |].
  eexists. eexists.
  split; [vm_compute; reflexivity |].
  split; [left; reflexivity |].
  repeat split.
Qed.

(** C1, amended.  At exact arithmetic: the lists returned by
    [calculateSupportResistanceLevels] hold supports strictly below and
    resistances strictly above the last close of the candles analysed;
    so does every timeframe entry of the summary, for the last close of its
    own candles; [findConfluenceLevels] returns levels with the price and
    the side of base levels, so the confluence result respects the last
    close of the base timeframe, and it respects the [currentPrice]
    argument when that close equals it. *)
Theorem levels_respect_last_close :
  (forall (klines : list (Kline Q)) (lookback : nat) (lastCandle : Kline Q),
      last klines = Some lastCandle ->
      sidesRespected (Close lastCandle)
                     (fst (calculateSupportResistanceLevels klines lookback))
                     (snd (calculateSupportResistanceLevels klines lookback)))
  /\ (forall (F : Type) (ops : Float64Ops F) (base : list (SupportResistanceLevel F))
             (sets : list (weightedLevelSet F)) (tolerance currentPrice : F)
             (isSupport : bool) (out : SupportResistanceLevel F),
        In out (findConfluenceLevels base sets tolerance currentPrice isSupport) ->
        exists level, In level base /\ Price out = Price level
                      /\ IsSupport out = IsSupport level)
  /\ (forall (klines3m klines15m klines1h klines4h klines12h klines1d : list (Kline Q))
             (currentPrice : Q),
        let inputs := namedInputs klines3m klines15m klines1h klines4h klines12h klines1d in
        let summary :=
          calculateSupportResistanceSummary klines3m klines15m klines1h klines4h
                                            klines12h klines1d currentPrice in
        (forall name tf,
            Timeframes summary !! name = Some tf ->
            exists klines lastCandle,
              In (name, klines) inputs
              /\ last klines = Some lastCandle
              /\ sidesRespected (Close lastCandle) (Supports tf) (Resistances tf))
        /\ (forall conf,
              Confluence summary = Some conf ->
              exists baseName klines lastCandle,
                In baseName ["3m"%string; "15m"%string; "1h"%string; "4h"%string]
                /\ In (baseName, klines) inputs
                /\ last klines = Some lastCandle
                /\ sidesRespected (Close lastCandle)
                                  (ConfluenceSupports conf) (ConfluenceResistances conf)
                /\ ((Close lastCandle == currentPrice)%Q ->
                    sidesRespected currentPrice
                                   (ConfluenceSupports conf) (ConfluenceResistances conf)))).
Proof.
  split; [| split].
  - intros klines lookback lastCandle Hlast.
    destruct (calculateSupportResistanceLevels_sided klines lookback lastCandle Hlast).
    now apply sided_respected.
  - intros F ops. apply findConfluenceLevels_from_base.
  - intros klines3m klines15m klines1h klines4h klines12h klines1d currentPrice
           inputs summary.
    assert (Hinv : entriesRespectOwnClose inputs (fold_left addTimeframe inputs ∅)).
    { apply timeframes_entries; [auto |].
      intros name tf. rewrite lookup_empty. discriminate. }
    assert (Htfs : Timeframes summary = fold_left addTimeframe inputs ∅).
    { subst summary. unfold calculateSupportResistanceSummary.
      fold (namedInputs klines3m klines15m klines1h klines4h klines12h klines1d).
      fold inputs.
      destruct (chooseBase _ _) as [[baseName base] |]; [| reflexivity].
      destruct (collectSets _ baseName) as [ss rs].
      now destruct (0 <? length ss)%nat. }
    split.
    + intros name tf. rewrite Htfs. intros Htf.
      destruct (Hinv name tf Htf) as (klines & lastCandle & Hin & Hlast & Hs & Hr).
      exists klines, lastCandle.
      split; [exact Hin |]. split; [exact Hlast | now apply sided_respected].
    + intros conf. subst summary. unfold calculateSupportResistanceSummary.
      fold (namedInputs klines3m klines15m klines1h klines4h klines12h klines1d).
      fold inputs.
      destruct (chooseBase _ _) as [[baseName base] |] eqn:Hbase; [| discriminate].
      apply chooseBase_Some in Hbase as [Horder Hlookup].
      destruct (collectSets _ baseName) as [ss rs].
      destruct (0 <? length ss)%nat; [| discriminate].
      cbn [Confluence]. intros [= <-].
      destruct (Hinv baseName base Hlookup)
        as (klines & lastCandle & Hin & Hlast & Hs & Hr).
      exists baseName, klines, lastCandle.
      pose proof (confluence_respects_base (Close lastCandle) base ss rs
                    confluenceTolerance currentPrice Hs Hr) as Hconf.
      cbn [ConfluenceSupports ConfluenceResistances].
      split; [exact Horder |]. split; [exact Hin |]. split; [exact Hlast |].
      split; [exact Hconf |].
      intros Heq. exact (sidesRespected_eq _ _ _ _ Heq Hconf).
Qed.

Lemma levels_respect_last_close_witness :
  sidesRespected 51500
                 (fst (calculateSupportResistanceLevels (F := Q) dippedKlines 120))
                 (snd (calculateSupportResistanceLevels (F := Q) dippedKlines 120)).
Proof.
  destruct levels_respect_last_close as [Hlevels _].
  exact (Hlevels dippedKlines 120%nat (dipCandle 51000) eq_refl).
Defined.

(** ** The arithmetic of the program on examples *)

(** In binary64: RSI is exactly 100 on rising and on flat closes, EMA of
    a flat series of 100 is 100, and the window with one dip to 50000
    retested twice has a support at 50000 of strength 3 at distance
    (51500 - 50000) / 51500 * 100. *)
Lemma binary64_examples :
  calculateRSI (F := float) risingKlines 7 = ofZ 100
  /\ calculateRSI (F := float) flatKlines 14 = ofZ 100
  /\ calculateEMA (F := float) flatKlines 20 = ofZ 100
  /\ exists l,
      In l (fst (calculateSupportResistanceLevels (F := float) dippedKlines 120))
      /\ Price l = ofZ 50000 /\ Strength l = 3%Z /\ IsSupport l = true
      /\ Distance l
         = fmul (fdiv (fsub (ofZ 51500) (ofZ 50000)) (ofZ 51500)) (ofZ 100).
Proof.
  split; [vm_compute; reflexivity |].
  split; [vm_compute; reflexivity |].
  split; [vm_compute; reflexivity |].
  eexists. split; [vm_compute; right; left; reflexivity |].
  repeat split.
Qed.


(* ===================================================================== *)
(** * Further properties of the indicator engine *)
(* ===================================================================== *)

Section ExactIndicators.
#[local] Open Scope Q_scope.

Lemma inject_nat_pos (n : nat) : (0 < n)%nat -> 0 < inject_Z (Z.of_nat n).
Proof. intros Hn. change 0 with (inject_Z 0). rewrite <- Zlt_Qlt. lia. Qed.

Lemma sum_closes_bounds (lo hi : Q) (l : list (Kline Q)) (acc : Q) :
  Forall (fun k => lo <= Close k <= hi) l ->
  acc + inject_Z (Z.of_nat (length l)) * lo
  <= fold_left (fun sum k => fadd sum (Close k)) l acc
  <= acc + inject_Z (Z.of_nat (length l)) * hi.
Proof.
  intros Hl. revert acc.
  induction Hl as [| k l [Hlo Hhi] _ IH]; intros acc; cbn [fold_left].
  - cbn [length]. change (inject_Z (Z.of_nat 0)) with 0. lra.
  - specialize (IH (fadd acc (Close k))). to_Q.
    change (length (k :: l)) with (S (length l)).
    rewrite Nat2Z.inj_succ. unfold Z.succ. rewrite inject_Z_plus.
    change (inject_Z 1) with 1. lra.
Qed.

Lemma ema_updates_bounds (lo hi m : Q) (l : list (Kline Q)) (ema : Q) :
  0 <= m <= 1 ->
  Forall (fun k => lo <= Close k <= hi) l ->
  lo <= ema <= hi ->
  lo <= fold_left (fun ema k => fadd (fmul (fsub (Close k) ema) m) ema) l ema <= hi.
Proof.
  intros Hm Hl. revert ema.
  induction Hl as [| k l [Hlo Hhi] _ IH]; intros ema Hema; cbn [fold_left];
    [exact Hema |].
  apply IH. to_Q.
  assert (H1 : 0 <= m * (Close k - lo)) by nra.
  assert (H2 : 0 <= (1 - m) * (ema - lo)) by nra.
  assert (H3 : 0 <= m * (hi - Close k)) by nra.
  assert (H4 : 0 <= (1 - m) * (hi - ema)) by nra.
  split; lra.
Qed.

Lemma ema_multiplier_bounds (period : nat) :
  (0 < period)%nat ->
  0 <= inject_Z 2 / inject_Z (Z.of_nat period + 1) <= 1.
Proof.
  intros Hp.
  assert (Hden : 0 < inject_Z (Z.of_nat period + 1)).
  { change 0 with (inject_Z 0). rewrite <- Zlt_Qlt. lia. }
  assert (Htwo : inject_Z 2 <= inject_Z (Z.of_nat period + 1)).
  { rewrite <- Zle_Qle. lia. }
  split.
  - apply Qle_shift_div_l; [exact Hden |]. change (inject_Z 2) with 2. lra.
  - apply Qle_shift_div_r; [exact Hden |]. lra.
Qed.
End ExactIndicators.

(** The seed of the EMA: the mean of the first [period] closes. *)
Lemma ema_seed_bounds (klines : list (Kline Q)) (period : nat) (lo hi : Q) :
  (0 < period)%nat ->
  (period <= length klines)%nat ->
  Forall (fun k => (lo <= Close k <= hi)%Q) klines ->
  (lo <= fdiv (fold_left (fun sum k => fadd sum (Close k)) (firstn period klines) (ofZ 0))
              (ofZ (Z.of_nat period)) <= hi)%Q.
Proof.
  intros Hpos Hlen Hall.
  pose proof (sum_closes_bounds lo hi (firstn period klines) (ofZ 0)
                (Forall_take _ _ _ Hall)) as [Hlo Hhi].
  rewrite length_firstn, Nat.min_l in Hlo, Hhi by lia.
  pose proof (inject_nat_pos period Hpos) as Hp.
  to_Q. change (inject_Z 0) with 0%Q in *.
  split.
  - apply Qle_shift_div_l; [exact Hp | lra].
  - apply Qle_shift_div_r; [exact Hp | lra].
Qed.

(** X1.  At exact arithmetic, with [period >= 1] and at least [period]
    candles, the EMA never leaves the range of the closes: if every close
    lies in [lo, hi], so does [calculateEMA]. *)
Theorem ema_within_close_range :
  forall (klines : list (Kline Q)) (period : nat) (lo hi : Q),
    (0 < period)%nat ->
    (period <= length klines)%nat ->
    Forall (fun k => (lo <= Close k <= hi)%Q) klines ->
    (lo <= calculateEMA klines period <= hi)%Q.
Proof.
  intros klines period lo hi Hpos Hlen Hall.
  unfold calculateEMA.
  destruct (Nat.ltb_spec (length klines) period); [lia |].
  apply ema_updates_bounds.
  - apply ema_multiplier_bounds, Hpos.
  - now apply Forall_drop.
  - now apply ema_seed_bounds.
Qed.

Lemma ema_within_close_range_witness :
  (97 <= calculateEMA (F := Q) exampleKlines 5 <= 105)%Q.
Proof.
  apply (ema_within_close_range exampleKlines 5 97 105).
  - lia.
  - simpl. lia.
  - repeat constructor; vm_compute; congruence.
Defined.


Section ExactRSIDown.
#[local] Open Scope Q_scope.

Lemma closeChanges_length {F} `{Float64Ops F} (klines : list (Kline F)) :
  length (closeChanges klines) = (length klines - 1)%nat.
Proof.
  induction klines as [| prev [| cur rest] IH]; [reflexivity | reflexivity |].
  change (closeChanges (prev :: cur :: rest))
    with (fsub (Close cur) (Close prev) :: closeChanges (cur :: rest)).
  cbn [length] in *. lia.
Qed.

Lemma closeChanges_decreasing (klines : list (Kline Q)) :
  StrictlyDecreasingCloses klines -> Forall (fun ch => ch < 0) (closeChanges klines).
Proof.
  induction klines as [| prev [| cur rest] IH]; simpl; try constructor.
  - destruct H as [Hlt _]. to_Q. lra.
  - apply IH. now destruct H.
Qed.

(** On falling closes the first loop leaves the gains alone and collects
    a positive loss as soon as it sees one change. *)
Lemma rsiSeed_falling (changes : list Q) (acc : Q * Q) :
  Forall (fun ch => ch < 0) changes ->
  0 <= snd acc ->
  let r := fold_left (fun '(gains, losses) change =>
                        if fltb (ofZ 0) change then (fadd gains change, losses)
                        else (gains, fadd losses (fneg change)))
                     changes acc in
  fst r = fst acc /\ snd acc <= snd r /\ (changes <> [] -> 0 < snd r).
Proof.
  intros Hall. revert acc.
  induction Hall as [| ch changes Hch _ IH]; intros [g l] Hl; cbn [fold_left];
    cbn [fst snd] in Hl.
  - cbn [fst snd]. split; [reflexivity |]. split; [lra | congruence].
  - to_Q. destruct (Qltb (inject_Z 0) ch) eqn:E.
    { apply Qltb_lt in E. change (inject_Z 0) with 0 in E. lra. }
    destruct (IH (g, l + - ch)) as (Hg & Hmono & _); [cbn [snd]; lra |].
    cbn [fst snd] in *. split; [exact Hg |]. split; [lra | intros _; lra].
Qed.

Lemma rsiSmooth_falling (period : nat) (changes : list Q) (acc : Q * Q) :
  (0 < period)%nat ->
  Forall (fun ch => ch < 0) changes ->
  fst acc == 0 -> 0 < snd acc ->
  fst (rsiSmooth period changes acc) == 0 /\ 0 < snd (rsiSmooth period changes acc).
Proof.
  intros Hp Hall. unfold rsiSmooth.
  pose proof (inject_nat_pos period Hp) as Hp0.
  assert (Hp1 : 0 <= inject_Z (Z.of_nat period - 1)).
  { change 0 with (inject_Z 0). rewrite <- Zle_Qle. lia. }
  revert acc.
  induction Hall as [| ch changes Hch _ IH]; intros [g l] Hg Hl; cbn [fold_left];
    [now split |].
  to_Q. destruct (Qltb (inject_Z 0) ch) eqn:E.
  { apply Qltb_lt in E. change (inject_Z 0) with 0 in E. lra. }
  apply IH; cbn [fst snd] in *.
  - apply Qdiv_zero. rewrite Hg. ring.
  - apply Qlt_shift_div_l; [exact Hp0 | nra].
Qed.
End ExactRSIDown.

(** X2.  At exact arithmetic, with [period >= 1], on more than [period]
    candles whose closes fall at every step, the average gain is zero, the
    average loss is positive and [calculateRSI] is 0. *)
Theorem rsi_zero_on_falling_closes :
  forall (klines : list (Kline Q)) (period : nat),
    (0 < period)%nat ->
    (period < length klines)%nat ->
    StrictlyDecreasingCloses klines ->
    (fst (rsiAverages klines period) == 0)%Q
    /\ (0 < snd (rsiAverages klines period))%Q
    /\ (calculateRSI klines period == 0)%Q.
Proof.
  intros klines period Hpos Hlen Hdec.
  pose proof (closeChanges_decreasing klines Hdec) as Hall.
  assert (Havg : (fst (rsiAverages klines period) == 0)%Q
                 /\ (0 < snd (rsiAverages klines period))%Q).
  { unfold rsiAverages.
    pose proof (rsiSeed_falling (firstn period (closeChanges klines)) (ofZ 0, ofZ 0)
                  (Forall_take _ _ _ Hall)) as Hseed.
    fold (rsiSeed (firstn period (closeChanges klines))) in Hseed.
    destruct (rsiSeed (firstn period (closeChanges klines))) as [gains losses].
    destruct Hseed as (Hg & _ & Hl); [apply Qle_refl |].
    cbn [fst snd] in Hg, Hl. subst gains.
    assert (Hne : firstn period (closeChanges klines) <> []).
    { intros Hnil. apply (f_equal (@length Q)) in Hnil.
      rewrite length_firstn, closeChanges_length in Hnil. simpl in Hnil. lia. }
    pose proof (inject_nat_pos period Hpos) as Hp0.
    apply rsiSmooth_falling; [exact Hpos | now apply Forall_drop | |]; cbn [fst snd].
    - to_Q. now apply Qdiv_zero.
    - to_Q. apply Qlt_shift_div_l; [exact Hp0 |]. specialize (Hl Hne). lra. }
  destruct Havg as [Hg Hl]. split; [exact Hg |]. split; [exact Hl |].
  rewrite (calculateRSI_unfold klines period Hlen).
  destruct (rsiAverages klines period) as [g l]. cbn [fst snd] in *.
  to_Q. change (inject_Z 0) with 0%Q.
  destruct (Qeq_bool_cases l 0) as [[Hz _] | [[Hneg _] | [_ E]]]; [lra | lra |].
  rewrite E, Hg. change (inject_Z 100) with 100%Q. change (inject_Z 1) with 1%Q.
  field. lra.
Qed.

Lemma rsi_zero_on_falling_closes_witness :
  (calculateRSI (F := Q) (map (fun c => closeOnly (inject_Z c)) [9; 7; 4; 2; 1]%Z) 3 == 0)%Q.
Proof.
  apply (rsi_zero_on_falling_closes
           (map (fun c => closeOnly (inject_Z c)) [9; 7; 4; 2; 1]%Z) 3).
  - lia.
  - simpl. lia.
  - simpl. repeat split; reflexivity.
Defined.

(** ** MACD and ATR at exact arithmetic *)

Section ExactRanges.
#[local] Open Scope Q_scope.

Lemma fmax_cases (x y : Q) :
  (x <= y /\ fmax x y = y) \/ (y < x /\ fmax x y = x).
Proof.
  cbn [fmax exactQ].
  destruct (Qle_bool_cases x y) as [[Hle E] | [Hlt E]]; rewrite E; [left | right];
    split; auto.
Qed.

Lemma trueRanges_length {F} `{Float64Ops F} (klines : list (Kline F)) :
  length (trueRanges klines) = (length klines - 1)%nat.
Proof.
  induction klines as [| prev [| cur rest] IH]; [reflexivity | reflexivity |].
  change (trueRanges (prev :: cur :: rest))
    with (fmax (fsub (High cur) (Low cur))
               (fmax (fabs (fsub (High cur) (Close prev)))
                     (fabs (fsub (Low cur) (Close prev))))
          :: trueRanges (cur :: rest)).
  cbn [length] in *. lia.
Qed.

(** Every true range is the largest of three spans, two of which are
    absolute values. *)
Lemma trueRanges_between (lo hi : Q) (klines : list (Kline Q)) :
  Forall (candleWithin lo hi) klines ->
  Forall (fun tr => 0 <= tr <= hi - lo) (trueRanges klines).
Proof.
  induction klines as [| prev [| cur rest] IH]; intros Hall; [constructor | constructor |].
  change (trueRanges (prev :: cur :: rest))
    with (fmax (fsub (High cur) (Low cur))
               (fmax (fabs (fsub (High cur) (Close prev)))
                     (fabs (fsub (Low cur) (Close prev))))
          :: trueRanges (cur :: rest)).
  inversion Hall as [| ? ? Hprev Hrest]; subst.
  constructor; [| exact (IH Hrest)].
  inversion Hrest as [| ? ? Hcur _]; subst.
  destruct Hprev as (_ & _ & _ & Hpc), Hcur as (Hl & Hlh & Hh & _).
  to_Q.
  pose proof (Qabs_nonneg (High cur - Close prev)) as A1.
  pose proof (Qabs_nonneg (Low cur - Close prev)) as A2.
  assert (B1 : Qabs (High cur - Close prev) <= hi - lo) by (apply Qabs_Qle_condition; lra).
  assert (B2 : Qabs (Low cur - Close prev) <= hi - lo) by (apply Qabs_Qle_condition; lra).
  destruct (fmax_cases (Qabs (High cur - Close prev)) (Qabs (Low cur - Close prev)))
    as [[? ->] | [? ->]];
    match goal with |- _ <= fmax ?a ?b <= _ =>
      destruct (fmax_cases a b) as [[? ->] | [? ->]] end; lra.
Qed.

Lemma atr_sum_bounds (hi : Q) (trs : list Q) (acc : Q) :
  Forall (fun tr => 0 <= tr <= hi) trs ->
  let sum := fold_left (fun sum tr => fadd sum tr) trs acc in
  acc <= sum <= acc + inject_Z (Z.of_nat (length trs)) * hi.
Proof.
  intros Hall. revert acc.
  induction Hall as [| tr trs [Hlo Hhi] _ IH]; intros acc; cbn [fold_left].
  - cbn [length]. change (inject_Z (Z.of_nat 0)) with 0. lra.
  - specialize (IH (fadd acc tr)). cbn zeta in IH. to_Q.
    cbn [length]. rewrite Nat2Z.inj_succ, <- Z.add_1_r, inject_Z_plus.
    change (inject_Z 1) with 1. lra.
Qed.

Lemma atr_smoothing_bounds (period : nat) (hi : Q) (trs : list Q) (atr : Q) :
  (0 < period)%nat ->
  Forall (fun tr => 0 <= tr <= hi) trs ->
  0 <= atr <= hi ->
  0 <= fold_left (fun atr tr =>
                    fdiv (fadd (fmul atr (ofZ (Z.of_nat period - 1))) tr)
                         (ofZ (Z.of_nat period)))
                 trs atr <= hi.
Proof.
  intros Hp Hall. revert atr.
  pose proof (inject_nat_pos period Hp) as Hp0.
  assert (Hp1 : inject_Z (Z.of_nat period - 1) == inject_Z (Z.of_nat period) - 1).
  { unfold Z.sub. rewrite inject_Z_plus. reflexivity. }
  induction Hall as [| tr trs [Hlo Hhi] _ IH]; intros atr Hatr; cbn [fold_left];
    [exact Hatr |].
  assert (Hge : 1 <= inject_Z (Z.of_nat period)).
  { change 1 with (inject_Z 1). rewrite <- Zle_Qle. lia. }
  apply IH. to_Q. rewrite Hp1. destruct Hatr as [Ha0 Ha1]. split.
  - apply Qle_shift_div_l; [exact Hp0 | nra].
  - apply Qle_shift_div_r; [exact Hp0 | nra].
Qed.
End ExactRanges.

(** X3.  At exact arithmetic, with [period >= 1], the ATR is never
    negative, and it is at most [hi - lo] when the lows, highs and closes of
    all candles lie in [lo, hi]; on candles which never move it is 0. *)
Theorem atr_within_candle_span :
  forall (klines : list (Kline Q)) (period : nat) (lo hi : Q),
    (0 < period)%nat ->
    (lo <= hi)%Q ->
    Forall (candleWithin lo hi) klines ->
    (0 <= calculateATR klines period <= hi - lo)%Q.
Proof.
  intros klines period lo hi Hpos Hlohi Hall.
  unfold calculateATR.
  destruct (Nat.leb_spec (length klines) period) as [Hshort | Hlong].
  - to_Q. change (inject_Z 0) with 0%Q. lra.
  - pose proof (trueRanges_between lo hi klines Hall) as Htr.
    apply atr_smoothing_bounds; [exact Hpos | now apply Forall_drop |].
    pose proof (atr_sum_bounds (hi - lo) (firstn period (trueRanges klines)) (ofZ 0)
                  (Forall_take _ _ _ Htr)) as [Hlo Hhi].
    rewrite length_firstn, trueRanges_length, Nat.min_l in Hhi by lia.
    pose proof (inject_nat_pos period Hpos) as Hp.
    to_Q. change (inject_Z 0) with 0%Q in *. split.
    + apply Qle_shift_div_l; [exact Hp | lra].
    + apply Qle_shift_div_r; [exact Hp | lra].
Qed.

Lemma atr_within_candle_span_witness :
  (0 <= calculateATR (F := Q) exampleKlines 3 <= 105 - 97)%Q.
Proof.
  apply (atr_within_candle_span exampleKlines 3 97 105).
  - lia.
  - vm_compute. congruence.
  - repeat constructor; vm_compute; congruence.
Defined.

(** X4.  At exact arithmetic, on at least 26 candles whose closes lie in
    [lo, hi], the MACD is at most [hi - lo] in absolute value; on a constant
    series it is 0. *)
Theorem macd_within_close_spread :
  forall (klines : list (Kline Q)) (lo hi : Q),
    (26 <= length klines)%nat ->
    Forall (fun k => (lo <= Close k <= hi)%Q) klines ->
    (Qabs (calculateMACD klines) <= hi - lo)%Q.
Proof.
  intros klines lo hi Hlen Hall.
  unfold calculateMACD.
  destruct (Nat.ltb_spec (length klines) 26); [lia |].
  assert (Hema : forall period, (0 < period)%nat -> (period <= 26)%nat ->
            (lo <= calculateEMA klines period <= hi)%Q).
  { intros period Hpos Hle. unfold calculateEMA.
    destruct (Nat.ltb_spec (length klines) period); [lia |].
    apply ema_updates_bounds;
      [apply ema_multiplier_bounds, Hpos | now apply Forall_drop |].
    apply ema_seed_bounds; [exact Hpos | lia | exact Hall]. }
  pose proof (Hema 12%nat ltac:(lia) ltac:(lia)) as H12.
  pose proof (Hema 26%nat ltac:(lia) ltac:(lia)) as H26.
  to_Q. apply Qabs_Qle_condition. lra.
Qed.

Lemma macd_within_close_spread_witness :
  (Qabs (calculateMACD (F := Q) flatKlines) <= 100 - 100)%Q.
Proof.
  apply (macd_within_close_spread flatKlines 100 100).
  - simpl. lia.
  - repeat constructor; vm_compute; congruence.
Defined.

(** ** The intraday series *)

Section IntradayFacts.
Context {F : Type} `{Float64Ops F}.

Lemma prefixTo_last (klines : list (Kline F)) :
  prefixTo klines (length klines - 1) = klines.
Proof.
  unfold prefixTo. apply firstn_all2. lia.
Qed.

(** The state of the loop of [calculateIntradaySeries] after the candles
    [start .. start + n - 1]. *)
Lemma intraday_loop (klines : list (Kline F)) (step : IntradayData F -> nat -> IntradayData F)
      (start n : nat) :
  (forall data i k, klines !! i = Some k ->
     step data i
     = mkIntraday (MidPrices data ++ [Close k])
         (if (19 <=? i)%nat then EMA20Values data ++ [calculateEMA (prefixTo klines i) 20]
          else EMA20Values data)
         (if (25 <=? i)%nat then MACDValues data ++ [calculateMACD (prefixTo klines i)]
          else MACDValues data)
         (if (7 <=? i)%nat then RSI7Values data ++ [calculateRSI (prefixTo klines i) 7]
          else RSI7Values data)
         (if (14 <=? i)%nat then RSI14Values data ++ [calculateRSI (prefixTo klines i) 14]
          else RSI14Values data)) ->
  (start + n <= length klines)%nat ->
  let data := fold_left step (seq start n) (mkIntraday [] [] [] [] []) in
  MidPrices data = map Close (firstn n (skipn start klines))
  /\ length (EMA20Values data) = (start + n - Nat.max start 19)%nat
  /\ length (MACDValues data) = (start + n - Nat.max start 25)%nat
  /\ length (RSI7Values data) = (start + n - Nat.max start 7)%nat
  /\ length (RSI14Values data) = (start + n - Nat.max start 14)%nat.
Proof.
  intros Hstep. induction n as [| n IH]; intros Hlen; cbn zeta.
  - cbn [seq fold_left MidPrices EMA20Values MACDValues RSI7Values RSI14Values length
         firstn map]. repeat split; lia.
  - rewrite seq_S, fold_left_app. cbn [fold_left].
    destruct IH as (Hmid & Hema & Hmacd & Hr7 & Hr14); [lia |].
    destruct (klines !! (start + n)%nat) as [k |] eqn:Hk;
      [| apply lookup_ge_None in Hk; lia].
    rewrite (Hstep _ _ k Hk).
    cbn [MidPrices EMA20Values MACDValues RSI7Values RSI14Values].
    split.
    { rewrite Hmid. assert (Hd : skipn start klines !! n = Some k).
      { rewrite lookup_drop. exact Hk. }
      rewrite (take_S_r _ _ _ Hd), map_app. reflexivity. }
    repeat split;
      match goal with
      | |- context [(?c <=? start + n)%nat] =>
          destruct (Nat.leb_spec c (start + n)); rewrite ?length_app; cbn [length]; lia
      end.
Qed.

Lemma intraday_last_step (klines : list (Kline F)) :
  klines <> [] ->
  exists data k,
    last klines = Some k
    /\ calculateIntradaySeries klines
       = let i := (length klines - 1)%nat in
         mkIntraday (MidPrices data ++ [Close k])
           (if (19 <=? i)%nat then EMA20Values data ++ [calculateEMA klines 20]
            else EMA20Values data)
           (if (25 <=? i)%nat then MACDValues data ++ [calculateMACD klines]
            else MACDValues data)
           (if (7 <=? i)%nat then RSI7Values data ++ [calculateRSI klines 7]
            else RSI7Values data)
           (if (14 <=? i)%nat then RSI14Values data ++ [calculateRSI klines 14]
            else RSI14Values data).
Proof.
  intros Hne. unfold calculateIntradaySeries.
  assert (Hlen : (0 < length klines)%nat) by (destruct klines; [congruence | simpl; lia]).
  set (start := (length klines - 10)%nat).
  replace (length klines - start)%nat with (S (length klines - start - 1)) by lia.
  rewrite seq_S, fold_left_app. cbn [fold_left].
  replace (start + (length klines - start - 1))%nat with (length klines - 1)%nat by lia.
  destruct (klines !! (length klines - 1)%nat) as [k |] eqn:Hk;
    [| apply lookup_ge_None in Hk; lia].
  rewrite prefixTo_last.
  eexists _, k. split; [| reflexivity].
  rewrite last_lookup. rewrite <- Hk. f_equal. lia.
Qed.
End IntradayFacts.

(** X5.  [calculateIntradaySeries] reports the closes of the last ten
    candles (all of them on a shorter history), oldest first, and each
    indicator series has one entry per reported candle on which the
    indicator is defined: from candle 19 on for the EMA20, 25 for the MACD,
    7 and 14 for the two RSIs. *)
Theorem intraday_series_shape :
  forall (F : Type) (ops : Float64Ops F) (klines : list (Kline F)),
    let data := calculateIntradaySeries klines in
    MidPrices data = map Close (skipn (length klines - 10) klines)
    /\ length (MidPrices data) = Nat.min 10 (length klines)
    /\ length (EMA20Values data) = Nat.min 10 (length klines - 19)
    /\ length (MACDValues data) = Nat.min 10 (length klines - 25)
    /\ length (RSI7Values data) = Nat.min 10 (length klines - 7)
    /\ length (RSI14Values data) = Nat.min 10 (length klines - 14).
Proof.
  intros F ops klines data. subst data. unfold calculateIntradaySeries.
  set (start := (length klines - 10)%nat).
  match goal with |- context [fold_left ?f _ _] => set (step := f) end.
  destruct (intraday_loop klines step start (length klines - start)) as
    (Hmid & Hema & Hmacd & Hr7 & Hr14).
  { intros data i k Hk. unfold step. rewrite Hk. reflexivity. }
  { lia. }
  rewrite Hmid, Hema, Hmacd, Hr7, Hr14.
  rewrite firstn_all2 by (rewrite length_skipn; lia).
  split; [reflexivity |].
  rewrite length_map, length_skipn. subst start. repeat split; lia.
Qed.

(** ** What the extremum detectors report *)

Section ExtremaFacts.
Context {F : Type} `{Float64Ops F}.

Lemma ForallOrdPairs_snoc {A} (R : A -> A -> Prop) (l : list A) (x : A) :
  ForallOrdPairs R l -> Forall (fun y => R y x) l -> ForallOrdPairs R (l ++ [x]).
Proof.
  induction 1 as [| y l Hy Hl IH]; intros Hall; cbn [app].
  - constructor; constructor.
  - inversion Hall as [| ? ? Hyx Hrest]; subst.
    constructor; [| exact (IH Hrest)].
    apply Forall_app. split; [exact Hy | constructor; [exact Hyx | constructor]].
Qed.

(** Both detectors are this loop, on the lows with [isLocalMin] and on the
    highs with [isLocalMax]. *)
Lemma extremum_fold_spec (klines : list (Kline F)) (price : Kline F -> F)
      (isLocal : nat -> F -> bool) (n : nat) :
  let body := fun (acc : list (levelPoint F)) (i : nat) =>
                match klines !! i with
                | None => acc
                | Some k =>
                    if isLocal i (price k) then
                      if existsb (fun existing => nearExtremum existing (price k)) acc
                      then acc
                      else acc ++ [mkPoint (price k) i]
                    else acc
                end in
  let good := fun p =>
                exists k, klines !! PointIndex p = Some k /\ PointPrice p = price k
                          /\ isLocal (PointIndex p) (price k) = true in
  let apart := fun p q => (PointIndex p < PointIndex q)%nat
                          /\ nearExtremum p (PointPrice q) = false in
  forall start acc,
    Forall good acc -> ForallOrdPairs apart acc ->
    Forall (fun p => (PointIndex p < start)%nat) acc ->
    Forall good (fold_left body (seq start n) acc)
    /\ ForallOrdPairs apart (fold_left body (seq start n) acc).
Proof.
  intros body good apart.
  induction n as [| n IH]; intros start acc Hgood Hapart Hbelow; cbn [seq fold_left];
    [now split |].
  assert (Hstep : Forall good (body acc start) /\ ForallOrdPairs apart (body acc start)
                  /\ Forall (fun p => (PointIndex p < S start)%nat) (body acc start)).
  { assert (Hbelow' : Forall (fun p => (PointIndex p < S start)%nat) acc).
    { eapply List.Forall_impl; [| exact Hbelow]. cbn beta. intros; lia. }
    unfold body. destruct (klines !! start) as [k |] eqn:Hk; [| now repeat split].
    destruct (isLocal start (price k)) eqn:Hloc; [| now repeat split].
    destruct (existsb _ acc) eqn:Hex; [now repeat split |].
    split; [| split].
    - apply Forall_app. split; [exact Hgood |].
      constructor; [| constructor]. exists k. cbn [PointIndex PointPrice]. now repeat split.
    - apply ForallOrdPairs_snoc; [exact Hapart |].
      apply List.Forall_forall. intros p Hp. split.
      + cbn [PointIndex]. rewrite List.Forall_forall in Hbelow. now apply Hbelow.
      + cbn [PointPrice].
        destruct (nearExtremum p (price k)) eqn:Hnear; [| reflexivity].
        rewrite <- Hex. symmetry. apply existsb_exists. now exists p.
    - apply Forall_app. split; [exact Hbelow' |].
      constructor; [cbn [PointIndex]; lia | constructor]. }
  destruct Hstep as (Hg & Ha & Hb). now apply IH.
Qed.

Lemma findLocalMinima_spec (klines : list (Kline F)) :
  Forall (fun p => exists k, klines !! PointIndex p = Some k /\ PointPrice p = Low k
                             /\ isLocalMin klines (PointIndex p) (Low k) = true)
         (findLocalMinima klines)
  /\ ForallOrdPairs (fun p q => (PointIndex p < PointIndex q)%nat
                                /\ nearExtremum p (PointPrice q) = false)
                    (findLocalMinima klines).
Proof.
  unfold findLocalMinima.
  destruct (length klines <? 3)%nat; [split; constructor |].
  apply (extremum_fold_spec klines Low (isLocalMin klines)); constructor.
Qed.

Lemma findLocalMaxima_spec (klines : list (Kline F)) :
  Forall (fun p => exists k, klines !! PointIndex p = Some k /\ PointPrice p = High k
                             /\ isLocalMax klines (PointIndex p) (High k) = true)
         (findLocalMaxima klines)
  /\ ForallOrdPairs (fun p q => (PointIndex p < PointIndex q)%nat
                                /\ nearExtremum p (PointPrice q) = false)
                    (findLocalMaxima klines).
Proof.
  unfold findLocalMaxima.
  destruct (length klines <? 3)%nat; [split; constructor |].
  apply (extremum_fold_spec klines High (isLocalMax klines)); constructor.
Qed.

Lemma window_test (klines : list (Kline F)) (test : Kline F -> bool) (i j : nat) (kj : Kline F) :
  forallb (fun j => if (j =? i)%nat then true
                    else match klines !! j with
                         | Some k => test k
                         | None => true
                         end) (seq (i - 3) 7) = true ->
  (3 <= i)%nat -> (i - 3 <= j <= i + 3)%nat -> j <> i -> klines !! j = Some kj ->
  test kj = true.
Proof.
  intros Hall Hi Hj Hne Hkj.
  rewrite forallb_forall in Hall.
  specialize (Hall j). rewrite in_seq in Hall.
  destruct (Nat.eqb_spec j i); [contradiction |].
  rewrite Hkj in Hall. apply Hall. lia.
Qed.
End ExtremaFacts.

(** X7.  Every point [findLocalMinima] reports is the low of the candle
    at its index, at least three candles away from both ends, and no
    other candle within three positions has a strictly lower low; likewise
    every point of [findLocalMaxima] is a high which no candle within three
    positions exceeds. *)
Theorem extrema_are_window_extremes :
  forall (F : Type) (ops : Float64Ops F) (klines : list (Kline F)) (p : levelPoint F),
    (In p (findLocalMinima klines) ->
     exists k, klines !! PointIndex p = Some k /\ PointPrice p = Low k
       /\ (3 <= PointIndex p)%nat /\ (PointIndex p + 3 < length klines)%nat
       /\ forall j kj, (PointIndex p - 3 <= j <= PointIndex p + 3)%nat ->
                       j <> PointIndex p ->
                       klines !! j = Some kj -> fltb (Low kj) (Low k) = false)
    /\ (In p (findLocalMaxima klines) ->
        exists k, klines !! PointIndex p = Some k /\ PointPrice p = High k
          /\ (3 <= PointIndex p)%nat /\ (PointIndex p + 3 < length klines)%nat
          /\ forall j kj, (PointIndex p - 3 <= j <= PointIndex p + 3)%nat ->
                          j <> PointIndex p ->
                          klines !! j = Some kj -> fltb (High k) (High kj) = false).
Proof.
  intros F ops klines p. split; intros Hin.
  - destruct (findLocalMinima_index klines p Hin) as [Hlo Hhi].
    destruct (findLocalMinima_spec klines) as [Hgood _].
    rewrite List.Forall_forall in Hgood.
    destruct (Hgood p Hin) as (k & Hk & Hprice & Hloc).
    exists k. repeat split; try assumption.
    intros j kj Hj Hne Hkj.
    apply negb_true_iff.
    exact (window_test klines (fun c => negb (fltb (Low c) (Low k))) _ j kj
             Hloc Hlo Hj Hne Hkj).
  - destruct (findLocalMaxima_index klines p Hin) as [Hlo Hhi].
    destruct (findLocalMaxima_spec klines) as [Hgood _].
    rewrite List.Forall_forall in Hgood.
    destruct (Hgood p Hin) as (k & Hk & Hprice & Hloc).
    exists k. repeat split; try assumption.
    intros j kj Hj Hne Hkj.
    apply negb_true_iff.
    exact (window_test klines (fun c => negb (fltb (High k) (High c))) _ j kj
             Hloc Hlo Hj Hne Hkj).
Qed.

Lemma extrema_are_window_extremes_witness :
  exists k, dippedKlines (F := Q) !! 10%nat = Some k /\ inject_Z 50000 = Low k
    /\ (3 <= 10)%nat /\ (10 + 3 < length (dippedKlines (F := Q)))%nat
    /\ forall j kj, (10 - 3 <= j <= 10 + 3)%nat -> j <> 10%nat ->
                    dippedKlines (F := Q) !! j = Some kj -> fltb (Low kj) (Low k) = false.
Proof.
  apply (proj1 (extrema_are_window_extremes Q exactQ dippedKlines
                  (mkPoint (inject_Z 50000) 10))).
  vm_compute. right. left. reflexivity.
Defined.

(** X8.  The points of [findLocalMinima] and of [findLocalMaxima] are
    listed by increasing index, and a point is never within 0.1% (by the
    detector's own test) of an earlier point of the list: the earlier of
    two close extrema is the one kept. *)
Theorem extrema_are_spaced :
  forall (F : Type) (ops : Float64Ops F) (klines : list (Kline F)),
    ForallOrdPairs (fun p q => (PointIndex p < PointIndex q)%nat
                               /\ nearExtremum p (PointPrice q) = false)
                   (findLocalMinima klines)
    /\ ForallOrdPairs (fun p q => (PointIndex p < PointIndex q)%nat
                                  /\ nearExtremum p (PointPrice q) = false)
                      (findLocalMaxima klines).
Proof.
  intros F ops klines. split.
  - apply findLocalMinima_spec.
  - apply findLocalMaxima_spec.
Qed.

(** ** Trending markets *)

Section TrendFacts.
Context {F : Type} `{Float64Ops F}.

Lemma risingCandles_lookup (klines : list (Kline F)) (i : nat) (a b : Kline F) :
  risingCandles klines -> klines !! i = Some a -> klines !! S i = Some b ->
  fltb (Low a) (Low b) = true /\ fltb (High a) (High b) = true.
Proof.
  revert i. induction klines as [| prev [| cur rest] IH]; intros i Hr Ha Hb;
    [discriminate | destruct i; discriminate |].
  destruct Hr as (Hl & Hh & Hrest).
  destruct i as [| i].
  - injection Ha as <-. injection Hb as <-. now split.
  - exact (IH i Hrest Ha Hb).
Qed.

Lemma fallingCandles_lookup (klines : list (Kline F)) (i : nat) (a b : Kline F) :
  fallingCandles klines -> klines !! i = Some a -> klines !! S i = Some b ->
  fltb (Low b) (Low a) = true /\ fltb (High b) (High a) = true.
Proof.
  revert i. induction klines as [| prev [| cur rest] IH]; intros i Hr Ha Hb;
    [discriminate | destruct i; discriminate |].
  destruct Hr as (Hl & Hh & Hrest).
  destruct i as [| i].
  - injection Ha as <-. injection Hb as <-. now split.
  - exact (IH i Hrest Ha Hb).
Qed.

Lemma risingCandles_skipn (n : nat) (klines : list (Kline F)) :
  risingCandles klines -> risingCandles (skipn n klines).
Proof.
  revert klines. induction n as [| n IH]; intros klines Hr; [exact Hr |].
  destruct klines as [| prev [| cur rest]]; [exact I | destruct n; exact I |].
  apply IH. now destruct Hr as (_ & _ & Hrest).
Qed.

Lemma fallingCandles_skipn (n : nat) (klines : list (Kline F)) :
  fallingCandles klines -> fallingCandles (skipn n klines).
Proof.
  revert klines. induction n as [| n IH]; intros klines Hr; [exact Hr |].
  destruct klines as [| prev [| cur rest]]; [exact I | destruct n; exact I |].
  apply IH. now destruct Hr as (_ & _ & Hrest).
Qed.

(** A candle with a strictly lower low next to every candle leaves no
    local minimum, and likewise for the highs. *)
Lemma no_minima_when_neighbour_lower (klines : list (Kline F)) :
  (forall i k, (3 <= i)%nat -> (i + 3 < length klines)%nat -> klines !! i = Some k ->
     exists j kj, (i - 3 <= j <= i + 3)%nat /\ j <> i /\ klines !! j = Some kj
                  /\ fltb (Low kj) (Low k) = true) ->
  findLocalMinima klines = [].
Proof.
  intros Hnb. destruct (findLocalMinima klines) as [| p l] eqn:E; [reflexivity |].
  assert (Hin : In p (findLocalMinima klines)) by (rewrite E; now left).
  destruct (findLocalMinima_index klines p Hin) as [Hlo Hhi].
  destruct (findLocalMinima_spec klines) as [Hgood _].
  rewrite List.Forall_forall in Hgood.
  destruct (Hgood p Hin) as (k & Hk & _ & Hloc).
  destruct (Hnb _ k Hlo Hhi Hk) as (j & kj & Hj & Hne & Hkj & Hlt).
  pose proof (window_test klines (fun c => negb (fltb (Low c) (Low k))) _ j kj
                Hloc Hlo Hj Hne Hkj) as Hno.
  cbn beta in Hno. rewrite Hlt in Hno. discriminate.
Qed.

Lemma no_maxima_when_neighbour_higher (klines : list (Kline F)) :
  (forall i k, (3 <= i)%nat -> (i + 3 < length klines)%nat -> klines !! i = Some k ->
     exists j kj, (i - 3 <= j <= i + 3)%nat /\ j <> i /\ klines !! j = Some kj
                  /\ fltb (High k) (High kj) = true) ->
  findLocalMaxima klines = [].
Proof.
  intros Hnb. destruct (findLocalMaxima klines) as [| p l] eqn:E; [reflexivity |].
  assert (Hin : In p (findLocalMaxima klines)) by (rewrite E; now left).
  destruct (findLocalMaxima_index klines p Hin) as [Hlo Hhi].
  destruct (findLocalMaxima_spec klines) as [Hgood _].
  rewrite List.Forall_forall in Hgood.
  destruct (Hgood p Hin) as (k & Hk & _ & Hloc).
  destruct (Hnb _ k Hlo Hhi Hk) as (j & kj & Hj & Hne & Hkj & Hlt).
  pose proof (window_test klines (fun c => negb (fltb (High k) (High c))) _ j kj
                Hloc Hlo Hj Hne Hkj) as Hno.
  cbn beta in Hno. rewrite Hlt in Hno. discriminate.
Qed.

Lemma neighbours_exist (klines : list (Kline F)) (i : nat) :
  (3 <= i)%nat -> (i + 3 < length klines)%nat ->
  exists a b, klines !! (i - 1)%nat = Some a /\ klines !! S i = Some b.
Proof.
  intros Hlo Hhi.
  destruct (lookup_lt_is_Some_2 klines (i - 1)) as [a Ha]; [lia |].
  destruct (lookup_lt_is_Some_2 klines (S i)) as [b Hb]; [lia |].
  now exists a, b.
Qed.

Lemma trend_without_extrema (klines : list (Kline F)) :
  risingCandles klines \/ fallingCandles klines ->
  findLocalMinima klines = [] /\ findLocalMaxima klines = [].
Proof.
  intros [Hr | Hf]; split.
  - apply no_minima_when_neighbour_lower. intros i k Hlo Hhi Hk.
    destruct (neighbours_exist klines i Hlo Hhi) as (a & _ & Ha & _).
    exists (i - 1)%nat, a. repeat split; try lia; [exact Ha |].
    apply (risingCandles_lookup klines (i - 1) a k Hr Ha).
    now replace (S (i - 1)) with i by lia.
  - apply no_maxima_when_neighbour_higher. intros i k Hlo Hhi Hk.
    destruct (neighbours_exist klines i Hlo Hhi) as (_ & b & _ & Hb).
    exists (S i), b. repeat split; try lia; [exact Hb |].
    apply (risingCandles_lookup klines i k b Hr Hk Hb).
  - apply no_minima_when_neighbour_lower. intros i k Hlo Hhi Hk.
    destruct (neighbours_exist klines i Hlo Hhi) as (_ & b & _ & Hb).
    exists (S i), b. repeat split; try lia; [exact Hb |].
    apply (fallingCandles_lookup klines i k b Hf Hk Hb).
  - apply no_maxima_when_neighbour_higher. intros i k Hlo Hhi Hk.
    destruct (neighbours_exist klines i Hlo Hhi) as (a & _ & Ha & _).
    exists (i - 1)%nat, a. repeat split; try lia; [exact Ha |].
    apply (fallingCandles_lookup klines (i - 1) a k Hf Ha).
    now replace (S (i - 1)) with i by lia.
Qed.

Lemma levels_without_extrema (klines : list (Kline F)) (lookback : nat) :
  findLocalMinima (recentWindow klines lookback) = [] ->
  findLocalMaxima (recentWindow klines lookback) = [] ->
  calculateSupportResistanceLevels klines lookback = ([], []).
Proof.
  intros Hmin Hmax. unfold calculateSupportResistanceLevels.
  destruct (length klines =? 0)%nat; [reflexivity |].
  destruct (last (recentWindow klines lookback)) as [lastCandle |]; [| reflexivity].
  rewrite Hmin, Hmax.
  cbn [initStats fold_left].
  rewrite scan_without_extrema.
  cbn [supportCandidates resistanceCandidates fold_left].
  rewrite !mergeNearbyLevels_nil, !updateLevelDistances_nil.
  reflexivity.
Qed.
End TrendFacts.

(** X9.  On a history whose lows and highs both rise at every candle, or
    both fall at every candle, [calculateSupportResistanceLevels] finds
    no extremum and reports no support and no resistance, whatever the
    length of the history. *)
Theorem trending_market_has_no_levels :
  forall (F : Type) (ops : Float64Ops F) (klines : list (Kline F)) (lookback : nat),
    risingCandles klines \/ fallingCandles klines ->
    calculateSupportResistanceLevels klines lookback = ([], []).
Proof.
  intros F ops klines lookback Htrend.
  assert (Hw : risingCandles (recentWindow klines lookback)
               \/ fallingCandles (recentWindow klines lookback)).
  { unfold recentWindow. destruct Htrend as [Hr | Hf];
      [left; now apply risingCandles_skipn | right; now apply fallingCandles_skipn]. }
  destruct (trend_without_extrema _ Hw) as [Hmin Hmax].
  now apply levels_without_extrema.
Qed.

Lemma trending_market_has_no_levels_witness :
  calculateSupportResistanceLevels (F := float) risingKlines 120 = ([], []).
Proof.
  apply (trending_market_has_no_levels float binary64 risingKlines 120).
  left. simpl. repeat split; reflexivity.
Defined.


(** ** Recency weights *)

Section ExactRecency.
#[local] Open Scope Q_scope.

(** The index once clamped to [0 .. total - 1]. *)
Lemma clamped_index (total index : Z) :
  (1 < total)%Z ->
  let i1 := if (index <? 0)%Z then 0%Z else index in
  let i2 := if (i1 >=? total)%Z then (total - 1)%Z else i1 in
  i2 = Z.max 0 (Z.min index (total - 1)).
Proof.
  intros Ht. cbn zeta.
  destruct (Z.ltb_spec index 0); rewrite Z.geb_leb;
    match goal with |- context [(total <=? ?x)%Z] => destruct (Z.leb_spec total x) end; lia.
Qed.

Lemma calcRecencyWeight_clamped (total index : Z) :
  (1 < total)%Z ->
  calcRecencyWeight (F := Q) total index
  == (1 # 2) + (1 # 2) * (inject_Z (Z.max 0 (Z.min index (total - 1)))
                          / inject_Z (total - 1)).
Proof.
  intros Ht. unfold calcRecencyWeight.
  destruct (Z.leb_spec total 1); [lia |].
  rewrite (clamped_index total index Ht). to_Q. rewrite lit_half. reflexivity.
Qed.
End ExactRecency.

(** X10.  At exact arithmetic the recency weight of a touch lies between
    1/2 and 1, never decreases with the index of the candle, and is 1 for
    the last candle of the window. *)
Theorem recency_weight_between_half_and_one :
  forall (total index index' : Z),
    ((1 # 2) <= calcRecencyWeight (F := Q) total index <= 1)%Q
    /\ ((index <= index')%Z ->
        (calcRecencyWeight (F := Q) total index
         <= calcRecencyWeight (F := Q) total index')%Q)
    /\ (calcRecencyWeight (F := Q) total (total - 1) == 1)%Q.
Proof.
  intros total index index'.
  destruct (Z.leb_spec total 1) as [Hle | Hgt].
  - unfold calcRecencyWeight. destruct (Z.leb_spec total 1); [| lia].
    to_Q. change (inject_Z 1) with 1%Q. split; [lra |]. split; [intros _; lra | lra].
  - assert (Hd : (0 < inject_Z (total - 1))%Q).
    { change 0%Q with (inject_Z 0). rewrite <- Zlt_Qlt. lia. }
    assert (Hfrac : forall i, (0 <= i <= total - 1)%Z ->
              (0 <= inject_Z i / inject_Z (total - 1) <= 1)%Q).
    { intros i Hi. split.
      - apply Qle_shift_div_l; [exact Hd |]. rewrite Qmult_0_l.
        change 0%Q with (inject_Z 0). rewrite <- Zle_Qle. lia.
      - apply Qle_shift_div_r; [exact Hd |]. rewrite Qmult_1_l.
        rewrite <- Zle_Qle. lia. }
    rewrite !calcRecencyWeight_clamped by exact Hgt.
    split; [| split].
    + pose proof (Hfrac (Z.max 0 (Z.min index (total - 1))) ltac:(lia)). lra.
    + intros Hii.
      assert (Hmono : (inject_Z (Z.max 0 (Z.min index (total - 1))) / inject_Z (total - 1)
                       <= inject_Z (Z.max 0 (Z.min index' (total - 1)))
                          / inject_Z (total - 1))%Q).
      { apply Qle_shift_div_l; [exact Hd |].
        unfold Qdiv. rewrite <- Qmult_assoc, (Qmult_comm (/ _)), Qmult_inv_r, Qmult_1_r
          by lra.
        rewrite <- Zle_Qle. lia. }
      lra.
    + replace (Z.max 0 (Z.min (total - 1) (total - 1))) with (total - 1)%Z by lia.
      field. lra.
Qed.

(** ** Strength of the reported levels *)

Section StrengthFacts.
Context {F : Type} `{Float64Ops F}.

Lemma initStats_counted (total : nat) (points : list (levelPoint F)) :
  countedTouches (initStats total points).
Proof.
  unfold initStats.
  assert (Hgen : forall stats, countedTouches stats ->
             countedTouches
               (fold_left (fun stats point =>
                  <[PointIndex point :=
                      mkStats 1 (calcRecencyWeight (Z.of_nat total)
                                                   (Z.of_nat (PointIndex point)))]> stats)
                  points stats)).
  { induction points as [| p points IH]; intros stats Hs; cbn [fold_left]; [exact Hs |].
    apply IH. intros i st. rewrite lookup_insert.
    destruct (decide (PointIndex p = i)); [| apply Hs].
    intros [= <-]. cbn [touches]. lia. }
  apply Hgen. intros i st. rewrite lookup_empty. discriminate.
Qed.

Lemma touch_counted (total idx : nat) (point : levelPoint F) stats st :
  countedTouches stats -> stats !! PointIndex point = Some st ->
  countedTouches (touch total idx point stats st).
Proof.
  intros Hs Hst i st'. unfold touch. rewrite lookup_insert.
  destruct (decide (PointIndex point = i)); [| apply Hs].
  intros [= <-]. cbn [touches]. pose proof (Hs _ _ Hst). lia.
Qed.

Lemma scanSupports_counted total tolerance localMins stats ic :
  countedTouches stats -> countedTouches (scanSupports total tolerance localMins stats ic).
Proof.
  destruct ic as [idx candle]. unfold scanSupports. revert stats.
  induction localMins as [| p ps IH]; intros stats Hs; cbn [fold_left]; [exact Hs |].
  apply IH.
  destruct (idx =? PointIndex p)%nat; [exact Hs |].
  destruct (stats !! PointIndex p) as [st |] eqn:Hst; [| exact Hs].
  destruct (fleb (PointPrice p) _); [exact Hs |].
  destruct (_ && _); [now apply touch_counted | exact Hs].
Qed.

Lemma scanResistances_counted total tolerance localMaxs stats ic :
  countedTouches stats ->
  countedTouches (scanResistances total tolerance localMaxs stats ic).
Proof.
  destruct ic as [idx candle]. unfold scanResistances. revert stats.
  induction localMaxs as [| p ps IH]; intros stats Hs; cbn [fold_left]; [exact Hs |].
  apply IH.
  destruct (idx =? PointIndex p)%nat; [exact Hs |].
  destruct (stats !! PointIndex p) as [st |] eqn:Hst; [| exact Hs].
  destruct (fleb (PointPrice p) _); [exact Hs |].
  destruct (_ && _); [now apply touch_counted | exact Hs].
Qed.

Lemma scan_counted total tolerance localMins localMaxs
      (l : list (nat * Kline F)) (ss rs : gmap nat (levelStats F)) :
  countedTouches ss -> countedTouches rs ->
  countedTouches
    (fst (fold_left (fun '(ss, rs) ic =>
                       (scanSupports total tolerance localMins ss ic,
                        scanResistances total tolerance localMaxs rs ic)) l (ss, rs)))
  /\ countedTouches
       (snd (fold_left (fun '(ss, rs) ic =>
                          (scanSupports total tolerance localMins ss ic,
                           scanResistances total tolerance localMaxs rs ic)) l (ss, rs))).
Proof.
  revert ss rs. induction l as [| ic l IH]; intros ss rs Hss Hrs; cbn [fold_left];
    [now split |].
  apply IH; [now apply scanSupports_counted | now apply scanResistances_counted].
Qed.

Lemma supportCandidates_tagged (currentPrice : F) stats localMins :
  countedTouches stats ->
  Forall (taggedLevel true) (supportCandidates currentPrice stats localMins).
Proof.
  intros Hs. unfold supportCandidates.
  assert (Hgen : forall acc, Forall (taggedLevel true) acc ->
             Forall (taggedLevel true)
               (fold_left
                  (fun supports point =>
                     match stats !! PointIndex point with
                     | None => supports
                     | Some st =>
                         if fltb (PointPrice point) currentPrice
                         then supports ++ [mkLevel (PointPrice point) (touches st) (ofZ 0)
                                                   (weight st) true]
                         else supports
                     end) localMins acc)).
  { induction localMins as [| p ps IH]; intros acc Hacc; cbn [fold_left]; [exact Hacc |].
    apply IH. destruct (stats !! PointIndex p) as [st |] eqn:Hst; [| exact Hacc].
    destruct (fltb (PointPrice p) currentPrice); [| exact Hacc].
    apply Forall_app. split; [exact Hacc |]. constructor; [| constructor].
    split; [reflexivity | exact (Hs _ _ Hst)]. }
  apply Hgen. constructor.
Qed.

Lemma resistanceCandidates_tagged (currentPrice : F) stats localMaxs :
  countedTouches stats ->
  Forall (taggedLevel false) (resistanceCandidates currentPrice stats localMaxs).
Proof.
  intros Hs. unfold resistanceCandidates.
  assert (Hgen : forall acc, Forall (taggedLevel false) acc ->
             Forall (taggedLevel false)
               (fold_left
                  (fun resistances point =>
                     match stats !! PointIndex point with
                     | None => resistances
                     | Some st =>
                         if fltb currentPrice (PointPrice point)
                         then resistances ++ [mkLevel (PointPrice point) (touches st) (ofZ 0)
                                                      (weight st) false]
                         else resistances
                     end) localMaxs acc)).
  { induction localMaxs as [| p ps IH]; intros acc Hacc; cbn [fold_left]; [exact Hacc |].
    apply IH. destruct (stats !! PointIndex p) as [st |] eqn:Hst; [| exact Hacc].
    destruct (fltb currentPrice (PointPrice p)); [| exact Hacc].
    apply Forall_app. split; [exact Hacc |]. constructor; [| constructor].
    split; [reflexivity | exact (Hs _ _ Hst)]. }
  apply Hgen. constructor.
Qed.

Lemma mergeStep_tagged s (tolerance : F) merged current next :
  Forall (taggedLevel s) merged -> taggedLevel s current -> taggedLevel s next ->
  Forall (taggedLevel s) (fst (mergeStep tolerance (merged, current) next))
  /\ taggedLevel s (snd (mergeStep tolerance (merged, current) next)).
Proof.
  intros Hm [Hsc Hc] [Hsn Hn]. unfold mergeStep.
  destruct (fleb _ tolerance); cbn [fst snd].
  - split; [exact Hm |]. split; cbn [IsSupport Strength]; [exact Hsc | lia].
  - split; [| now split].
    apply Forall_app. split; [exact Hm |]. constructor; [now split | constructor].
Qed.

Lemma mergeNearbyLevels_tagged s (levels : list (SupportResistanceLevel F)) tolerance :
  Forall (taggedLevel s) levels ->
  Forall (taggedLevel s) (mergeNearbyLevels levels tolerance).
Proof.
  intros Hl. unfold mergeNearbyLevels.
  pose proof (Forall_perm _ _ _
                (Permutation_sym (insertionSort_perm
                                    (fun a b => fltb (Price a) (Price b)) levels)) Hl)
    as Hsorted.
  destruct (insertionSort _ levels) as [| first rest]; [constructor |].
  inversion Hsorted as [| ? ? Hfirst Hrest]; subst.
  assert (Hgen : forall rest merged current,
             Forall (taggedLevel s) rest ->
             Forall (taggedLevel s) merged -> taggedLevel s current ->
             Forall (taggedLevel s)
                    (fst (fold_left (mergeStep tolerance) rest (merged, current)))
             /\ taggedLevel s
                  (snd (fold_left (mergeStep tolerance) rest (merged, current)))).
  { clear. induction rest as [| next rest IH]; intros merged current Hr Hm Hc;
      cbn [fold_left]; [now split |].
    inversion Hr; subst.
    destruct (mergeStep_tagged s tolerance merged current next) as [Hm' Hc'];
      try assumption.
    destruct (mergeStep tolerance (merged, current) next) as [merged' current'].
    now apply IH. }
  destruct (Hgen rest [] (setDistance first (ofZ 0))) as [Hm Hc];
    [assumption | constructor | exact Hfirst |].
  destruct (fold_left _ rest _) as [merged current]. cbn [fst snd] in *.
  apply Forall_app. split; [exact Hm | now constructor].
Qed.

Lemma updateLevelDistances_tagged s (levels : list (SupportResistanceLevel F)) q b :
  Forall (taggedLevel s) levels ->
  Forall (taggedLevel s) (updateLevelDistances levels q b).
Proof.
  intros Hl. unfold updateLevelDistances.
  destruct (fleb q (ofZ 0)); [exact Hl |].
  rewrite List.Forall_forall in *. intros l Hin.
  apply in_map_iff in Hin as (l0 & <- & Hin0).
  specialize (Hl _ Hin0). unfold distanceTo. now destruct b.
Qed.

Lemma sortAndFilterLevels_tagged s (levels : list (SupportResistanceLevel F)) b :
  Forall (taggedLevel s) levels ->
  Forall (taggedLevel s) (sortAndFilterLevels levels b).
Proof.
  intros Hl. rewrite List.Forall_forall in *. intros l Hin.
  apply Hl. eapply sortAndFilterLevels_In, Hin.
Qed.
End StrengthFacts.

(** X11.  Every level [calculateSupportResistanceLevels] reports has a
    strength of at least 1, every support carries the support flag and
    every resistance does not; this holds in float64 as in any other
    arithmetic, the strength being an integer count. *)
Theorem reported_levels_are_counted_and_tagged :
  forall (F : Type) (ops : Float64Ops F) (klines : list (Kline F)) (lookback : nat),
    Forall (fun l => IsSupport l = true /\ (1 <= Strength l)%Z)
           (fst (calculateSupportResistanceLevels klines lookback))
    /\ Forall (fun l => IsSupport l = false /\ (1 <= Strength l)%Z)
              (snd (calculateSupportResistanceLevels klines lookback)).
Proof.
  intros F ops klines lookback. unfold calculateSupportResistanceLevels.
  destruct (length klines =? 0)%nat; [split; constructor |].
  destruct (last (recentWindow klines lookback)) as [lc |]; [| split; constructor].
  set (recent := recentWindow klines lookback).
  pose proof (scan_counted (length recent) (lit 2 1000)
                (findLocalMinima recent) (findLocalMaxima recent) (indexed recent)
                _ _ (initStats_counted (length recent) (findLocalMinima recent))
                (initStats_counted (length recent) (findLocalMaxima recent)))
    as [Hss Hrs].
  destruct (fold_left _ (indexed recent) _) as [ss rs]. cbn [fst snd] in *.
  split.
  - apply (sortAndFilterLevels_tagged true), updateLevelDistances_tagged,
      mergeNearbyLevels_tagged, supportCandidates_tagged, Hss.
  - apply (sortAndFilterLevels_tagged false), updateLevelDistances_tagged,
      mergeNearbyLevels_tagged, resistanceCandidates_tagged, Hrs.
Qed.


(** ** What merging conserves *)

Section MergeFacts.
Context {F : Type} `{Float64Ops F}.

Lemma totalStrength_app (l1 l2 : list (SupportResistanceLevel F)) :
  totalStrength (l1 ++ l2) = (totalStrength l1 + totalStrength l2)%Z.
Proof.
  induction l1 as [| x l1 IH]; cbn [app totalStrength fold_right]; [reflexivity |].
  fold (totalStrength (l1 ++ l2)). fold (totalStrength l1). lia.
Qed.

Lemma totalStrength_perm (l1 l2 : list (SupportResistanceLevel F)) :
  Permutation l1 l2 -> totalStrength l1 = totalStrength l2.
Proof.
  unfold totalStrength. induction 1; simpl; lia.
Qed.

(** The two outcomes of one step of the merge loop. *)
Lemma mergeStep_cases (tolerance : F) merged current next :
  (exists price,
      mergeStep tolerance (merged, current) next
      = (merged, mkLevel price (Strength current + Strength next) (Distance current)
                         (fadd (Score current) (Score next)) (IsSupport current)))
  \/ mergeStep tolerance (merged, current) next
     = (merged ++ [current], setDistance next (ofZ 0)).
Proof.
  unfold mergeStep. destruct (fleb _ tolerance); [left; eauto | right; reflexivity].
Qed.

Lemma merge_loop_strength (tolerance : F) rest merged current :
  let out := fold_left (mergeStep tolerance) rest (merged, current) in
  (totalStrength (fst out) + Strength (snd out)
   = totalStrength merged + Strength current + totalStrength rest)%Z
  /\ (length (fst out) <= length merged + length rest)%nat.
Proof.
  revert merged current.
  induction rest as [| next rest IH]; intros merged current; cbn [fold_left fst snd].
  - cbn [totalStrength fold_right length]. split; lia.
  - destruct (mergeStep_cases tolerance merged current next) as [[price ->] | ->];
      match goal with |- context [fold_left _ rest (?m, ?c)] =>
        destruct (IH m c) as [IHs IHl] end;
      cbn zeta in IHs, IHl |- *;
      cbn [totalStrength fold_right length] in *;
      fold (totalStrength rest) in *.
    + rewrite IHs. cbn [Strength]. split; lia.
    + rewrite IHs, totalStrength_app. rewrite length_app in IHl.
      cbn [totalStrength fold_right setDistance Strength length] in *. split; lia.
Qed.
End MergeFacts.

(** X12.  [mergeNearbyLevels] conserves the total strength of the levels
    it is given, returns at most as many levels as it was given, and
    returns none only when given none; this holds in float64 as in any
    other arithmetic. *)
Theorem merge_conserves_strength :
  forall (F : Type) (ops : Float64Ops F) (levels : list (SupportResistanceLevel F))
         (tolerance : F),
    totalStrength (mergeNearbyLevels levels tolerance) = totalStrength levels
    /\ (length (mergeNearbyLevels levels tolerance) <= length levels)%nat
    /\ (mergeNearbyLevels levels tolerance = [] <-> levels = []).
Proof.
  intros F ops levels tolerance. unfold mergeNearbyLevels.
  pose proof (insertionSort_perm (fun a b => fltb (Price a) (Price b)) levels) as Hperm.
  rewrite <- (totalStrength_perm _ _ Hperm), <- (Permutation_length Hperm).
  destruct (insertionSort _ levels) as [| first rest].
  - apply Permutation_nil in Hperm. subst levels. repeat split; reflexivity.
  - pose proof (merge_loop_strength tolerance rest [] (setDistance first (ofZ 0)))
      as [Hs Hl].
    cbn zeta in Hs, Hl.
    destruct (fold_left _ rest _) as [merged current]. cbn [fst snd] in *.
    rewrite totalStrength_app, length_app.
    cbn [totalStrength fold_right length setDistance Strength] in *.
    fold (totalStrength rest) in *.
    split; [lia |]. split; [lia |].
    split.
    + intros E. destruct merged; discriminate.
    + intros ->. apply Permutation_sym, Permutation_nil in Hperm. discriminate.
Qed.

Section ExactMergeOrder.
#[local] Open Scope Q_scope.

Lemma totalScore_app (l1 l2 : list (SupportResistanceLevel Q)) :
  totalScore (l1 ++ l2) == totalScore l1 + totalScore l2.
Proof.
  induction l1 as [| x l1 IH]; cbn [app totalScore fold_right].
  - fold (totalScore l2). lra.
  - fold (totalScore (l1 ++ l2)). fold (totalScore l1). lra.
Qed.

Lemma totalScore_perm (l1 l2 : list (SupportResistanceLevel Q)) :
  Permutation l1 l2 -> totalScore l1 == totalScore l2.
Proof.
  unfold totalScore. induction 1; simpl; lra.
Qed.

Lemma priceLess_asym (a b : SupportResistanceLevel Q) :
  fltb (Price a) (Price b) = true -> fltb (Price b) (Price a) = false.
Proof.
  to_Q. intros Hab. apply Qltb_lt in Hab.
  destruct (Qltb (Price b) (Price a)) eqn:E; [| reflexivity].
  apply Qltb_lt in E. lra.
Qed.

Lemma priceLess_false (a b : SupportResistanceLevel Q) :
  fltb (Price a) (Price b) = false <-> Price b <= Price a.
Proof.
  to_Q. split; intros Hab.
  - destruct (Qlt_le_dec (Price a) (Price b)) as [Hlt | Hle]; [| exact Hle].
    apply Qltb_lt in Hlt. congruence.
  - destruct (Qltb (Price a) (Price b)) eqn:E; [| reflexivity].
    apply Qltb_lt in E. lra.
Qed.

Lemma priceLess_negtrans (a b c : SupportResistanceLevel Q) :
  fltb (Price a) (Price b) = false -> fltb (Price b) (Price c) = false ->
  fltb (Price a) (Price c) = false.
Proof.
  rewrite !priceLess_false. intros. lra.
Qed.

Lemma sorted_by_price (levels : list (SupportResistanceLevel Q)) :
  StronglySorted (fun a b => Price a <= Price b)
                 (insertionSort (fun a b => fltb (Price a) (Price b)) levels).
Proof.
  eapply StronglySorted_weaken;
    [| apply (insertionSort_sorted (fun a b => fltb (Price a) (Price b))
                priceLess_asym priceLess_negtrans)].
  intros a b Hab. now apply priceLess_false.
Qed.

(** The loop keeps the finished levels in ascending order below the
    running level, which stays below the levels still to come. *)
Lemma merge_loop_order (tolerance : Q) rest merged current :
  StronglySorted (fun a b => Price a <= Price b) rest ->
  StronglySorted (fun a b => Price a <= Price b) merged ->
  Forall (fun l => Price l <= Price current) merged ->
  Forall (fun l => Price current <= Price l) rest ->
  Forall (fun l => 0 < Score l) rest -> Forall (fun l => 0 < Score l) merged ->
  0 < Score current ->
  let out := fold_left (mergeStep tolerance) rest (merged, current) in
  StronglySorted (fun a b => Price a <= Price b) (fst out ++ [snd out])
  /\ Forall (fun l => 0 < Score l) (fst out ++ [snd out])
  /\ totalScore (fst out) + Score (snd out)
     == totalScore merged + Score current + totalScore rest.
Proof.
  revert merged current.
  induction rest as [| next rest IH];
    intros merged current Hrest Hmerged Hbelow Habove Hsr Hsm Hsc; cbn [fold_left fst snd].
  - split; [now apply StronglySorted_snoc |].
    split; [apply Forall_app; split; [exact Hsm | now repeat constructor] |].
    cbn [totalScore fold_right]. lra.
  - inversion Hrest as [| ? ? Hrest' Hnext]; subst.
    inversion Habove as [| ? ? Hcn Habove']; subst.
    inversion Hsr as [| ? ? Hsn Hsr']; subst.
    cbn [totalScore fold_right]. fold (totalScore rest).
    assert (Hcase :
              mergeStep tolerance (merged, current) next
              = (merged,
                 mkLevel ((Price current * Score current + Price next * Score next)
                          / (Score current + Score next))
                         (Strength current + Strength next) (Distance current)
                         (Score current + Score next) (IsSupport current))
              \/ mergeStep tolerance (merged, current) next
                 = (merged ++ [current], setDistance next 0)).
    { unfold mergeStep. to_Q.
      destruct (Qle_bool _ tolerance); [left | right; reflexivity].
      change (inject_Z 0) with 0.
      destruct (Qle_bool_cases (Score current + Score next) 0) as [[Hle _] | [_ E]];
        [lra | rewrite E]. reflexivity. }
    destruct Hcase as [-> | ->].
    + pose proof (weighted_average_between (Price current) (Price next)
                    (Score current) (Score next)
                    ltac:(lra) ltac:(lra) ltac:(lra) Hcn) as [Hlo Hhi].
      match goal with |- context [fold_left _ rest (merged, ?c)] =>
        destruct (IH merged c) as (Hsorted & Hpos & Hsum); try assumption end.
      * eapply List.Forall_impl; [| exact Hbelow]. cbn beta. cbn [Price]. intros; lra.
      * rewrite List.Forall_forall in *. intros l Hl. cbn [Price].
        specialize (Hnext l Hl). cbn beta in Hnext. lra.
      * cbn [Score]. lra.
      * cbn zeta in Hsorted, Hpos, Hsum. split; [exact Hsorted |].
        split; [exact Hpos |]. rewrite Hsum. cbn [Score]. lra.
    + destruct (IH (merged ++ [current]) (setDistance next 0))
        as (Hsorted & Hpos & Hsum); try assumption.
      * now apply StronglySorted_snoc.
      * apply Forall_app. split.
        -- eapply List.Forall_impl; [| exact Hbelow]. cbn beta.
           cbn [setDistance Price]. intros; lra.
        -- constructor; [exact Hcn | constructor].
      * apply Forall_app. split; [exact Hsm | now repeat constructor].
      * cbn zeta in Hsorted, Hpos, Hsum. split; [exact Hsorted |].
        split; [exact Hpos |]. rewrite Hsum, totalScore_app.
        cbn [totalScore fold_right setDistance Score]. lra.
Qed.
End ExactMergeOrder.

(** X13.  At exact arithmetic, on levels which all have a positive score,
    [mergeNearbyLevels] returns its levels in ascending order of price,
    each with a positive score, and conserves the total score. *)
Theorem merge_is_ordered_and_conserves_score :
  forall (levels : list (SupportResistanceLevel Q)) (tolerance : Q),
    Forall (fun l => (0 < Score l)%Q) levels ->
    StronglySorted (fun a b => (Price a <= Price b)%Q) (mergeNearbyLevels levels tolerance)
    /\ Forall (fun l => (0 < Score l)%Q) (mergeNearbyLevels levels tolerance)
    /\ (totalScore (mergeNearbyLevels levels tolerance) == totalScore levels)%Q.
Proof.
  intros levels tolerance Hpos. unfold mergeNearbyLevels.
  pose proof (insertionSort_perm (fun a b => fltb (Price a) (Price b)) levels) as Hperm.
  pose proof (sorted_by_price levels) as Hsorted.
  pose proof (Forall_perm _ _ _ (Permutation_sym Hperm) Hpos) as Hpos'.
  rewrite <- (totalScore_perm _ _ Hperm).
  destruct (insertionSort _ levels) as [| first rest].
  - repeat split; constructor.
  - inversion Hsorted as [| ? ? Hrest Hfirst]; subst.
    inversion Hpos' as [| ? ? Hsf Hsr]; subst.
    pose proof (merge_loop_order tolerance rest [] (setDistance first (ofZ 0))
                  Hrest ltac:(constructor) ltac:(constructor) Hfirst Hsr
                  ltac:(constructor) Hsf) as (Ho & Hp & Hs).
    cbn zeta in Ho, Hp, Hs.
    destruct (fold_left _ rest _) as [merged current]. cbn [fst snd] in *.
    split; [exact Ho |]. split; [exact Hp |].
    rewrite totalScore_app. cbn [totalScore fold_right setDistance Score] in *.
    fold (totalScore rest) in *. lra.
Qed.

Lemma merge_is_ordered_and_conserves_score_witness :
  (totalScore (mergeNearbyLevels [sampleNear; sampleBase] (lit 2 1000))
   == totalScore [sampleNear; sampleBase])%Q.
Proof.
  apply (merge_is_ordered_and_conserves_score [sampleNear; sampleBase] (lit 2 1000)).
  repeat constructor.
Defined.

(** ** Distances of the reported levels *)

Section ExactDistances.
#[local] Open Scope Q_scope.

Lemma updateLevelDistances_percent (s : bool) (p : Q)
      (levels : list (SupportResistanceLevel Q)) :
  0 < p ->
  Forall (sidedLevel s p) levels ->
  Forall (fun l => Distance l == Qabs (Price l - p) / p * 100 /\ 0 < Distance l)
         (updateLevelDistances levels p s).
Proof.
  intros Hp Hl. unfold updateLevelDistances. to_Q. change (inject_Z 0) with 0.
  destruct (Qle_bool_cases p 0) as [[Hle _] | [_ E]]; [lra | rewrite E].
  rewrite List.Forall_forall in *. intros l Hin.
  apply in_map_iff in Hin as (l0 & <- & Hin0).
  destruct (Hl _ Hin0) as (Hside & Hprice & Hscore).
  unfold onItsSide in Hprice. rewrite Hside in Hprice.
  assert (Hinv : 0 < / p) by now apply Qinv_lt_0_compat.
  unfold distanceTo. change (inject_Z 100) with 100.
  destruct s; cbn [setDistance Distance Price].
  - assert (Hd : 0 < (p - Price l0) / p * 100).
    { unfold Qdiv. apply Qmult_lt_0_compat; [apply Qmult_lt_0_compat |]; lra. }
    rewrite (Qabs_pos _ (Qlt_le_weak _ _ Hd)).
    rewrite (Qabs_Qminus (Price l0) p), (Qabs_pos (p - Price l0)) by lra.
    split; [reflexivity | exact Hd].
  - assert (Hd : 0 < (Price l0 - p) / p * 100).
    { unfold Qdiv. apply Qmult_lt_0_compat; [apply Qmult_lt_0_compat |]; lra. }
    rewrite (Qabs_pos _ (Qlt_le_weak _ _ Hd)).
    rewrite (Qabs_pos (Price l0 - p)) by lra.
    split; [reflexivity | exact Hd].
Qed.

Lemma sortAndFilterLevels_Forall (P : SupportResistanceLevel Q -> Prop)
      (levels : list (SupportResistanceLevel Q)) (b : bool) :
  Forall P levels -> Forall P (sortAndFilterLevels levels b).
Proof.
  intros Hl. rewrite List.Forall_forall in *. intros l Hin.
  apply Hl. eapply sortAndFilterLevels_In, Hin.
Qed.
End ExactDistances.

(** X14.  At exact arithmetic, on a history whose last close [p] is
    positive, the distance of every level [calculateSupportResistanceLevels]
    reports is its gap to [p] as a percentage of [p], and is strictly
    positive. *)
Theorem reported_distances_are_percentages :
  forall (klines : list (Kline Q)) (lookback : nat) (lastCandle : Kline Q),
    last klines = Some lastCandle ->
    (0 < Close lastCandle)%Q ->
    let p := Close lastCandle in
    let percent := fun l : SupportResistanceLevel Q =>
                     (Distance l == Qabs (Price l - p) / p * 100)%Q
                     /\ (0 < Distance l)%Q in
    Forall percent (fst (calculateSupportResistanceLevels klines lookback))
    /\ Forall percent (snd (calculateSupportResistanceLevels klines lookback)).
Proof.
  intros klines lookback lastCandle Hlast Hp p percent.
  unfold calculateSupportResistanceLevels.
  destruct (length klines =? 0)%nat; [split; constructor |].
  destruct (last (recentWindow klines lookback)) as [lc |] eqn:Hrecent;
    [| split; constructor].
  unfold recentWindow in Hrecent. apply last_skipn in Hrecent.
  rewrite Hlast in Hrecent. injection Hrecent as <-.
  set (recent := recentWindow klines lookback).
  pose proof (scan_positive (length recent) (lit 2 1000)
                (findLocalMinima recent) (findLocalMaxima recent) (indexed recent)
                _ _ (initStats_positive (length recent) (findLocalMinima recent))
                (initStats_positive (length recent) (findLocalMaxima recent)))
    as [Hss Hrs].
  destruct (fold_left _ (indexed recent) _) as [ss rs]. cbn [fst snd] in *.
  split; apply sortAndFilterLevels_Forall.
  - apply (updateLevelDistances_percent true p); [exact Hp |].
    apply mergeNearbyLevels_sided, supportCandidates_sided, Hss.
  - apply (updateLevelDistances_percent false p); [exact Hp |].
    apply mergeNearbyLevels_sided, resistanceCandidates_sided, Hrs.
Qed.

Lemma reported_distances_are_percentages_witness :
  Forall (fun l : SupportResistanceLevel Q =>
            (Distance l == Qabs (Price l - 51500) / 51500 * 100)%Q /\ (0 < Distance l)%Q)
         (fst (calculateSupportResistanceLevels (F := Q) dippedKlines 120)).
Proof.
  exact (proj1 (reported_distances_are_percentages dippedKlines 120 (dipCandle 51000)
                  eq_refl eq_refl)).
Defined.

(** ** Symbols and the allow-set *)

Section SymbolFacts.

Lemma upperAscii_idem (c : ascii) : upperAscii (upperAscii c) = upperAscii c.
Proof. destruct c as [[] [] [] [] [] [] [] []]; reflexivity. Qed.

Lemma ToUpper_idem (s : string) : ToUpper (ToUpper s) = ToUpper s.
Proof.
  induction s as [| c s IH]; simpl; [reflexivity |].
  now rewrite upperAscii_idem, IH.
Qed.

Lemma ToUpper_append (s t : string) :
  ToUpper (String.append s t) = String.append (ToUpper s) (ToUpper t).
Proof.
  induction s as [| c s IH]; simpl; [reflexivity |].
  now rewrite IH.
Qed.

Lemma length_append (s t : string) :
  String.length (String.append s t) = (String.length s + String.length t)%nat.
Proof.
  induction s as [| c s IH]; simpl; [reflexivity |].
  now rewrite IH.
Qed.

Lemma substring_whole (s : string) : substring 0 (String.length s) s = s.
Proof.
  induction s as [| c s IH]; simpl; [reflexivity |].
  now rewrite IH.
Qed.

Lemma substring_append (s t : string) (m : nat) :
  substring (String.length s) m (String.append s t) = substring 0 m t.
Proof.
  induction s as [| c s IH]; simpl; [reflexivity |].
  exact IH.
Qed.

Lemma HasSuffix_append (s suffix : string) :
  HasSuffix (String.append s suffix) suffix = true.
Proof.
  unfold HasSuffix. rewrite length_append.
  destruct (Nat.ltb_spec (String.length s + String.length suffix) (String.length suffix));
    [lia |].
  replace (String.length s + String.length suffix - String.length suffix)%nat
    with (String.length s) by lia.
  rewrite substring_append, substring_whole. apply String.eqb_refl.
Qed.

Lemma Normalize_suffix (symbol : string) : HasSuffix (Normalize symbol) "USDT" = true.
Proof.
  unfold Normalize.
  destruct (HasSuffix (ToUpper symbol) "USDT") eqn:E; [exact E |].
  apply HasSuffix_append.
Qed.

Lemma Normalize_upper (symbol : string) : ToUpper (Normalize symbol) = Normalize symbol.
Proof.
  unfold Normalize.
  destruct (HasSuffix (ToUpper symbol) "USDT"); [apply ToUpper_idem |].
  now rewrite ToUpper_append, ToUpper_idem.
Qed.

Lemma Normalize_idem (symbol : string) : Normalize (Normalize symbol) = Normalize symbol.
Proof.
  unfold Normalize at 1. rewrite Normalize_upper, Normalize_suffix. reflexivity.
Qed.

(** The table [SetDefaultCoins] builds: the normalized names, all mapped
    to [true]. *)
Lemma SetDefaultCoins_lookup (coins : list string) (k : string) :
  (In k (map Normalize coins) -> SetDefaultCoins coins !! k = Some true)
  /\ (~ In k (map Normalize coins) -> SetDefaultCoins coins !! k = None).
Proof.
  unfold SetDefaultCoins.
  assert (Hgen : forall m : gmap string bool,
             (In k (map Normalize coins) ->
              fold_left (fun dc coin => <[Normalize coin := true]> dc) coins m !! k
              = Some true)
             /\ (~ In k (map Normalize coins) ->
                 fold_left (fun dc coin => <[Normalize coin := true]> dc) coins m !! k
                 = m !! k)).
  { induction coins as [| c coins IH]; intros m; cbn [fold_left map].
    - split; [intros [] | reflexivity].
    - destruct (IH (<[Normalize c := true]> m)) as [IHin IHout].
      destruct (in_dec string_dec k (map Normalize coins)) as [Hin | Hout].
      + split; [intros _; now apply IHin | intros Hno; exfalso; apply Hno; now right].
      + split.
        * intros [<- | Hin]; [| contradiction].
          rewrite (IHout Hout). apply lookup_insert_eq.
        * intros Hno. rewrite (IHout Hout). apply lookup_insert_ne.
          intros E. apply Hno. left. exact E. }
  destruct (Hgen ∅) as [Hin Hout]. split; [exact Hin |].
  intros Hno. rewrite (Hout Hno). apply lookup_empty.
Qed.
End SymbolFacts.

(** X15.  [Normalize] is idempotent; its result always ends in USDT and
    is left unchanged by [ToUpper].  ([ToUpper] is modelled on ASCII
    bytes, which is what exchange symbols are.) *)
Theorem normalize_is_idempotent :
  forall symbol : string,
    Normalize (Normalize symbol) = Normalize symbol
    /\ HasSuffix (Normalize symbol) "USDT" = true
    /\ ToUpper (Normalize symbol) = Normalize symbol.
Proof.
  intros symbol. split; [apply Normalize_idem |].
  split; [apply Normalize_suffix | apply Normalize_upper].
Qed.

(** X16.  After [SetDefaultCoins coins], [isInDefaultCoins] accepts a
    symbol exactly when the list was empty or the symbol normalizes to the
    same name as one of the coins; the answer is the same for a symbol and
    for its normalized form, which is what [Get] passes. *)
Theorem default_coins_round_trip :
  forall (coins : list string) (symbol : string),
    (isInDefaultCoins (SetDefaultCoins coins) symbol = true
     <-> coins = [] \/ In (Normalize symbol) (map Normalize coins))
    /\ isInDefaultCoins (SetDefaultCoins coins) (Normalize symbol)
       = isInDefaultCoins (SetDefaultCoins coins) symbol.
Proof.
  intros coins symbol.
  destruct (SetDefaultCoins_lookup coins (Normalize symbol)) as [Hin Hout].
  split; [| unfold isInDefaultCoins; now rewrite Normalize_idem].
  unfold isInDefaultCoins.
  destruct (Nat.eqb_spec (size (SetDefaultCoins coins)) 0) as [Hz | Hnz].
  - split; [intros _ | reflexivity].
    apply map_size_empty_iff in Hz.
    destruct coins as [| c coins]; [now left | exfalso].
    destruct (SetDefaultCoins_lookup (c :: coins) (Normalize c)) as [Hc _].
    rewrite Hz, lookup_empty in Hc. discriminate Hc. now left.
  - destruct (in_dec string_dec (Normalize symbol) (map Normalize coins)) as [Hyes | Hno].
    + rewrite (Hin Hyes). split; [now right | reflexivity].
    + rewrite (Hout Hno). split; [discriminate |].
      intros [-> | Hyes]; [| contradiction].
      exfalso. apply Hnz. reflexivity.
Qed.

(** ** Outcomes of one open-interest lookup *)

(** X17.  One call of [getHyperliquidOpenInterestData] sends at most one
    bulk request.  It returns an error only when that request failed, and
    then leaves the cache as it was; it changes the cache only by
    installing the table just received, stamped with the clock read at
    that moment; a symbol the cache serves, or the new table lists, is
    answered with its open interest and 0.999 times it as the average, and
    a symbol the new table does not list with zero and zero. *)
Theorem oi_lookup_outcomes :
  forall (F : Type) (ops : Float64Ops F) (cache : OICache F) (env : LookupEnv F)
         (symbol : string),
    let '(cache', n, r) := getHyperliquidOpenInterestData cache env symbol in
    (n <= 1)%nat
    /\ (n = 0%nat ->
        cache' = cache
        /\ exists oi, hyperliquidOICache cache !! symbol = Some oi /\ r = inr (oiOf oi))
    /\ (forall msg, r = inl msg ->
        cache' = cache /\ n = 1%nat /\ bulkResponse env = BulkError msg)
    /\ (forall table, n = 1%nat -> bulkResponse env = BulkTable table ->
        cache' = mkCache table (storeClock env)
        /\ r = inr (match table !! symbol with
                    | Some oi => oiOf oi
                    | None => mkOI (ofZ 0) (ofZ 0)
                    end)).
Proof.
  intros F ops cache env symbol.
  unfold getHyperliquidOpenInterestData, refreshOI.
  assert (Hhit : forall now d, cachedOI cache now symbol = Some d ->
            exists oi, hyperliquidOICache cache !! symbol = Some oi /\ d = oiOf oi).
  { intros now d. unfold cachedOI.
    destruct (now - hyperliquidOICacheTime cache <? hyperliquidOICacheTTL)%Z;
      [| discriminate].
    destruct (hyperliquidOICache cache !! symbol) as [oi |]; [| discriminate].
    intros [= <-]. eauto. }
  destruct (cachedOI cache (readClock env) symbol) as [d |] eqn:Hread.
  { destruct (Hhit _ _ Hread) as (oi & Hoi & ->).
    split; [lia |]. split; [intros _; split; [reflexivity | eauto] |].
    split; [intros msg; discriminate | intros table; discriminate]. }
  destruct (cachedOI cache (writeClock env) symbol) as [d |] eqn:Hwrite.
  { destruct (Hhit _ _ Hwrite) as (oi & Hoi & ->).
    split; [lia |]. split; [intros _; split; [reflexivity | eauto] |].
    split; [intros msg; discriminate | intros table; discriminate]. }
  destruct (bulkResponse env) as [msg | newCache].
  - split; [lia |]. split; [discriminate |].
    split; [intros msg' [= <-]; repeat split | intros table _; discriminate].
  - cbn [hyperliquidOICache].
    destruct (newCache !! symbol) as [oi |] eqn:Hoi.
    + split; [lia |]. split; [discriminate |].
      split; [intros msg; discriminate |].
      intros table _ [= <-]. rewrite Hoi. split; reflexivity.
    + split; [lia |]. split; [discriminate |].
      split; [intros msg; discriminate |].
      intros table _ [= <-]. rewrite Hoi. split; reflexivity.
Qed.


(** ** Requests sent by [Get] *)

Section GetTraces.
Context {F : Type} `{Float64Ops F}.

Lemma oi_lookup_bound (cache : OICache F) (env : LookupEnv F) (symbol : string) :
  (snd (fst (getHyperliquidOpenInterestData cache env symbol)) <= 1)%nat.
Proof.
  unfold getHyperliquidOpenInterestData, refreshOI.
  destruct (cachedOI cache (readClock env) symbol); [cbn [fst snd]; lia |].
  destruct (cachedOI cache (writeClock env) symbol); [cbn [fst snd]; lia |].
  destruct (bulkResponse env) as [msg | newCache]; [cbn [fst snd]; lia |].
  cbn [hyperliquidOICache]. destruct (newCache !! symbol); cbn [fst snd]; lia.
Qed.

Lemma Get_trace (up : Upstream F) (defaultCoins : gmap string bool)
      (symbol exchange : string) (w : World F) k3 k15 k1 k4 :
  klinesAnswer up (Normalize symbol) "3m" 150 = inr k3 ->
  klinesAnswer up (Normalize symbol) "15m" 150 = inr k15 ->
  klinesAnswer up (Normalize symbol) "1h" 150 = inr k1 ->
  klinesAnswer up (Normalize symbol) "4h" 150 = inr k4 ->
  k3 <> [] ->
  exists d w',
    Get up defaultCoins symbol exchange w = (w', inr d)
    /\ sent w' = sent w ++ klineCalls (Normalize symbol)
                        ++ oiCalls up defaultCoins (Normalize symbol) exchange w
                        ++ [CallPremiumIndex (Normalize symbol)]
    /\ (String.eqb exchange "hyperliquid" = false -> oiCache w' = oiCache w).
Proof.
  intros H3 H15 H1 H4 Hne. unfold Get.
  do 4 (erewrite bind_assoc_run by (apply fetchKlines_ok; eassumption)).
  destruct (fromEnd_ok k3 1) as [lastCandle Hlast];
    [lia | destruct k3; [congruence | simpl; lia] |].
  rewrite Hlast, bind_ret.
  destruct (priceChange_total k3 21 (Close lastCandle)) as [pc1 Hpc1]; [lia |].
  destruct (priceChange_total k4 2 (Close lastCandle)) as [pc4 Hpc4]; [lia |].
  cbv zeta in Hpc1, Hpc4 |- *.
  rewrite Hpc1, bind_ret, Hpc4, bind_ret.
  cbn [sent oiCache]. unfold oiCalls.
  destruct (isInDefaultCoins defaultCoins (Normalize symbol)) eqn:Hgate.
  - destruct (String.eqb exchange "hyperliquid") eqn:Hex.
    + unfold bind, fetchHyperliquidOI, fetchFundingRate, send, ret. cbn [sent oiCache].
      destruct (getHyperliquidOpenInterestData (oiCache w) (hyperliquidEnv up)
                  (Normalize symbol)) as [[cache n] r].
      cbn [fst snd].
      destruct r as [e | v], (fundingAnswer up (Normalize symbol)) as [e' | rate];
        do 2 eexists; (split; [reflexivity |]); cbn [sent oiCache];
        (split; [unfold klineCalls; rewrite <- ?app_assoc; reflexivity | discriminate]).
    + unfold bind, fetchBinanceOI, fetchFundingRate, send, ret, bind. cbn [sent oiCache].
      destruct (openInterestAnswer up (Normalize symbol)) as [e | v],
               (fundingAnswer up (Normalize symbol)) as [e' | rate];
        do 2 eexists; (split; [reflexivity |]); cbn [sent oiCache];
        (split; [unfold klineCalls; rewrite <- ?app_assoc; reflexivity | reflexivity]).
  - unfold bind, fetchFundingRate, send, ret. cbn [sent oiCache].
    destruct (fundingAnswer up (Normalize symbol)) as [e' | rate];
      do 2 eexists; (split; [reflexivity |]); cbn [sent oiCache];
      (split; [unfold klineCalls; rewrite <- ?app_assoc; reflexivity | reflexivity]).
Qed.

End GetTraces.

(** X18.  When [Get] returns an error, the error names the first
    timeframe whose candle fetch failed, with the cause the fetch gave; the
    requests sent are the candle requests up to and including that one, and
    nothing else: no later candle request, no open-interest and no funding
    request; and the open-interest cache is untouched. *)
Theorem failed_snapshot_stops_at_first_failure :
  forall (F : Type) (ops : Float64Ops F) (up : Upstream F)
         (defaultCoins : gmap string bool) (symbol exchange : string) (w : World F)
         (e : GetError),
    snd (Get up defaultCoins symbol exchange w) = inl (Returned e) ->
    exists (k : nat) (interval cause : string),
      snapshotTimeframes !! k = Some interval
      /\ e = KlinesFailed interval cause
      /\ klinesAnswer up (Normalize symbol) interval 150 = inl cause
      /\ sent (fst (Get up defaultCoins symbol exchange w))
         = sent w ++ firstn (S k) (klineCalls (Normalize symbol))
      /\ oiCache (fst (Get up defaultCoins symbol exchange w)) = oiCache w.
Proof.
  intros F ops up defaultCoins symbol exchange w e.
  destruct (klinesAnswer up (Normalize symbol) "3m" 150) as [c3 | k3] eqn:H3.
  { unfold Get. erewrite bind_abort_run by (apply fetchKlines_failed; eassumption).
    cbn [fst snd sent oiCache]. intros [= <-].
    exists 0%nat, "3m"%string, c3. repeat split; assumption. }
  destruct (klinesAnswer up (Normalize symbol) "15m" 150) as [c15 | k15] eqn:H15.
  { unfold Get.
    do 1 (erewrite bind_assoc_run by (apply fetchKlines_ok; eassumption)).
    erewrite bind_abort_run by (apply fetchKlines_failed; eassumption).
    cbn [fst snd sent oiCache]. intros [= <-].
    exists 1%nat, "15m"%string, c15. rewrite <- app_assoc. repeat split; assumption. }
  destruct (klinesAnswer up (Normalize symbol) "1h" 150) as [c1 | k1] eqn:H1.
  { unfold Get.
    do 2 (erewrite bind_assoc_run by (apply fetchKlines_ok; eassumption)).
    erewrite bind_abort_run by (apply fetchKlines_failed; eassumption).
    cbn [fst snd sent oiCache]. intros [= <-].
    exists 2%nat, "1h"%string, c1. rewrite <- !app_assoc. repeat split; assumption. }
  destruct (klinesAnswer up (Normalize symbol) "4h" 150) as [c4 | k4] eqn:H4.
  { unfold Get.
    do 3 (erewrite bind_assoc_run by (apply fetchKlines_ok; eassumption)).
    erewrite bind_abort_run by (apply fetchKlines_failed; eassumption).
    cbn [fst snd sent oiCache]. intros [= <-].
    exists 3%nat, "4h"%string, c4. rewrite <- !app_assoc. repeat split; assumption. }
  destruct k3 as [| c k3].
  - rewrite (Get_panics_on_empty_history up defaultCoins symbol exchange w k15 k1 k4
               H3 H15 H1 H4).
    discriminate.
  - destruct (Get_trace up defaultCoins symbol exchange w (c :: k3) k15 k1 k4
                H3 H15 H1 H4 ltac:(discriminate)) as (d & w' & -> & _).
    discriminate.
Qed.

Lemma failed_snapshot_stops_at_first_failure_witness :
  exists (k : nat) (interval cause : string),
    snapshotTimeframes !! k = Some interval
    /\ KlinesFailed "15m" "timeout" = KlinesFailed interval cause
    /\ klinesAnswer halfUpstream (Normalize "btc") interval 150 = inl cause
    /\ sent (fst (Get halfUpstream ∅ "btc" "binance" coldWorld))
       = sent coldWorld ++ firstn (S k) (klineCalls (Normalize "btc"))
    /\ oiCache (fst (Get halfUpstream ∅ "btc" "binance" coldWorld)) = oiCache coldWorld.
Proof.
  apply (failed_snapshot_stops_at_first_failure float binary64 halfUpstream ∅
           "btc" "binance" coldWorld (KlinesFailed "15m" "timeout")).
  reflexivity.
Defined.

(** X19.  A successful [Get] sends the four candle requests in order,
    then the open-interest request (none for a symbol outside the
    allow-set, one single-symbol request on Binance, the bulk requests of
    the cache lookup on Hyperliquid), then exactly one funding request; and
    it leaves the open-interest cache alone unless the exchange is
    Hyperliquid. *)
Theorem successful_snapshot_requests :
  forall (F : Type) (ops : Float64Ops F) (up : Upstream F)
         (defaultCoins : gmap string bool) (symbol exchange : string) (w : World F)
         (d : Data F),
    snd (Get up defaultCoins symbol exchange w) = inr d ->
    sent (fst (Get up defaultCoins symbol exchange w))
    = sent w ++ klineCalls (Normalize symbol)
             ++ oiCalls up defaultCoins (Normalize symbol) exchange w
             ++ [CallPremiumIndex (Normalize symbol)]
    /\ (length (oiCalls up defaultCoins (Normalize symbol) exchange w) <= 1)%nat
    /\ (String.eqb exchange "hyperliquid" = false ->
        oiCache (fst (Get up defaultCoins symbol exchange w)) = oiCache w).
Proof.
  intros F ops up defaultCoins symbol exchange w d Hok.
  assert (Hlen : (length (oiCalls up defaultCoins (Normalize symbol) exchange w) <= 1)%nat).
  { unfold oiCalls.
    destruct (isInDefaultCoins _ _); [| cbn [length]; lia].
    destruct (String.eqb exchange "hyperliquid"); [| cbn [length]; lia].
    rewrite repeat_length.
    pose proof (oi_lookup_bound (oiCache w) (hyperliquidEnv up) (Normalize symbol)).
    assumption. }
  destruct (klinesAnswer up (Normalize symbol) "3m" 150) as [c3 | k3] eqn:H3.
  { revert Hok. unfold Get.
    erewrite bind_abort_run by (apply fetchKlines_failed; eassumption). discriminate. }
  destruct (klinesAnswer up (Normalize symbol) "15m" 150) as [c15 | k15] eqn:H15.
  { revert Hok. unfold Get.
    do 1 (erewrite bind_assoc_run by (apply fetchKlines_ok; eassumption)).
    erewrite bind_abort_run by (apply fetchKlines_failed; eassumption). discriminate. }
  destruct (klinesAnswer up (Normalize symbol) "1h" 150) as [c1 | k1] eqn:H1.
  { revert Hok. unfold Get.
    do 2 (erewrite bind_assoc_run by (apply fetchKlines_ok; eassumption)).
    erewrite bind_abort_run by (apply fetchKlines_failed; eassumption). discriminate. }
  destruct (klinesAnswer up (Normalize symbol) "4h" 150) as [c4 | k4] eqn:H4.
  { revert Hok. unfold Get.
    do 3 (erewrite bind_assoc_run by (apply fetchKlines_ok; eassumption)).
    erewrite bind_abort_run by (apply fetchKlines_failed; eassumption). discriminate. }
  destruct k3 as [| c k3].
  - rewrite (Get_panics_on_empty_history up defaultCoins symbol exchange w k15 k1 k4
               H3 H15 H1 H4) in Hok.
    discriminate.
  - destruct (Get_trace up defaultCoins symbol exchange w (c :: k3) k15 k1 k4
                H3 H15 H1 H4 ltac:(discriminate)) as (d' & w' & Hrun & Hsent & Hcache).
    rewrite Hrun. cbn [fst]. split; [exact Hsent |]. split; [exact Hlen | exact Hcache].
Qed.

Lemma successful_snapshot_requests_witness :
  sent (fst (Get flakyUpstream ∅ "eth" "binance" coldWorld))
  = sent coldWorld ++ klineCalls (Normalize "eth")
      ++ oiCalls flakyUpstream ∅ (Normalize "eth") "binance" coldWorld
      ++ [CallPremiumIndex (Normalize "eth")].
Proof.
  eapply (successful_snapshot_requests float binary64 flakyUpstream ∅ "eth" "binance"
            coldWorld).
  reflexivity.
Defined.


(** ** Market data for a trading context *)

Section ContextFacts.

Lemma positionSymbolsOf_lookup (ctx : Context) (k : string) :
  is_Some (positionSymbolsOf ctx !! k) <-> In k (map PositionSymbol (Positions ctx)).
Proof.
  unfold positionSymbolsOf.
  assert (Hgen : forall (l : list PositionInfo) (m : gmap string bool),
             is_Some (fold_left (fun set pos => <[PositionSymbol pos := true]> set) l m !! k)
             <-> In k (map PositionSymbol l) \/ is_Some (m !! k)).
  { induction l as [| p l IH]; intros m; cbn [fold_left map].
    - split; [now right | intros [[] | Hm]; exact Hm].
    - rewrite IH, lookup_insert_is_Some. cbn [In].
      destruct (decide (PositionSymbol p = k)); tauto. }
  rewrite Hgen, lookup_empty. split; [intros [Hin | [? [=]]]; exact Hin | now left].
Qed.

Lemma symbolSetOf_lookup (ctx : Context) (k : string) :
  is_Some (symbolSetOf ctx !! k) ->
  In k (map PositionSymbol (Positions ctx))
  \/ (In k (map CoinSymbol (CandidateCoins ctx))
      /\ (CoinWhitelistEnabled ctx = true -> isCoinInWhitelist k (CoinWhitelist ctx) = true)).
Proof.
  unfold symbolSetOf, calculateMaxCandidates. rewrite firstn_all.
  assert (Hgen : forall (l : list CandidateCoin) (m : gmap string bool),
             is_Some (fold_left
                        (fun set coin =>
                           if (CoinWhitelistEnabled ctx
                               && negb (isCoinInWhitelist (CoinSymbol coin)
                                                          (CoinWhitelist ctx)))%bool
                           then set
                           else <[CoinSymbol coin := true]> set) l m !! k) ->
             is_Some (m !! k)
             \/ (In k (map CoinSymbol l)
                 /\ (CoinWhitelistEnabled ctx = true ->
                     isCoinInWhitelist k (CoinWhitelist ctx) = true))).
  { induction l as [| c l IH]; intros m; cbn [fold_left map]; [now left |].
    intros Hk. apply IH in Hk as [Hm | [Hin Hw]]; [| right; split; [now right | exact Hw]].
    destruct (CoinWhitelistEnabled ctx) eqn:Hen; cbn [andb] in Hm.
    - destruct (isCoinInWhitelist (CoinSymbol c) (CoinWhitelist ctx)) eqn:Hwl;
        cbn [negb] in Hm; [| now left].
      apply lookup_insert_is_Some in Hm as [<- | [_ Hm]]; [| now left].
      right. split; [now left | intros _; exact Hwl].
    - apply lookup_insert_is_Some in Hm as [<- | [_ Hm]]; [| now left].
      right. split; [now left | discriminate]. }
  intros Hk. apply Hgen in Hk as [Hpos | Hcand]; [left | now right].
  now apply positionSymbolsOf_lookup.
Qed.
End ContextFacts.

Section FetchFacts.
Context {F : Type} `{Float64Ops F}.

(** What the loop guarantees of every entry of the map. *)
Lemma fetchSymbols_entries (up : Upstream F) (defaultCoins : gmap string bool)
      (ctx : Context) (P : string -> Data F -> Prop) (order : list string) :
  (forall symbol w w' data,
      In symbol order ->
      Get up defaultCoins symbol (Exchange ctx) w = (w', inr data) ->
      (default false (positionSymbolsOf ctx !! symbol) = false ->
       liquidityTooLow data = false) ->
      P symbol data) ->
  forall marketDataMap w,
    (forall k d, marketDataMap !! k = Some d -> P k d) ->
    match fetchSymbols up defaultCoins ctx order marketDataMap w with
    | (_, inl (Returned _)) => False
    | (_, inl Panicked) => True
    | (_, inr result) => forall k d, result !! k = Some d -> P k d
    end.
Proof.
  induction order as [| symbol rest IH]; intros Hstep marketDataMap w Hinv;
    cbn [fetchSymbols].
  - exact Hinv.
  - unfold bind, fetchSymbol.
    destruct (Get up defaultCoins symbol (Exchange ctx) w) as [w' [[e |] | data]] eqn:Hget.
    + apply IH; [intros; eapply Hstep; eauto; now right | exact Hinv].
    + exact I.
    + destruct (negb (default false (positionSymbolsOf ctx !! symbol))
                && liquidityTooLow data)%bool eqn:Hskip.
      * apply IH; [intros; eapply Hstep; eauto; now right | exact Hinv].
      * apply IH; [intros; eapply Hstep; eauto; now right |].
        intros k d. rewrite lookup_insert.
        destruct (decide (symbol = k)) as [<- | Hne]; [| apply Hinv].
        intros [= <-]. eapply Hstep; [now left | exact Hget |].
        intros Hpos. rewrite Hpos in Hskip. exact Hskip.
Qed.

(** A symbol whose snapshot is available and which passes the filter is
    in the map at the end of a run which does not panic. *)
Lemma fetchSymbols_keeps (up : Upstream F) (defaultCoins : gmap string bool)
      (ctx : Context) (symbol : string) (order : list string) :
  (forall w, exists w' data,
      Get up defaultCoins symbol (Exchange ctx) w = (w', inr data)
      /\ (negb (default false (positionSymbolsOf ctx !! symbol))
          && liquidityTooLow data)%bool = false) ->
  forall marketDataMap w w' result,
    In symbol order \/ is_Some (marketDataMap !! symbol) ->
    fetchSymbols up defaultCoins ctx order marketDataMap w = (w', inr result) ->
    is_Some (result !! symbol).
Proof.
  intros Hok.
  induction order as [| s rest IH]; intros marketDataMap w w' result Hin;
    cbn [fetchSymbols].
  - intros [= <- <-]. destruct Hin as [[] | Hm]; exact Hm.
  - unfold bind, fetchSymbol.
    destruct (Get up defaultCoins s (Exchange ctx) w) as [w1 [[e |] | data]] eqn:Hget.
    + apply IH. destruct Hin as [[-> | Hin] | Hm]; [| now left | now right].
      destruct (Hok w) as (w2 & d2 & Hget' & _). congruence.
    + discriminate.
    + destruct (negb (default false (positionSymbolsOf ctx !! s))
                && liquidityTooLow data)%bool eqn:Hskip.
      * apply IH. destruct Hin as [[-> | Hin] | Hm]; [| now left | now right].
        destruct (Hok w) as (w2 & d2 & Hget' & Hkeep). congruence.
      * apply IH. destruct Hin as [[-> | Hin] | Hm]; [right | now left | right].
        -- rewrite lookup_insert_eq. eauto.
        -- apply lookup_insert_is_Some. destruct (decide (s = symbol)); [now left | now right].
Qed.
End FetchFacts.


Section FetchRuns.
Context {F : Type} `{Float64Ops F}.

(** A snapshot is returned only when the four candle fetches succeeded on
    a non-empty 3-minute history. *)
Lemma Get_ok_inv (up : Upstream F) (defaultCoins : gmap string bool)
      (symbol exchange : string) (w w' : World F) (d : Data F) :
  Get up defaultCoins symbol exchange w = (w', inr d) ->
  exists k3 k15 k1 k4,
    klinesAnswer up (Normalize symbol) "3m" 150 = inr k3
    /\ klinesAnswer up (Normalize symbol) "15m" 150 = inr k15
    /\ klinesAnswer up (Normalize symbol) "1h" 150 = inr k1
    /\ klinesAnswer up (Normalize symbol) "4h" 150 = inr k4
    /\ k3 <> [].
Proof.
  intros Hok.
  destruct (klinesAnswer up (Normalize symbol) "3m" 150) as [c3 | k3] eqn:H3.
  { revert Hok. unfold Get.
    erewrite bind_abort_run by (apply fetchKlines_failed; eassumption). discriminate. }
  destruct (klinesAnswer up (Normalize symbol) "15m" 150) as [c15 | k15] eqn:H15.
  { revert Hok. unfold Get.
    do 1 (erewrite bind_assoc_run by (apply fetchKlines_ok; eassumption)).
    erewrite bind_abort_run by (apply fetchKlines_failed; eassumption). discriminate. }
  destruct (klinesAnswer up (Normalize symbol) "1h" 150) as [c1 | k1] eqn:H1.
  { revert Hok. unfold Get.
    do 2 (erewrite bind_assoc_run by (apply fetchKlines_ok; eassumption)).
    erewrite bind_abort_run by (apply fetchKlines_failed; eassumption). discriminate. }
  destruct (klinesAnswer up (Normalize symbol) "4h" 150) as [c4 | k4] eqn:H4.
  { revert Hok. unfold Get.
    do 3 (erewrite bind_assoc_run by (apply fetchKlines_ok; eassumption)).
    erewrite bind_abort_run by (apply fetchKlines_failed; eassumption). discriminate. }
  exists k3, k15, k1, k4. repeat split; try reflexivity.
  intros ->.
  pose proof (Get_panics_on_empty_history up defaultCoins symbol exchange w k15 k1 k4
                H3 H15 H1 H4) as Hpanic.
  rewrite Hok in Hpanic. discriminate.
Qed.

Lemma Get_ok_fields (up : Upstream F) (defaultCoins : gmap string bool)
      (symbol exchange : string) (w w' : World F) (d : Data F) :
  Get up defaultCoins symbol exchange w = (w', inr d) ->
  Symbol d = Normalize symbol /\ is_Some (OpenInterest d).
Proof.
  intros Hok.
  destruct (Get_ok_inv _ _ _ _ _ _ _ Hok) as (k3 & k15 & k1 & k4 & H3 & H15 & H1 & H4 & Hne).
  destruct (Get_success up defaultCoins symbol exchange w k3 k15 k1 k4 H3 H15 H1 H4 Hne)
    as (d' & w'' & oi & Hrun & Hsym & Hoi & _).
  rewrite Hok in Hrun. injection Hrun as <- <-. split; [exact Hsym | eauto].
Qed.

Lemma positionSymbolsOf_true (ctx : Context) (k : string) :
  In k (map PositionSymbol (Positions ctx)) ->
  default false (positionSymbolsOf ctx !! k) = true.
Proof.
  unfold positionSymbolsOf.
  assert (Hgen : forall (l : list PositionInfo) (m : gmap string bool),
             In k (map PositionSymbol l) \/ m !! k = Some true ->
             fold_left (fun set pos => <[PositionSymbol pos := true]> set) l m !! k
             = Some true).
  { induction l as [| p l IH]; intros m; cbn [fold_left map In].
    - intros [[] | Hm]; exact Hm.
    - intros [[<- | Hin] | Hm]; apply IH.
      + right. apply lookup_insert_eq.
      + now left.
      + right. rewrite lookup_insert. destruct (decide (PositionSymbol p = k)); auto. }
  intros Hin. rewrite (Hgen _ ∅ (or_introl Hin)). reflexivity.
Qed.

Lemma symbolSetOf_positions (ctx : Context) (k : string) :
  In k (map PositionSymbol (Positions ctx)) -> is_Some (symbolSetOf ctx !! k).
Proof.
  intros Hin. unfold symbolSetOf.
  assert (Hgen : forall (l : list CandidateCoin) (m : gmap string bool),
             is_Some (m !! k) ->
             is_Some (fold_left
                        (fun set coin =>
                           if (CoinWhitelistEnabled ctx
                               && negb (isCoinInWhitelist (CoinSymbol coin)
                                                          (CoinWhitelist ctx)))%bool
                           then set
                           else <[CoinSymbol coin := true]> set) l m !! k)).
  { induction l as [| c l IH]; intros m Hm; cbn [fold_left]; [exact Hm |].
    apply IH. destruct (_ && _)%bool; [exact Hm |].
    apply lookup_insert_is_Some. destruct (decide (CoinSymbol c = k)); [now left | now right]. }
  apply Hgen. now apply positionSymbolsOf_lookup.
Qed.

Lemma iterationOrder_In (ctx : Context) (order : list string) (k : string) :
  iterationOrder ctx order -> (In k order <-> is_Some (symbolSetOf ctx !! k)).
Proof.
  intros Hperm. unfold iterationOrder in Hperm.
  split.
  - intros Hin. apply (Permutation_in _ Hperm) in Hin.
    apply in_map_iff in Hin as ([k' v] & <- & Hin).
    apply list_elem_of_In, elem_of_map_to_list in Hin. cbn [fst]. eauto.
  - intros [v Hv]. apply (Permutation_in _ (Permutation_sym Hperm)).
    apply in_map_iff. exists (k, v). split; [reflexivity |].
    apply list_elem_of_In, elem_of_map_to_list. exact Hv.
Qed.
End FetchRuns.

(** X20.  [fetchMarketDataForContext], in whatever order Go ranges over
    the symbol set, never returns an error: a failed snapshot only skips
    its symbol (an empty 3-minute history still panics).  Every entry of
    the resulting map is keyed by the symbol of a position, or of a
    candidate which passed the whitelist when the whitelist is enabled; it
    holds the snapshot [Get] returned for that key, whose symbol is the
    normalized key; and for a symbol which is not a position the liquidity
    test was negative. *)
Theorem context_market_data_entries :
  forall (F : Type) (ops : Float64Ops F) (up : Upstream F)
         (defaultCoins : gmap string bool) (ctx : Context) (order : list string)
         (w : World F),
    iterationOrder ctx order ->
    match fetchMarketDataForContext up defaultCoins ctx order w with
    | (_, inl (Returned _)) => False
    | (_, inl Panicked) => True
    | (_, inr result) =>
        forall k d, result !! k = Some d ->
          (In k (map PositionSymbol (Positions ctx))
           \/ (In k (map CoinSymbol (CandidateCoins ctx))
               /\ (CoinWhitelistEnabled ctx = true ->
                   isCoinInWhitelist k (CoinWhitelist ctx) = true)))
          /\ (exists w0 w1, Get up defaultCoins k (Exchange ctx) w0 = (w1, inr d))
          /\ Symbol d = Normalize k
          /\ (~ In k (map PositionSymbol (Positions ctx)) -> liquidityTooLow d = false)
    end.
Proof.
  intros F ops up defaultCoins ctx order w Horder.
  unfold fetchMarketDataForContext.
  apply (fetchSymbols_entries up defaultCoins ctx
           (fun k d =>
              (In k (map PositionSymbol (Positions ctx))
               \/ (In k (map CoinSymbol (CandidateCoins ctx))
                   /\ (CoinWhitelistEnabled ctx = true ->
                       isCoinInWhitelist k (CoinWhitelist ctx) = true)))
              /\ (exists w0 w1, Get up defaultCoins k (Exchange ctx) w0 = (w1, inr d))
              /\ Symbol d = Normalize k
              /\ (~ In k (map PositionSymbol (Positions ctx)) ->
                  liquidityTooLow d = false))).
  - intros symbol w0 w1 data Hin Hget Hfilter.
    split; [apply symbolSetOf_lookup; now apply (iterationOrder_In ctx order) |].
    split; [eauto |].
    split; [apply (Get_ok_fields _ _ _ _ _ _ _ Hget) |].
    intros Hnot. apply Hfilter.
    destruct (positionSymbolsOf ctx !! symbol) as [v |] eqn:Hv; [| reflexivity].
    exfalso. apply Hnot. apply positionSymbolsOf_lookup. rewrite Hv. eauto.
  - intros k d. rewrite lookup_empty. discriminate.
Qed.

Lemma context_market_data_entries_witness :
  match fetchMarketDataForContext flakyUpstream ∅ sampleContext
          ["ETHUSDT"%string; "BTCUSDT"%string] coldWorld with
  | (_, inl (Returned _)) => False
  | (_, inl Panicked) => True
  | (_, inr result) =>
      forall k d, result !! k = Some d ->
        (In k (map PositionSymbol (Positions sampleContext))
         \/ (In k (map CoinSymbol (CandidateCoins sampleContext))
             /\ (CoinWhitelistEnabled sampleContext = true ->
                 isCoinInWhitelist k (CoinWhitelist sampleContext) = true)))
        /\ (exists w0 w1, Get flakyUpstream ∅ k (Exchange sampleContext) w0 = (w1, inr d))
        /\ Symbol d = Normalize k
        /\ (~ In k (map PositionSymbol (Positions sampleContext)) ->
            liquidityTooLow d = false)
  end.
Proof.
  apply (context_market_data_entries float binary64 flakyUpstream ∅ sampleContext
           ["ETHUSDT"%string; "BTCUSDT"%string] coldWorld).
  unfold iterationOrder. vm_compute.
  first [reflexivity | apply perm_swap].
Defined.

(** X21.  At exact arithmetic, an entry of the resulting map for a symbol
    which is not a position and whose snapshot has a positive price has a
    known open interest worth at least 15 million (open interest times
    price); so a candidate whose open-interest fetch failed, and which
    [Get] reports with the zero placeholder, is left out. *)
Theorem kept_candidates_are_liquid :
  forall (up : Upstream Q) (defaultCoins : gmap string bool) (ctx : Context)
         (order : list string) (w w' : World Q) (result : gmap string (Data Q))
         (k : string) (d : Data Q),
    fetchMarketDataForContext up defaultCoins ctx order w = (w', inr result) ->
    result !! k = Some d ->
    ~ In k (map PositionSymbol (Positions ctx)) ->
    (0 < CurrentPrice d)%Q ->
    exists oi, OpenInterest d = Some oi
               /\ (15000000 <= Latest oi * CurrentPrice d)%Q
               /\ oi <> zeroOI.
Proof.
  intros up defaultCoins ctx order w w' result k d Hrun Hk Hnot Hprice.
  pose proof (fetchSymbols_entries up defaultCoins ctx
                (fun k d => is_Some (OpenInterest d)
                            /\ (default false (positionSymbolsOf ctx !! k) = false ->
                                liquidityTooLow d = false))
                order) as Hentries.
  unfold fetchMarketDataForContext in Hrun.
  specialize (Hentries
                ltac:(intros symbol w0 w1 data _ Hget Hfilter;
                      split; [apply (Get_ok_fields _ _ _ _ _ _ _ Hget) | exact Hfilter])
                ∅ w ltac:(intros k0 d0; rewrite lookup_empty; discriminate)).
  rewrite Hrun in Hentries.
  destruct (Hentries k d Hk) as [[oi Hoi] Hfilter].
  assert (Hpos : default false (positionSymbolsOf ctx !! k) = false).
  { destruct (positionSymbolsOf ctx !! k) as [v |] eqn:Hv; [| reflexivity].
    exfalso. apply Hnot. apply positionSymbolsOf_lookup. rewrite Hv. eauto. }
  specialize (Hfilter Hpos). unfold liquidityTooLow in Hfilter. rewrite Hoi in Hfilter.
  exists oi. split; [exact Hoi |].
  to_Q. change (inject_Z 0) with 0%Q in Hfilter.
  assert (Hgt : Qltb 0 (CurrentPrice d) = true) by now apply Qltb_lt.
  rewrite Hgt in Hfilter.
  assert (Hval : (15000000 <= Latest oi * CurrentPrice d)%Q).
  { destruct (Qlt_le_dec (Latest oi * CurrentPrice d / inject_Z 1000000) (inject_Z 15))
      as [Hlt | Hge].
    - apply Qltb_lt in Hlt. congruence.
    - change (inject_Z 15) with 15%Q in Hge. change (inject_Z 1000000) with 1000000%Q in Hge.
      apply (Qmult_le_compat_r _ _ 1000000) in Hge; [| lra].
      assert (E : (Latest oi * CurrentPrice d / 1000000 * 1000000
                   == Latest oi * CurrentPrice d)%Q) by (field).
      rewrite E in Hge. lra. }
  split; [exact Hval |].
  intros ->. cbn [zeroOI Latest ofZ exactQ] in Hval. change (inject_Z 0) with 0%Q in Hval.
  lra.
Qed.

Lemma kept_candidates_are_liquid_witness :
  match snapshotOf liquidRun "ETHUSDT" with
  | Some d => exists oi, OpenInterest d = Some oi
                         /\ (15000000 <= Latest oi * CurrentPrice d)%Q
                         /\ oi <> zeroOI
  | None => False
  end.
Proof.
  destruct (snapshotOf liquidRun "ETHUSDT") as [d |] eqn:Hd;
    [| vm_compute in Hd; discriminate].
  unfold snapshotOf in Hd.
  destruct liquidRun as [w' [a | result]] eqn:Hrun; [discriminate |].
  cbn [snd] in Hd.
  apply (kept_candidates_are_liquid liquidUpstream ∅ candidateContext
           ["ETHUSDT"%string] (mkWorld [] (mkCache ∅ 0)) w' result "ETHUSDT" d Hrun Hd).
  - intros [].
  - vm_compute in Hrun. injection Hrun as _ <-.
    vm_compute in Hd. injection Hd as <-. reflexivity.
Defined.

(** X22.  A position is never filtered out: in whatever order the symbol
    set is ranged over, when the four candle histories of a position's
    symbol are available (the 3-minute one not empty) and the run does not
    panic, the resulting map holds a snapshot for that symbol, whatever its
    open interest. *)
Theorem positions_are_always_kept :
  forall (F : Type) (ops : Float64Ops F) (up : Upstream F)
         (defaultCoins : gmap string bool) (ctx : Context) (order : list string)
         (w w' : World F) (result : gmap string (Data F)) (k : string)
         (k3 k15 k1 k4 : list (Kline F)),
    iterationOrder ctx order ->
    In k (map PositionSymbol (Positions ctx)) ->
    klinesAnswer up (Normalize k) "3m" 150 = inr k3 ->
    klinesAnswer up (Normalize k) "15m" 150 = inr k15 ->
    klinesAnswer up (Normalize k) "1h" 150 = inr k1 ->
    klinesAnswer up (Normalize k) "4h" 150 = inr k4 ->
    k3 <> [] ->
    fetchMarketDataForContext up defaultCoins ctx order w = (w', inr result) ->
    is_Some (result !! k).
Proof.
  intros F ops up defaultCoins ctx order w w' result k k3 k15 k1 k4
         Horder Hpos H3 H15 H1 H4 Hne Hrun.
  apply (fetchSymbols_keeps up defaultCoins ctx k order) with (marketDataMap := ∅)
                                                              (w := w) (w' := w').
  - intros w0.
    destruct (Get_success up defaultCoins k (Exchange ctx) w0 k3 k15 k1 k4
                H3 H15 H1 H4 Hne) as (d & w1 & oi & Hget & _).
    exists w1, d. split; [exact Hget |].
    rewrite (positionSymbolsOf_true ctx k Hpos). reflexivity.
  - left. apply (iterationOrder_In ctx order k Horder).
    now apply symbolSetOf_positions.
  - exact Hrun.
Qed.

Lemma positions_are_always_kept_witness :
  is_Some (snapshotOf (fetchMarketDataForContext flakyUpstream ∅ sampleContext
                         ["ETHUSDT"%string; "BTCUSDT"%string] coldWorld) "BTCUSDT").
Proof.
  unfold snapshotOf.
  destruct (fetchMarketDataForContext flakyUpstream ∅ sampleContext
              ["ETHUSDT"%string; "BTCUSDT"%string] coldWorld)
    as [w' [a | result]] eqn:Hrun; [vm_compute in Hrun; discriminate |].
  cbn [snd].
  apply (positions_are_always_kept float binary64 flakyUpstream ∅ sampleContext
           ["ETHUSDT"%string; "BTCUSDT"%string] coldWorld w' result "BTCUSDT"
           exampleKlines exampleKlines exampleKlines exampleKlines);
    try reflexivity.
  - unfold iterationOrder. vm_compute. first [reflexivity | apply perm_swap].
  - left. reflexivity.
  - discriminate.
  - exact Hrun.
Defined.


(** ** Matching brackets *)

Section BracketFacts.

Lemma scanBrackets_spec (rest : list ascii) :
  forall (i : nat) (depth : Z) (e : nat),
    (1 <= depth)%Z ->
    scanBrackets rest i depth = Some e ->
    (i <= e)%nat
    /\ nth_error rest (e - i) = Some "]"%char
    /\ (depth + bracketBalance (firstn (e - i + 1) rest) = 0)%Z
    /\ forall j, (j < e - i)%nat -> (1 <= depth + bracketBalance (firstn (j + 1) rest))%Z.
Proof.
  induction rest as [| c rest IH]; intros i depth e Hd; cbn [scanBrackets];
    [discriminate |].
  assert (Hnext : forall depth', (1 <= depth')%Z ->
            (depth' = depth
                      + (if Ascii.eqb c "["%char then 1
                         else if Ascii.eqb c "]"%char then -1 else 0))%Z ->
            scanBrackets rest (S i) depth' = Some e ->
            (i <= e)%nat
            /\ nth_error (c :: rest) (e - i) = Some "]"%char
            /\ (depth + bracketBalance (firstn (e - i + 1) (c :: rest)) = 0)%Z
            /\ forall j, (j < e - i)%nat ->
                         (1 <= depth + bracketBalance (firstn (j + 1) (c :: rest)))%Z).
  { intros depth' Hd' Hstep Hscan.
    destruct (IH (S i) depth' e Hd' Hscan) as (Hle & Hnth & Hbal & Hpre).
    replace (e - i)%nat with (S (e - S i)) by lia.
    split; [lia |]. split; [exact Hnth |].
    split.
    - cbn [Nat.add firstn bracketBalance]. lia.
    - intros [| j] Hj; cbn [Nat.add firstn bracketBalance].
      + rewrite firstn_O. cbn [bracketBalance]. lia.
      + specialize (Hpre j ltac:(lia)). lia. }
  destruct (Ascii.eqb c "["%char) eqn:Hopen.
  - intros Hscan. apply (Hnext (depth + 1)%Z); [lia | lia | exact Hscan].
  - destruct (Ascii.eqb c "]"%char) eqn:Hclose.
    + cbn zeta. destruct (Z.eqb_spec (depth - 1) 0) as [Hz | Hnz].
      * intros [= <-]. rewrite Nat.sub_diag. cbn [nth_error Nat.add firstn bracketBalance].
        apply Ascii.eqb_eq in Hclose. subst c.
        split; [lia |]. split; [reflexivity |].
        split; [rewrite firstn_O; cbn; lia | intros j Hj; lia].
      * intros Hscan. apply (Hnext (depth - 1)%Z); [lia | lia | exact Hscan].
    + intros Hscan. apply (Hnext depth); [lia | lia | exact Hscan].
Qed.

Lemma scanBrackets_none (rest : list ascii) :
  forall (i : nat) (depth : Z),
    (1 <= depth)%Z ->
    scanBrackets rest i depth = None ->
    forall j, (j < length rest)%nat ->
              (1 <= depth + bracketBalance (firstn (j + 1) rest))%Z.
Proof.
  induction rest as [| c rest IH]; intros i depth Hd; cbn [scanBrackets length];
    [intros _ j Hj; lia |].
  assert (Hnext : forall depth', (1 <= depth')%Z ->
            (depth' = depth
                      + (if Ascii.eqb c "["%char then 1
                         else if Ascii.eqb c "]"%char then -1 else 0))%Z ->
            scanBrackets rest (S i) depth' = None ->
            forall j, (j < S (length rest))%nat ->
                      (1 <= depth + bracketBalance (firstn (j + 1) (c :: rest)))%Z).
  { intros depth' Hd' Hstep Hscan [| j] Hj; cbn [Nat.add firstn bracketBalance].
    - rewrite firstn_O. cbn [bracketBalance]. lia.
    - specialize (IH (S i) depth' Hd' Hscan j ltac:(lia)). lia. }
  destruct (Ascii.eqb c "["%char) eqn:Hopen.
  - intros Hscan. apply (Hnext (depth + 1)%Z); [lia | lia | exact Hscan].
  - destruct (Ascii.eqb c "]"%char) eqn:Hclose.
    + cbn zeta. destruct (Z.eqb_spec (depth - 1) 0) as [Hz | Hnz]; [discriminate |].
      intros Hscan. apply (Hnext (depth - 1)%Z); [lia | lia | exact Hscan].
    + intros Hscan. apply (Hnext depth); [lia | lia | exact Hscan].
Qed.

Lemma skipn_at {A} (l : list A) (n : nat) (x : A) :
  nth_error l n = Some x -> exists rest, skipn n l = x :: rest /\ length rest = (length l - S n)%nat.
Proof.
  revert n. induction l as [| y l IH]; intros [| n]; cbn [nth_error skipn length];
    try discriminate.
  - intros [= ->]. exists l. split; [reflexivity | lia].
  - intros Hn. destruct (IH n Hn) as (rest & -> & Hlen). exists rest. split; [reflexivity | lia].
Qed.
End BracketFacts.

(** X23.  When [findMatchingBracket] returns an index [e], the byte at
    [start] is an opening bracket, the byte at [e] is a closing bracket
    after it, the opening and closing brackets of the bytes [start .. e]
    balance, and they do not balance on any shorter stretch from [start]:
    [e] is the first position where the bracket opened at [start] is
    closed.  When it returns -1, either the byte at [start] is not an
    opening bracket or no stretch from [start] balances. *)
Theorem matching_bracket_is_first_balance :
  forall (s : string) (start : nat),
    let bytes := list_ascii_of_string s in
    match findMatchingBracket s start with
    | Some e =>
        (start < e < length bytes)%nat
        /\ nth_error bytes start = Some "["%char
        /\ nth_error bytes e = Some "]"%char
        /\ bracketBalance (firstn (e - start + 1) (skipn start bytes)) = 0%Z
        /\ forall j, (j < e - start)%nat ->
                     (1 <= bracketBalance (firstn (j + 1) (skipn start bytes)))%Z
    | None =>
        nth_error bytes start <> Some "["%char
        \/ forall j, (j < length bytes - start)%nat ->
                     (1 <= bracketBalance (firstn (j + 1) (skipn start bytes)))%Z
    end.
Proof.
  intros s start bytes. unfold findMatchingBracket. fold bytes.
  destruct (nth_error bytes start) as [c |] eqn:Hc; [| left; discriminate].
  destruct (Ascii.eqb c "["%char) eqn:Hopen;
    [| left; intros [= ->]; discriminate].
  apply Ascii.eqb_eq in Hopen. subst c.
  destruct (skipn_at bytes start _ Hc) as (rest & Hskip & Hlen).
  rewrite Hskip. cbn [scanBrackets Ascii.eqb]. cbn [Bool.eqb andb].
  change (0 + 1)%Z with 1%Z.
  destruct (scanBrackets rest (S start) 1) as [e |] eqn:Hscan.
  - destruct (scanBrackets_spec rest (S start) 1 e ltac:(lia) Hscan)
      as (Hle & Hnth & Hbal & Hpre).
    assert (He : (e - S start < length rest)%nat).
    { apply nth_error_Some. rewrite Hnth. discriminate. }
    split; [lia |]. split; [reflexivity |].
    split.
    { rewrite <- (firstn_skipn start bytes), nth_error_app2
        by (rewrite length_firstn; lia).
      rewrite length_firstn, Nat.min_l, Hskip by lia.
      replace (e - start)%nat with (S (e - S start)) by lia. exact Hnth. }
    replace (e - start)%nat with (S (e - S start)) by lia.
    split.
    + cbn [Nat.add firstn bracketBalance]. cbn [Ascii.eqb Bool.eqb andb]. lia.
    + intros [| j] Hj; cbn [Nat.add firstn bracketBalance]; cbn [Ascii.eqb Bool.eqb andb].
      * rewrite firstn_O. cbn [bracketBalance]. lia.
      * specialize (Hpre j ltac:(lia)). lia.
  - right. intros [| j] Hj; cbn [Nat.add firstn bracketBalance];
      cbn [Ascii.eqb Bool.eqb andb].
    + rewrite firstn_O. cbn [bracketBalance]. lia.
    + pose proof (scanBrackets_none rest (S start) 1 ltac:(lia) Hscan j ltac:(lia)). lia.
Qed.

(** ** Validating a decision *)

Section ExactValidation.
#[local] Open Scope Q_scope.

Lemma lit_fifth : inject_Z 2 / inject_Z 10 == 1 # 5.
Proof. reflexivity. Qed.

(** With the entry assumed at 20% of the way from the stop to the target,
    the reward is always four times the risk. *)
Lemma riskRewardRatio_long (d : Decision Q) :
  String.eqb (Action d) "open_long" = true ->
  0 < StopLoss d -> StopLoss d < TakeProfit d ->
  riskRewardRatio d == 4.
Proof.
  intros Hlong Hsl Hlt. unfold riskRewardRatio. rewrite Hlong. cbn zeta.
  unfold lit. to_Q.
  set (sl := StopLoss d) in *. set (tp := TakeProfit d) in *.
  assert (Hentry : 0 < sl + (tp - sl) * (1 # 5)) by nra.
  match goal with
  | |- context [Qltb ?a ?b] => assert (Hgt : Qltb a b = true)
  end.
  { apply Qltb_lt. rewrite lit_fifth.
    change (inject_Z 100) with 100. change (inject_Z 0) with 0.
    apply Qmult_lt_0_compat; [| lra]. apply Qlt_shift_div_l; [exact Hentry | nra]. }
  rewrite Hgt. rewrite lit_fifth. change (inject_Z 100) with 100.
  field. split; nra.
Qed.

Lemma riskRewardRatio_short (d : Decision Q) :
  String.eqb (Action d) "open_long" = false ->
  0 < TakeProfit d -> TakeProfit d < StopLoss d ->
  riskRewardRatio d == 4.
Proof.
  intros Hshort Htp Hlt. unfold riskRewardRatio. rewrite Hshort. cbn zeta.
  unfold lit. to_Q.
  set (sl := StopLoss d) in *. set (tp := TakeProfit d) in *.
  assert (Hentry : 0 < sl - (sl - tp) * (1 # 5)) by nra.
  match goal with
  | |- context [Qltb ?a ?b] => assert (Hgt : Qltb a b = true)
  end.
  { apply Qltb_lt. rewrite lit_fifth.
    change (inject_Z 100) with 100. change (inject_Z 0) with 0.
    apply Qmult_lt_0_compat; [| lra]. apply Qlt_shift_div_l; [exact Hentry | nra]. }
  rewrite Hgt. rewrite lit_fifth. change (inject_Z 100) with 100.
  field. split; nra.
Qed.

Lemma Qltb_false (x y : Q) : Qltb x y = false <-> y <= x.
Proof.
  split; intros Hxy.
  - destruct (Qlt_le_dec x y) as [Hlt | Hle]; [| exact Hle].
    apply Qltb_lt in Hlt. congruence.
  - destruct (Qltb x y) eqn:E; [| reflexivity]. apply Qltb_lt in E. lra.
Qed.

Lemma Qle_bool_false (x y : Q) : Qle_bool x y = false <-> y < x.
Proof.
  split; intros Hxy.
  - destruct (Qle_bool_cases x y) as [[_ E] | [Hlt _]]; [congruence | exact Hlt].
  - destruct (Qle_bool_cases x y) as [[Hle _] | [_ E]]; [lra | exact E].
Qed.
End ExactValidation.

(** X24.  At exact arithmetic the risk-reward check of [validateDecision]
    never rejects a decision: once the stops are positive and on the right
    sides of each other, the ratio it computes is exactly 4.  In float64 it
    can reject: for a long whose target is the float next above its stop,
    the assumed entry rounds onto the stop and the ratio stays 0. *)
Theorem risk_reward_check_is_vacuous_when_exact :
  (forall (d : Decision Q) (accountEquity : Q) (btcEthLeverage altcoinLeverage : Z)
          (availableBalance : Q),
      validateDecision d accountEquity btcEthLeverage altcoinLeverage availableBalance
      <> Some RiskRewardTooLow)
  /\ validateDecision (F := float) collapsedLong (ofZ 10000) 5 5 (ofZ 10000)
     = Some RiskRewardTooLow.
Proof.
  split; [| vm_compute; reflexivity].
  intros d accountEquity btcEthLeverage altcoinLeverage availableBalance.
  unfold validateDecision.
  destruct (negb (existsb _ validActions)); [discriminate |].
  destruct (String.eqb (Action d) "open_long" || String.eqb (Action d) "open_short")%bool;
    [| discriminate].
  cbn zeta.
  destruct ((Leverage d <=? 0)%Z || _)%bool; [discriminate |].
  destruct (fleb (PositionSizeUSD d) (ofZ 0)); [discriminate |].
  destruct (fltb availableBalance _); [discriminate |].
  destruct (fleb availableBalance (ofZ 0)); [discriminate |].
  destruct (fltb _ (PositionSizeUSD d)); [discriminate |].
  to_Q. change (inject_Z 0) with 0%Q. change (inject_Z 3) with 3%Q.
  destruct (Qle_bool (StopLoss d) 0) eqn:Hsl; [discriminate |].
  destruct (Qle_bool (TakeProfit d) 0) eqn:Htp; [discriminate |].
  cbn [orb].
  apply Qle_bool_false in Hsl, Htp.
  destruct (String.eqb (Action d) "open_long") eqn:Hlong; cbn [andb negb].
  - destruct (Qle_bool (TakeProfit d) (StopLoss d)) eqn:Hord; [discriminate |].
    apply Qle_bool_false in Hord.
    assert (Hlt : Qltb (riskRewardRatio d) 3 = false).
    { apply Qltb_false. rewrite (riskRewardRatio_long d Hlong Hsl Hord). lra. }
    rewrite Hlt. discriminate.
  - destruct (Qle_bool (StopLoss d) (TakeProfit d)) eqn:Hord; [discriminate |].
    apply Qle_bool_false in Hord.
    assert (Hlt : Qltb (riskRewardRatio d) 3 = false).
    { apply Qltb_false. rewrite (riskRewardRatio_short d Hlong Htp Hord). lra. }
    rewrite Hlt. discriminate.
Qed.

(** X25.  At exact arithmetic [validateDecision] accepts an opening
    decision exactly when its leverage is between 1 and the configured cap
    (the BTC/ETH cap for BTCUSDT and ETHUSDT, the altcoin cap otherwise),
    its size is positive, the margin it requires (size over leverage) does
    not exceed the available balance, which is positive, its size is at
    most 1.01 times the position cap (10 times the equity for BTC/ETH, 1.5
    times otherwise), both stops are positive, and the stop is below the
    target for a long and above it for a short. *)
Theorem accepted_opening_decisions :
  forall (d : Decision Q) (accountEquity : Q) (btcEthLeverage altcoinLeverage : Z)
         (availableBalance : Q),
    Action d = "open_long"%string \/ Action d = "open_short"%string ->
    let maxLeverage := if isMajor (DecisionSymbol d) then btcEthLeverage
                       else altcoinLeverage in
    let maxPositionValue := if isMajor (DecisionSymbol d) then (accountEquity * 10)%Q
                            else (accountEquity * (15 # 10))%Q in
    validateDecision d accountEquity btcEthLeverage altcoinLeverage availableBalance = None
    <-> (0 < Leverage d <= maxLeverage)%Z
        /\ (0 < PositionSizeUSD d)%Q
        /\ (PositionSizeUSD d / inject_Z (Leverage d) <= availableBalance)%Q
        /\ (0 < availableBalance)%Q
        /\ (PositionSizeUSD d <= maxPositionValue + maxPositionValue * (1 # 100))%Q
        /\ (0 < StopLoss d)%Q /\ (0 < TakeProfit d)%Q
        /\ (if String.eqb (Action d) "open_long"
            then (StopLoss d < TakeProfit d)%Q else (TakeProfit d < StopLoss d)%Q).
Proof.
  intros d accountEquity btcEthLeverage altcoinLeverage availableBalance Hact
         maxLeverage maxPositionValue.
  unfold validateDecision.
  assert (Hvalid : existsb (String.eqb (Action d)) validActions = true)
    by (destruct Hact as [-> | ->]; reflexivity).
  assert (Hopen : (String.eqb (Action d) "open_long"
                   || String.eqb (Action d) "open_short")%bool = true)
    by (destruct Hact as [-> | ->]; reflexivity).
  rewrite Hvalid, Hopen. cbn [negb]. cbn zeta.
  assert (Hcap : (if isMajor (DecisionSymbol d) then fmul accountEquity (ofZ 10)
                  else fmul accountEquity (lit 15 10)) = maxPositionValue).
  { subst maxPositionValue. destruct (isMajor (DecisionSymbol d)); reflexivity. }
  rewrite Hcap. fold maxLeverage.
  assert (Hcent : lit (F := Q) 1 100 == 1 # 100) by reflexivity.
  to_Q. change (inject_Z 0) with 0%Q. change (inject_Z 3) with 3%Q.
  destruct (Z.leb_spec (Leverage d) 0) as [Hlev0 | Hlev0]; cbn [orb].
  { split; [discriminate | intros (Hl & _); lia]. }
  rewrite Z.gtb_ltb.
  destruct (Z.ltb_spec maxLeverage (Leverage d)) as [Hlev1 | Hlev1].
  { split; [discriminate | intros (Hl & _); lia]. }
  destruct (Qle_bool (PositionSizeUSD d) 0) eqn:Hsize.
  { apply Qle_bool_iff in Hsize. split; [discriminate | intros (_ & Hs & _); lra]. }
  apply Qle_bool_false in Hsize.
  destruct (Qltb availableBalance (PositionSizeUSD d / inject_Z (Leverage d))) eqn:Hmargin.
  { apply Qltb_lt in Hmargin. split; [discriminate | intros (_ & _ & Hm & _); lra]. }
  apply Qltb_false in Hmargin.
  destruct (Qle_bool availableBalance 0) eqn:Hbal.
  { apply Qle_bool_iff in Hbal. split; [discriminate | intros (_ & _ & _ & Hb & _); lra]. }
  apply Qle_bool_false in Hbal.
  destruct (Qltb (maxPositionValue + maxPositionValue * lit 1 100) (PositionSizeUSD d))
    eqn:Hbig.
  { apply Qltb_lt in Hbig. rewrite Hcent in Hbig.
    split; [discriminate | intros (_ & _ & _ & _ & Hp & _); lra]. }
  apply Qltb_false in Hbig. rewrite Hcent in Hbig.
  destruct (Qle_bool (StopLoss d) 0) eqn:Hsl; cbn [orb].
  { apply Qle_bool_iff in Hsl.
    split; [discriminate | intros (_ & _ & _ & _ & _ & Hs & _); lra]. }
  apply Qle_bool_false in Hsl.
  destruct (Qle_bool (TakeProfit d) 0) eqn:Htp.
  { apply Qle_bool_iff in Htp.
    split; [discriminate | intros (_ & _ & _ & _ & _ & _ & Ht & _); lra]. }
  apply Qle_bool_false in Htp.
  destruct (String.eqb (Action d) "open_long") eqn:Hlong; cbn [andb negb].
  - destruct (Qle_bool (TakeProfit d) (StopLoss d)) eqn:Hord.
    { apply Qle_bool_iff in Hord.
      split; [discriminate | intros (_ & _ & _ & _ & _ & _ & _ & Ho); lra]. }
    apply Qle_bool_false in Hord.
    assert (Hlt : Qltb (riskRewardRatio d) 3 = false).
    { apply Qltb_false. rewrite (riskRewardRatio_long d Hlong Hsl Hord). lra. }
    rewrite Hlt. split; [intros _ | reflexivity].
    repeat split; try assumption; lia.
  - destruct (Qle_bool (StopLoss d) (TakeProfit d)) eqn:Hord.
    { apply Qle_bool_iff in Hord.
      split; [discriminate | intros (_ & _ & _ & _ & _ & _ & _ & Ho); lra]. }
    apply Qle_bool_false in Hord.
    assert (Hlt : Qltb (riskRewardRatio d) 3 = false).
    { apply Qltb_false. rewrite (riskRewardRatio_short d Hlong Htp Hord). lra. }
    rewrite Hlt. split; [intros _ | reflexivity].
    repeat split; try assumption; lia.
Qed.

Lemma accepted_opening_decisions_witness :
  validateDecision (F := Q) sampleLong 10000%Q 5 5 10000%Q = None.
Proof.
  apply (accepted_opening_decisions sampleLong 10000%Q 5 5 10000%Q).
  - left. reflexivity.
  - cbn. repeat split; try lia; try reflexivity; discriminate.
Defined.

Section ValidationLoop.
Context {F : Type} `{Float64Ops F}.

Lemma validateDecisionsFrom_spec (decisions : list (Decision F)) (accountEquity : F)
      (btcEthLeverage altcoinLeverage : Z) (availableBalance : F) :
  forall i : Z,
    match validateDecisionsFrom i decisions accountEquity btcEthLeverage altcoinLeverage
                                availableBalance with
    | None =>
        Forall (fun d => validateDecision d accountEquity btcEthLeverage altcoinLeverage
                                          availableBalance = None) decisions
    | Some (n, err) =>
        exists (k : nat) (d : Decision F),
          n = (i + Z.of_nat k + 1)%Z
          /\ decisions !! k = Some d
          /\ validateDecision d accountEquity btcEthLeverage altcoinLeverage
                              availableBalance = Some err
          /\ Forall (fun d => validateDecision d accountEquity btcEthLeverage
                                               altcoinLeverage availableBalance = None)
                    (firstn k decisions)
    end.
Proof.
  induction decisions as [| d rest IH]; intros i; cbn [validateDecisionsFrom];
    [constructor |].
  destruct (validateDecision d accountEquity btcEthLeverage altcoinLeverage
                             availableBalance) as [err |] eqn:Hd.
  - exists 0%nat, d. repeat split; [lia | exact Hd | constructor].
  - specialize (IH (i + 1)%Z).
    destruct (validateDecisionsFrom (i + 1) rest accountEquity btcEthLeverage
                                    altcoinLeverage availableBalance) as [[n err] |].
    + destruct IH as (k & d' & Hn & Hk & Herr & Hbefore).
      exists (S k), d'. repeat split; [lia | exact Hk | exact Herr |].
      cbn [firstn]. now constructor.
    + now constructor.
Qed.
End ValidationLoop.

(** X26.  [validateDecisions] returns nil exactly when every decision of
    the list passes [validateDecision]; otherwise it reports the 1-based
    number of the first decision which fails, with the error of that
    decision, all earlier decisions passing.  Holds in float64 as in any
    arithmetic. *)
Theorem validation_reports_first_failure :
  forall (F : Type) (ops : Float64Ops F) (decisions : list (Decision F))
         (accountEquity : F) (btcEthLeverage altcoinLeverage : Z) (availableBalance : F),
    match validateDecisions decisions accountEquity btcEthLeverage altcoinLeverage
                            availableBalance with
    | None =>
        Forall (fun d => validateDecision d accountEquity btcEthLeverage altcoinLeverage
                                          availableBalance = None) decisions
    | Some (n, err) =>
        exists (k : nat) (d : Decision F),
          n = (Z.of_nat k + 1)%Z
          /\ decisions !! k = Some d
          /\ validateDecision d accountEquity btcEthLeverage altcoinLeverage
                              availableBalance = Some err
          /\ Forall (fun d => validateDecision d accountEquity btcEthLeverage
                                               altcoinLeverage availableBalance = None)
                    (firstn k decisions)
    end.
Proof.
  intros F ops decisions accountEquity btcEthLeverage altcoinLeverage availableBalance.
  unfold validateDecisions.
  pose proof (validateDecisionsFrom_spec decisions accountEquity btcEthLeverage
                altcoinLeverage availableBalance 0) as Hspec.
  destruct (validateDecisionsFrom 0 decisions accountEquity btcEthLeverage
                                  altcoinLeverage availableBalance) as [[n err] |];
    [| exact Hspec].
  destruct Hspec as (k & d & Hn & Hk & Herr & Hbefore).
  exists k, d. repeat split; [lia | exact Hk | exact Herr | exact Hbefore].
Qed.


(** ** Decoding the bulk open-interest answer *)

Section DecodingFacts.
Context {F : Type} `{Float64Ops F}.
Variable ParseFloat : string -> option F.

Lemma Normalize_listed (name : string) :
  Normalize (String.append name "USDT") = String.append (ToUpper name) "USDT".
Proof.
  unfold Normalize. rewrite ToUpper_append.
  change (ToUpper "USDT") with "USDT"%string.
  now rewrite HasSuffix_append.
Qed.

Lemma lookup_combine {A B} (l1 : list A) (l2 : list B) (i : nat) (x : A) (y : B) :
  combine l1 l2 !! i = Some (x, y) -> l1 !! i = Some x /\ l2 !! i = Some y.
Proof.
  revert l2 i. induction l1 as [| a l1 IH]; intros [| b l2] [| i]; simpl;
    try discriminate.
  - intros [= <- <-]. split; reflexivity.
  - apply IH.
Qed.

Lemma buildOICache_entries (universe assetCtxs : list (JSON F)) (k : string) (v : F) :
  buildOICache ParseFloat universe assetCtxs !! k = Some v ->
  exists (i : nat) (u a : JSON F),
    universe !! i = Some u /\ assetCtxs !! i = Some a
    /\ bulkEntry ParseFloat u a = Some (k, v).
Proof.
  unfold buildOICache.
  assert (Hgen : forall (pairs : list (JSON F * JSON F)) (m : gmap string F),
             fold_left (fun newCache '(universeItem, assetCtx) =>
                          match bulkEntry ParseFloat universeItem assetCtx with
                          | Some (symbolHL, oi) => <[symbolHL := oi]> newCache
                          | None => newCache
                          end) pairs m !! k = Some v ->
             m !! k = Some v
             \/ exists i u a, pairs !! i = Some (u, a)
                              /\ bulkEntry ParseFloat u a = Some (k, v)).
  { induction pairs as [| [u a] pairs IH]; intros m; cbn [fold_left]; [now left |].
    intros Hk. apply IH in Hk as [Hm | (i & u' & a' & Hi & He)];
      [| right; exists (S i), u', a'; now split].
    destruct (bulkEntry ParseFloat u a) as [[symbolHL oi] |] eqn:He; [| now left].
    rewrite lookup_insert in Hm.
    destruct (decide (symbolHL = k)) as [-> | Hne]; [| now left].
    injection Hm as ->. right. exists 0%nat, u, a. now split. }
  intros Hk. apply Hgen in Hk as [Hm | (i & u & a & Hi & He)].
  - rewrite lookup_empty in Hm. discriminate.
  - exists i, u, a. apply lookup_combine in Hi as [Hu Ha]. now repeat split.
Qed.
End DecodingFacts.

(** X27.  When the decoding of the bulk answer yields a table, the answer
    had at least two elements, the first an object whose "universe" field
    is an array and the second an array of the same length; and every
    entry of the table comes from a position where the universe item has a
    string "name" and the asset context a string "openInterest" which
    parses as a float: the key is the upper-cased name followed by USDT,
    the value the parsed number.  Items of any other shape are skipped
    without an error. *)
Theorem bulk_table_entries_are_listed_assets :
  forall (F : Type) (ops : Float64Ops F) (ParseFloat : string -> option F)
         (response : list (JSON F)) (table : gmap string F),
    decodeBulk ParseFloat response = inr table ->
    exists (universeData : gmap string (JSON F)) (universe assetCtxs rest : list (JSON F)),
      response = JObject universeData :: JArray assetCtxs :: rest
      /\ universeData !! "universe"%string = Some (JArray universe)
      /\ length universe = length assetCtxs
      /\ forall (k : string) (v : F),
           table !! k = Some v ->
           exists (i : nat) (u a : JSON F) (name openInterest : string),
             universe !! i = Some u /\ assetCtxs !! i = Some a
             /\ stringField u "name" = Some name
             /\ stringField a "openInterest" = Some openInterest
             /\ ParseFloat openInterest = Some v
             /\ k = String.append (ToUpper name) "USDT".
Proof.
  intros F ops ParseFloat response table. unfold decodeBulk.
  destruct response as [| first [| second rest]]; try discriminate.
  destruct first as [| | | | | universeData]; try discriminate.
  destruct (universeData !! "universe"%string) as [[| | | | universe |] |] eqn:Hu;
    try discriminate.
  destruct second as [| | | | assetCtxs |]; try discriminate.
  destruct (Nat.eqb_spec (length universe) (length assetCtxs)) as [Hlen | Hlen];
    [| discriminate].
  intros [= <-].
  exists universeData, universe, assetCtxs, rest.
  split; [reflexivity |]. split; [exact Hu |]. split; [exact Hlen |].
  intros k v Hk.
  destruct (buildOICache_entries ParseFloat universe assetCtxs k v Hk)
    as (i & u & a & Hi & Ha & He).
  unfold bulkEntry in He.
  destruct (stringField u "name") as [name |] eqn:Hname; [| discriminate].
  destruct (stringField a "openInterest") as [openInterest |] eqn:Hoi; [| discriminate].
  destruct (ParseFloat openInterest) as [oi |] eqn:Hparse; [| discriminate].
  injection He as <- <-.
  exists i, u, a, name, openInterest.
  repeat split; try assumption. apply Normalize_listed.
Qed.


Lemma bulk_table_entries_are_listed_assets_witness :
  exists (universeData : gmap string (JSON float)) (universe assetCtxs rest : list (JSON float)),
    sampleResponse = JObject universeData :: JArray assetCtxs :: rest
    /\ universeData !! "universe"%string = Some (JArray universe)
    /\ length universe = length assetCtxs
    /\ forall (k : string) (v : float),
         (<["BTCUSDT"%string := ofZ 5]> ∅ : gmap string float) !! k = Some v ->
         exists (i : nat) (u a : JSON float) (name openInterest : string),
           universe !! i = Some u /\ assetCtxs !! i = Some a
           /\ stringField u "name" = Some name
           /\ stringField a "openInterest" = Some openInterest
           /\ sampleParse openInterest = Some v
           /\ k = String.append (ToUpper name) "USDT".
Proof.
  apply (bulk_table_entries_are_listed_assets float binary64 sampleParse sampleResponse
           (<["BTCUSDT"%string := ofZ 5]> ∅)).
  vm_compute. reflexivity.
Defined.


(** ** Shape of the summary *)

Section SummaryFacts.
Context {F : Type} `{Float64Ops F}.

Lemma addTimeframe_haveLevels (inputs : list (string * list (Kline F))) timeframes tf :
  In tf inputs ->
  entriesHaveLevels inputs timeframes ->
  entriesHaveLevels inputs (addTimeframe timeframes tf).
Proof.
  intros Hin Hinv. destruct tf as [name klines]. unfold addTimeframe.
  destruct (length klines =? 0)%nat; [exact Hinv |].
  destruct (calculateSupportResistanceLevels klines supportResistanceLookback)
    as [supports resistances] eqn:Hcalc.
  destruct ((length supports =? 0)%nat && (length resistances =? 0)%nat)%bool eqn:Hempty;
    [exact Hinv |].
  destruct (last klines) as [lastCandle |]; [| exact Hinv].
  intros name' tf'. rewrite lookup_insert.
  destruct (decide (name = name')) as [<- |]; [| apply Hinv].
  intros [= <-]. exists klines. split; [exact Hin |]. split.
  - destruct (Nat.lt_ge_cases (length (recentWindow klines supportResistanceLookback)) 7)
      as [Hshort | Hlong].
    + rewrite (levels_of_short_window klines _ Hshort) in Hcalc.
      injection Hcalc as <- <-. discriminate.
    + unfold recentWindow in Hlong. rewrite length_skipn in Hlong. lia.
  - cbn [Supports Resistances].
    apply andb_false_iff in Hempty as [Hs | Hr]; [left | right];
      intros Hnil; apply (f_equal (@length _)) in Hnil;
      rewrite updateLevelDistances_length in Hnil; cbn [length] in Hnil.
    + rewrite Hnil in Hs. discriminate.
    + rewrite Hnil in Hr. discriminate.
Qed.

Lemma timeframes_haveLevels (inputs todo : list (string * list (Kline F))) timeframes :
  (forall tf, In tf todo -> In tf inputs) ->
  entriesHaveLevels inputs timeframes ->
  entriesHaveLevels inputs (fold_left addTimeframe todo timeframes).
Proof.
  revert timeframes. induction todo as [| tf todo IH]; intros timeframes Hsub Hinv;
    cbn [fold_left]; [exact Hinv |].
  apply IH; [intros tf' Htf'; apply Hsub; now right |].
  apply addTimeframe_haveLevels; [apply Hsub; now left | exact Hinv].
Qed.

(** The sets collected for the aggregator are those of the other
    timeframes of the weight table which have an entry. *)
Lemma setsFor_nonempty (pick : SupportResistanceTimeframe F -> list (SupportResistanceLevel F))
      (timeframes : gmap string (SupportResistanceTimeframe F)) (baseName : string)
      (table : list (string * F)) :
  (0 < length (setsFor pick timeframes baseName table))%nat
  <-> exists other, In other (map fst table) /\ other <> baseName
                    /\ is_Some (timeframes !! other).
Proof.
  unfold setsFor. induction table as [| [name w] table IH]; cbn [omap list_omap map In fst].
  - cbn [length]. split; [lia | intros (other & [] & _)].
  - destruct (String.eqb_spec name baseName) as [-> | Hne].
    + rewrite IH. split.
      * intros (other & Hin & Hneq & Hsome). exists other. repeat split; auto.
      * intros (other & [<- | Hin] & Hneq & Hsome); [contradiction |].
        exists other. repeat split; auto.
    + destruct (timeframes !! name) as [tf |] eqn:Htf; cbn [fmap option_fmap option_map].
      * cbn [length]. split; [intros _ | lia].
        exists name. split; [now left |]. split; [exact Hne | rewrite Htf; eauto].
      * rewrite IH. split.
        -- intros (other & Hin & Hneq & Hsome). exists other. repeat split; auto.
        -- intros (other & [<- | Hin] & Hneq & Hsome).
           ++ rewrite Htf in Hsome. destruct Hsome as [? [=]].
           ++ exists other. repeat split; auto.
Qed.

Lemma findConfluenceLevels_length (base : list (SupportResistanceLevel F))
      (sets : list (weightedLevelSet F)) (tolerance currentPrice : F) (isSupport : bool) :
  (length (findConfluenceLevels base sets tolerance currentPrice isSupport) <= 5)%nat.
Proof.
  unfold findConfluenceLevels.
  destruct (_ || _)%bool; [cbn [length]; lia |].
  destruct (Nat.eqb_spec (length (confluenceCandidates base sets tolerance)) 0) as [-> | _];
    [lia |].
  apply sortAndFilterLevels_length.
Qed.
End SummaryFacts.

(** X28.  In the summary of [calculateSupportResistanceSummary] a
    timeframe has an entry only if its history has at least seven candles,
    and the entry holds at least one level.  The confluence block is
    present exactly when one of 3m, 15m, 1h, 4h (the first, in this order,
    which has an entry) serves as the base and some other timeframe has an
    entry too; with a single timeframe there is none.  When present, each of
    its lists has at most five levels. *)
Theorem summary_confluence_needs_two_timeframes :
  forall (F : Type) (ops : Float64Ops F)
         (klines3m klines15m klines1h klines4h klines12h klines1d : list (Kline F))
         (currentPrice : F),
    let inputs := namedInputs klines3m klines15m klines1h klines4h klines12h klines1d in
    let summary := calculateSupportResistanceSummary klines3m klines15m klines1h klines4h
                                                     klines12h klines1d currentPrice in
    entriesHaveLevels inputs (Timeframes summary)
    /\ (is_Some (Confluence summary)
        <-> exists baseName base other,
            chooseBase (Timeframes summary)
                       ["3m"%string; "15m"%string; "1h"%string; "4h"%string]
            = Some (baseName, base)
            /\ other <> baseName
            /\ is_Some (Timeframes summary !! other))
    /\ (forall c, Confluence summary = Some c ->
                  (length (ConfluenceSupports c) <= 5)%nat
                  /\ (length (ConfluenceResistances c) <= 5)%nat).
Proof.
  intros F ops klines3m klines15m klines1h klines4h klines12h klines1d currentPrice
         inputs summary.
  assert (Hentries : entriesHaveLevels inputs (fold_left addTimeframe inputs ∅)).
  { apply timeframes_haveLevels; [auto |].
    intros name tf. rewrite lookup_empty. discriminate. }
  subst summary. unfold calculateSupportResistanceSummary.
  change [("3m"%string, klines3m); ("15m"%string, klines15m); ("1h"%string, klines1h);
          ("4h"%string, klines4h); ("12h"%string, klines12h); ("1d"%string, klines1d)]
    with inputs.
  set (timeframes := fold_left addTimeframe inputs ∅) in *.
  assert (Hnames : forall other, is_Some (timeframes !! other) ->
                                 In other (map fst (weighting (F := F)))).
  { intros other [tf Htf]. destruct (Hentries other tf Htf) as (klines & Hin & _).
    apply (in_map fst) in Hin. exact Hin. }
  destruct (chooseBase timeframes _) as [[baseName base] |] eqn:Hbase.
  - rewrite collectSets_spec.
    pose proof (setsFor_nonempty Supports timeframes baseName weighting) as Hsets.
    destruct (Nat.ltb_spec 0 (length (setsFor Supports timeframes baseName weighting)))
      as [Hpos | Hzero]; cbn [Timeframes Confluence].
    + split; [exact Hentries |]. split.
      * split; [intros _ | eauto].
        apply Hsets in Hpos as (other & _ & Hne & Hsome).
        exists baseName, base, other. now repeat split.
      * intros c [= <-]. cbn [ConfluenceSupports ConfluenceResistances].
        split; apply findConfluenceLevels_length.
    + split; [exact Hentries |]. split.
      * split; [intros [? [=]] |].
        intros (baseName' & base' & other & Hb & Hne & Hsome).
        rewrite Hbase in Hb. injection Hb as <- <-.
        exfalso. assert (Hpos : (0 < length (setsFor Supports timeframes baseName
                                                     weighting))%nat).
        { apply Hsets. exists other. repeat split; auto. }
        lia.
      * intros c [=].
  - cbn [Timeframes Confluence]. split; [exact Hentries |]. split.
    + split; [intros [? [=]] |].
      intros (baseName & base & other & Hb & _). rewrite Hbase in Hb. discriminate.
    + intros c [=].
Qed.

(** ** Range of the RSI *)

(** X29.  At exact arithmetic, with [period >= 1], [calculateRSI] lies
    between 0 and 100 on every history. *)
Theorem rsi_between_zero_and_hundred :
  forall (klines : list (Kline Q)) (period : nat),
    (0 < period)%nat ->
    (0 <= calculateRSI klines period <= 100)%Q.
Proof.
  intros klines period Hpos.
  destruct (Nat.leb_spec (length klines) period) as [Hshort | Hlong].
  - rewrite (calculateRSI_short klines period Hshort).
    cbn [ofZ exactQ]. change (inject_Z 0) with 0%Q. lra.
  - rewrite (calculateRSI_unfold klines period Hlong).
    destruct (rsiAverages_invariant klines period Hpos) as (Hg & Hl & _).
    destruct (rsiAverages klines period) as [g l]. cbn [fst snd] in *.
    to_Q. change (inject_Z 0) with 0%Q. change (inject_Z 100) with 100%Q.
    change (inject_Z 1) with 1%Q.
    destruct (Qeq_bool_cases l 0) as [[Hz E] | [[Hneg E] | [Hgt E]]]; rewrite E;
      [lra | lra |].
    assert (Hrs : (0 <= g / l)%Q) by now apply Qdiv_nonneg.
    assert (Hden : (0 < 1 + g / l)%Q) by lra.
    assert (Hq : (0 < 100 / (1 + g / l) <= 100)%Q).
    { split.
      - apply Qlt_shift_div_l; [exact Hden | lra].
      - apply Qle_shift_div_r; [exact Hden | nra]. }
    lra.
Qed.

Lemma rsi_between_zero_and_hundred_witness :
  (0 <= calculateRSI (F := Q) exampleKlines 7 <= 100)%Q.
Proof.
  apply (rsi_between_zero_and_hundred exampleKlines 7). lia.
Defined.

(** ** The longer-term context *)

Section LongerTermFacts.
Context {F : Type} `{Float64Ops F}.

(** The state of the loop of [calculateLongerTermData] after the candles
    [start .. start + n - 1]. *)
Lemma longer_term_loop (klines : list (Kline F)) (start n : nat) :
  let out := fold_left
               (fun '(macds, rsis) i =>
                  let macds := if (25 <=? i)%nat
                               then macds ++ [calculateMACD (prefixTo klines i)]
                               else macds in
                  let rsis := if (14 <=? i)%nat
                              then rsis ++ [calculateRSI (prefixTo klines i) 14]
                              else rsis in
                  (macds, rsis))
               (seq start n) ([], []) in
  length (fst out) = (start + n - Nat.max start 25)%nat
  /\ length (snd out) = (start + n - Nat.max start 14)%nat
  /\ ((0 < n)%nat -> (25 <= start + n - 1)%nat ->
      last (fst out) = Some (calculateMACD (prefixTo klines (start + n - 1))))
  /\ ((0 < n)%nat -> (14 <= start + n - 1)%nat ->
      last (snd out) = Some (calculateRSI (prefixTo klines (start + n - 1)) 14)).
Proof.
  induction n as [| n IH]; cbn zeta.
  - cbn [seq fold_left fst snd length]. repeat split; lia.
  - rewrite seq_S, fold_left_app. cbn [fold_left].
    cbn zeta in IH. destruct IH as (Hm & Hr & _ & _).
    destruct (fold_left _ (seq start n) _) as [macds rsis]. cbn [fst snd] in *.
    replace (start + S n - 1)%nat with (start + n)%nat by lia.
    destruct (Nat.leb_spec 25 (start + n)), (Nat.leb_spec 14 (start + n));
      cbn [fst snd]; rewrite ?length_app, ?last_snoc; cbn [length];
      repeat split; intros; lia || reflexivity.
Qed.
End LongerTermFacts.

(** X30.  [calculateLongerTermData] reports one MACD per candle of the
    last ten from candle 25 on and one RSI14 from candle 14 on; the last
    entry of each series is the indicator of the whole history; the current
    volume is the volume of the last candle; and on an empty history both
    volumes are 0 and both series empty.  Holds in float64 as in any
    arithmetic. *)
Theorem longer_term_series_shape :
  forall (F : Type) (ops : Float64Ops F) (klines : list (Kline F)),
    let data := calculateLongerTermData klines in
    length (LongMACDValues data) = Nat.min 10 (length klines - 25)
    /\ length (LongRSI14Values data) = Nat.min 10 (length klines - 14)
    /\ ((26 <= length klines)%nat ->
        last (LongMACDValues data) = Some (calculateMACD klines))
    /\ ((15 <= length klines)%nat ->
        last (LongRSI14Values data) = Some (calculateRSI klines 14))
    /\ (forall k, last klines = Some k -> CurrentVolume data = Volume k)
    /\ (klines = [] -> CurrentVolume data = ofZ 0 /\ AverageVolume data = ofZ 0).
Proof.
  intros F ops klines data. subst data. unfold calculateLongerTermData.
  set (start := (length klines - 10)%nat).
  pose proof (longer_term_loop klines start (length klines - start)) as Hloop.
  cbn zeta in Hloop. destruct Hloop as (Hm & Hr & Hlm & Hlr).
  destruct (fold_left _ (seq start (length klines - start)) _) as [macds rsis].
  cbn [fst snd] in *.
  assert (Hend : (0 < length klines)%nat ->
                 prefixTo klines (start + (length klines - start) - 1) = klines).
  { intros Hlen. replace (start + (length klines - start) - 1)%nat
      with (length klines - 1)%nat by lia. apply prefixTo_last. }
  destruct (last klines) as [k |] eqn:Hlast;
    cbn [LongMACDValues LongRSI14Values CurrentVolume AverageVolume].
  - split; [subst start; lia |]. split; [subst start; lia |].
    split; [intros Hlen; rewrite Hlm, Hend by (subst start; lia); reflexivity |].
    split; [intros Hlen; rewrite Hlr, Hend by (subst start; lia); reflexivity |].
    split; [intros k' [= <-]; reflexivity |].
    intros ->. discriminate.
  - split; [subst start; lia |]. split; [subst start; lia |].
    split; [intros Hlen; rewrite Hlm, Hend by (subst start; lia); reflexivity |].
    split; [intros Hlen; rewrite Hlr, Hend by (subst start; lia); reflexivity |].
    split; [intros k' [=] | intros _; split; reflexivity].
Qed.

(** ** The snapshot and its intraday series *)

Section SnapshotSeries.
Context {F : Type} `{Float64Ops F}.

Lemma fromEnd_last (klines : list (Kline F)) :
  klines <> [] ->
  exists k, last klines = Some k /\ fromEnd klines 1 = ret k.
Proof.
  intros Hne.
  assert (Hlen : (0 < length klines)%nat) by (destruct klines; [congruence | simpl; lia]).
  unfold fromEnd.
  destruct (Nat.ltb_spec (length klines) 1); [lia |].
  destruct (klines !! (length klines - 1)%nat) as [k |] eqn:Hk;
    [| apply lookup_ge_None in Hk; lia].
  exists k. split; [| reflexivity].
  rewrite last_lookup, <- Hk. f_equal. lia.
Qed.

(** The fields of the snapshot which [Get] computes from the candles. *)
Lemma Get_indicators (up : Upstream F) (defaultCoins : gmap string bool)
      (symbol exchange : string) (w : World F) k3 k15 k1 k4 :
  klinesAnswer up (Normalize symbol) "3m" 150 = inr k3 ->
  klinesAnswer up (Normalize symbol) "15m" 150 = inr k15 ->
  klinesAnswer up (Normalize symbol) "1h" 150 = inr k1 ->
  klinesAnswer up (Normalize symbol) "4h" 150 = inr k4 ->
  k3 <> [] ->
  exists d w' lastCandle,
    Get up defaultCoins symbol exchange w = (w', inr d)
    /\ last k3 = Some lastCandle
    /\ CurrentPrice d = Close lastCandle
    /\ CurrentEMA20 d = calculateEMA k3 20
    /\ CurrentMACD d = calculateMACD k3
    /\ CurrentRSI7 d = calculateRSI k3 7
    /\ IntradaySeries d = Some (calculateIntradaySeries k3)
    /\ LongerTermContext d = Some (calculateLongerTermData k4).
Proof.
  intros H3 H15 H1 H4 Hne. unfold Get.
  do 4 (erewrite bind_assoc_run by (apply fetchKlines_ok; eassumption)).
  destruct (fromEnd_last k3 Hne) as (lastCandle & Hlast & Hend).
  rewrite Hend, bind_ret.
  destruct (priceChange_total k3 21 (Close lastCandle)) as [pc1 Hpc1]; [lia |].
  destruct (priceChange_total k4 2 (Close lastCandle)) as [pc4 Hpc4]; [lia |].
  cbv zeta in Hpc1, Hpc4 |- *.
  rewrite Hpc1, bind_ret, Hpc4, bind_ret.
  cbn [sent oiCache].
  destruct (isInDefaultCoins defaultCoins (Normalize symbol)).
  - destruct (String.eqb exchange "hyperliquid").
    + unfold bind, fetchHyperliquidOI, fetchFundingRate, send, ret. cbn [sent oiCache].
      destruct (getHyperliquidOpenInterestData (oiCache w) (hyperliquidEnv up)
                  (Normalize symbol)) as [[cache n] r].
      destruct r as [e | v], (fundingAnswer up (Normalize symbol)) as [e' | rate];
        do 3 eexists; (split; [reflexivity |]); (split; [exact Hlast |]);
        repeat split.
    + unfold bind, fetchBinanceOI, fetchFundingRate, send, ret, bind. cbn [sent oiCache].
      destruct (openInterestAnswer up (Normalize symbol)) as [e | v],
               (fundingAnswer up (Normalize symbol)) as [e' | rate];
        do 3 eexists; (split; [reflexivity |]); (split; [exact Hlast |]);
        repeat split.
  - unfold bind, fetchFundingRate, send, ret. cbn [sent oiCache].
    destruct (fundingAnswer up (Normalize symbol)) as [e' | rate];
      do 3 eexists; (split; [reflexivity |]); (split; [exact Hlast |]);
      repeat split.
Qed.
End SnapshotSeries.

(** X6.  The last entry of each intraday series is the indicator of the
    whole history: the EMA20 with at least 20 candles, the MACD with at
    least 26, the RSI7 with at least 8 and the RSI14 with at least 15; and
    the last mid price is the last close.  In the snapshot a successful
    [Get] returns, the intraday series is the one of the 3-minute history,
    its last mid price is [CurrentPrice], and the last entries of its
    EMA20, MACD and RSI7 series are [CurrentEMA20], [CurrentMACD] and
    [CurrentRSI7] once the history has 20, 26 and 8 candles.  ([Get]
    reports no current RSI14.) *)
Theorem intraday_series_end_with_current_values :
  forall (F : Type) (ops : Float64Ops F),
    (forall (klines : list (Kline F)),
        let data := calculateIntradaySeries klines in
        (forall k, last klines = Some k -> last (MidPrices data) = Some (Close k))
        /\ ((20 <= length klines)%nat ->
            last (EMA20Values data) = Some (calculateEMA klines 20))
        /\ ((26 <= length klines)%nat ->
            last (MACDValues data) = Some (calculateMACD klines))
        /\ ((8 <= length klines)%nat ->
            last (RSI7Values data) = Some (calculateRSI klines 7))
        /\ ((15 <= length klines)%nat ->
            last (RSI14Values data) = Some (calculateRSI klines 14)))
    /\ (forall (up : Upstream F) (defaultCoins : gmap string bool)
               (symbol exchange : string) (w w' : World F) (d : Data F),
          Get up defaultCoins symbol exchange w = (w', inr d) ->
          exists (klines3m : list (Kline F)) (series : IntradayData F),
            klinesAnswer up (Normalize symbol) "3m" 150 = inr klines3m
            /\ IntradaySeries d = Some series
            /\ series = calculateIntradaySeries klines3m
            /\ last (MidPrices series) = Some (CurrentPrice d)
            /\ ((20 <= length klines3m)%nat ->
                last (EMA20Values series) = Some (CurrentEMA20 d))
            /\ ((26 <= length klines3m)%nat ->
                last (MACDValues series) = Some (CurrentMACD d))
            /\ ((8 <= length klines3m)%nat ->
                last (RSI7Values series) = Some (CurrentRSI7 d))).
Proof.
  intros F ops.
  assert (Hseries : forall (klines : list (Kline F)),
             let data := calculateIntradaySeries klines in
             (forall k, last klines = Some k -> last (MidPrices data) = Some (Close k))
             /\ ((20 <= length klines)%nat ->
                 last (EMA20Values data) = Some (calculateEMA klines 20))
             /\ ((26 <= length klines)%nat ->
                 last (MACDValues data) = Some (calculateMACD klines))
             /\ ((8 <= length klines)%nat ->
                 last (RSI7Values data) = Some (calculateRSI klines 7))
             /\ ((15 <= length klines)%nat ->
                 last (RSI14Values data) = Some (calculateRSI klines 14))).
  { intros klines data. subst data.
    destruct klines as [| k0 rest] eqn:E.
    { cbn [length]. repeat split; intros; try lia. discriminate. }
    rewrite <- E.
    assert (Hne : klines <> []) by (rewrite E; discriminate).
    assert (Hl : length klines = S (length rest)) by (rewrite E; reflexivity).
    destruct (intraday_last_step klines Hne) as (data & k & Hlast & ->).
    cbn zeta. cbn [MidPrices EMA20Values MACDValues RSI7Values RSI14Values].
    split; [intros k' Hk'; rewrite last_snoc; congruence |].
    repeat split; intros Hlen;
      match goal with
      | |- context [(?c <=? ?i)%nat] =>
          destruct (Nat.leb_spec c i); [apply last_snoc | lia]
      end. }
  split; [exact Hseries |].
  intros up defaultCoins symbol exchange w w' d Hget.
  destruct (Get_ok_inv _ _ _ _ _ _ _ Hget)
    as (k3 & k15 & k1 & k4 & H3 & H15 & H1 & H4 & Hne).
  destruct (Get_indicators up defaultCoins symbol exchange w k3 k15 k1 k4
              H3 H15 H1 H4 Hne)
    as (d' & w'' & lastCandle & Hrun & Hlast & Hprice & Hema & Hmacd & Hrsi & Hintra & _).
  rewrite Hget in Hrun. injection Hrun as <- <-.
  specialize (Hseries k3). cbv zeta in Hseries.
  destruct Hseries as (Hmid & Hema20 & Hmacd26 & Hrsi7 & _).
  exists k3, (calculateIntradaySeries k3).
  split; [exact H3 |]. split; [exact Hintra |]. split; [reflexivity |].
  split; [rewrite Hprice; now apply Hmid |].
  split; [intros Hlen; rewrite Hema; now apply Hema20 |].
  split; [intros Hlen; rewrite Hmacd; now apply Hmacd26 |].
  intros Hlen. rewrite Hrsi. now apply Hrsi7.
Qed.

Lemma intraday_series_end_with_current_values_witness :
  exists (d : Data float) (series : IntradayData float),
    snd (Get flakyUpstream ∅ "eth" "binance" coldWorld) = inr d
    /\ IntradaySeries d = Some series
    /\ last (MidPrices series) = Some (CurrentPrice d)
    /\ last (RSI7Values series) = Some (CurrentRSI7 d).
Proof.
  destruct (Get flakyUpstream ∅ "eth" "binance" coldWorld) as [w' [a | d]] eqn:Hget;
    [vm_compute in Hget; discriminate |].
  destruct (intraday_series_end_with_current_values float binary64) as [_ Hsnapshot].
  destruct (Hsnapshot flakyUpstream ∅ "eth"%string "binance"%string coldWorld w' d Hget)
    as (k3 & series & Hk3 & Hseries & _ & Hmid & _ & _ & Hrsi).
  exists d, series. split; [reflexivity |]. split; [exact Hseries |].
  split; [exact Hmid |].
  apply Hrsi. cbn [klinesAnswer flakyUpstream] in Hk3. injection Hk3 as <-.
  simpl. lia.
Defined.
